(** * Wings (node daemon): crash handler, HTTP error translation and the
    archive engine of the rooted filesystem.

    A shallow embedding of [server/crash.go], [router/error.go] and the two
    variants of [server/filesystem/compress.go], with the properties the
    specification states about them. *)

From Stdlib Require Import ZArith List String Ascii Bool Lia.
From stdpp Require Import base gmap strings list fin_maps.
Import ListNotations.

(** * 1. Crash handler ([server/crash.go]) *)

Module Crash.
Local Open Scope Z_scope.

(** [environment.Process*State]. *)
Inductive ProcessState :=
| ProcessOfflineState
| ProcessStartingState
| ProcessRunningState
| ProcessStoppingState.

Definition ProcessState_eqb (a b : ProcessState) : bool :=
  match a, b with
  | ProcessOfflineState, ProcessOfflineState
  | ProcessStartingState, ProcessStartingState
  | ProcessRunningState, ProcessRunningState
  | ProcessStoppingState, ProcessStoppingState => true
  | _, _ => false
  end.

Inductive PowerAction :=
| PowerActionStart
| PowerActionStop
| PowerActionRestart
| PowerActionTerminate.

(** ** Go's [time] package, as far as the handler uses it.

    A [time.Time] is the number of nanoseconds elapsed since the zero
    instant (January 1, year 1); [IsZero] recognises that instant.  A
    [time.Duration] is a signed 64-bit count of nanoseconds, so the product
    [time.Second * time.Duration(n)] wraps around. *)
Definition Time := Z.
Definition Duration := Z.

Definition IsZero (t : Time) : bool := t =? 0.

Definition int64_wrap (z : Z) : Z := (z + 2 ^ 63) mod 2 ^ 64 - 2 ^ 63.

Definition Second : Duration := 1000000000.

Definition Duration_mul (a b : Duration) : Duration := int64_wrap (a * b).

Definition Add (t : Time) (d : Duration) : Time := t + d.

(** [t.After(u)]: t is later than u. *)
Definition After (t u : Time) : bool := u <? t.

(** ** Errors the handler returns. *)
Inductive error :=
| EnvironmentError (msg : string)       (* what Environment.ExitState failed with *)
| PowerError (msg : string)             (* what HandlePowerAction failed with *)
| crashTooFrequent                      (* &crashTooFrequent{} *)
| Wrapped (e : error) (msg : string).   (* errors.Wrap(e, msg) *)

(** [errors.Wrap(err, msg)] is nil for a nil error. *)
Definition errors_Wrap (e : option error) (msg : string) : option error :=
  match e with
  | None => None
  | Some e' => Some (Wrapped e' msg)
  end.

(** ** Console and log lines.  The source builds them with fixed (Chinese)
    texts and [fmt.Sprintf]; they are kept as tagged values, the payload
    being what the format verb prints. *)
Inductive ConsoleLine :=
| LineDetectionDisabled               (* aborting automatic restart: detection disabled *)
| LineCrashBanner                     (* ---- server process detected as crashed ---- *)
| LineExitCode (exitCode : Z)         (* exit code: %d *)
| LineOutOfMemory (oomKilled : bool)  (* out of memory: %t *)
| LineTooFrequent (timeout : Z).      (* aborting: last crash within Itoa(timeout) seconds *)

Inductive LogLine :=
| LogDetectionDisabled
| LogCleanExit.

(** What a call does besides returning, in program order. *)
Inductive Effect :=
| LogDebug (l : LogLine)
| PublishConsoleOutputFromDaemon (l : ConsoleLine)
| HandlePowerAction (a : PowerAction).

(** [CrashHandler]: the mutex only serialises access to [lastCrash]. *)
Record CrashHandler := { lastCrash : Time }.

Definition LastCrashTime (cd : CrashHandler) : Time := lastCrash cd.
Definition SetLastCrash (cd : CrashHandler) (t : Time) : CrashHandler :=
  {| lastCrash := t |}.

(** Everything one call of [handleServerCrash] reads from outside the crash
    handler: the environment, the two configurations, the two readings of the
    clock ([time.Now()] in the cooldown test, and again in [SetLastCrash]) and
    the outcome of the power action if one is issued. *)
Record World := {
  EnvironmentState : ProcessState;              (* s.Environment.State() *)
  CrashDetectionEnabled : bool;                 (* s.Config().CrashDetectionEnabled *)
  ExitState : error + (Z * bool);               (* s.Environment.ExitState() *)
  DetectCleanExitAsCrash : bool;                (* config.Get().System.CrashDetection *)
  Timeout : Z;                                  (*   .Timeout, an int *)
  NowAtCheck : Time;
  NowAtRecord : Time;
  PowerActionResult : option error              (* s.HandlePowerAction(PowerActionStart) *)
}.

Definition Outcome : Type := CrashHandler * list Effect * option error.

Definition handleServerCrash (w : World) (cd : CrashHandler) : Outcome :=
  if negb (ProcessState_eqb (EnvironmentState w) ProcessOfflineState)
     || negb (CrashDetectionEnabled w)
  then
    (cd,
     if negb (CrashDetectionEnabled w)
     then [LogDebug LogDetectionDisabled;
           PublishConsoleOutputFromDaemon LineDetectionDisabled]
     else [],
     None)
  else
    match ExitState w with
    | inl err => (cd, [], errors_Wrap (Some err) "failed to get exit state for server process")
    | inr (exitCode, oomKilled) =>
      if (exitCode =? 0) && negb oomKilled && negb (DetectCleanExitAsCrash w)
      then (cd, [LogDebug LogCleanExit], None)
      else
        let announced :=
          [PublishConsoleOutputFromDaemon LineCrashBanner;
           PublishConsoleOutputFromDaemon (LineExitCode exitCode);
           PublishConsoleOutputFromDaemon (LineOutOfMemory oomKilled)] in
        let c := LastCrashTime cd in
        let timeout := Timeout w in
        if negb (timeout =? 0) && negb (IsZero c)
           && After (Add c (Duration_mul Second (Timeout w))) (NowAtCheck w)
        then
          (cd,
           announced ++ [PublishConsoleOutputFromDaemon (LineTooFrequent timeout)],
           Some crashTooFrequent)
        else
          (SetLastCrash cd (NowAtRecord w),
           announced ++ [HandlePowerAction PowerActionStart],
           errors_Wrap (PowerActionResult w) "failed to start server after crash detection")
    end.

Definition crash_handler (o : Outcome) : CrashHandler := fst (fst o).
Definition effects (o : Outcome) : list Effect := snd (fst o).
Definition returned (o : Outcome) : option error := snd o.

Definition is_start (e : Effect) : bool :=
  match e with
  | HandlePowerAction PowerActionStart => true
  | _ => false
  end.

Definition is_power_action (e : Effect) : bool :=
  match e with
  | HandlePowerAction _ => true
  | _ => false
  end.

Definition is_crash_announcement (e : Effect) : bool :=
  match e with
  | PublishConsoleOutputFromDaemon LineCrashBanner
  | PublishConsoleOutputFromDaemon (LineExitCode _)
  | PublishConsoleOutputFromDaemon (LineOutOfMemory _) => true
  | _ => false
  end.

(** Number of power-action starts a call issued. *)
Definition starts (o : Outcome) : nat := List.length (List.filter is_start (effects o)).

(** The call got past the three guards in front of the cooldown test: the
    environment is offline, detection is enabled, the exit state was read, and
    the exit is not a clean one the configuration tells it to ignore. *)
Definition crash_detected (w : World) : Prop :=
  EnvironmentState w = ProcessOfflineState /\
  CrashDetectionEnabled w = true /\
  exists exitCode oomKilled,
    ExitState w = inr (exitCode, oomKilled) /\
    ((exitCode =? 0) && negb oomKilled && negb (DetectCleanExitAsCrash w)) = false.

(** [timeout] seconds are representable as a [time.Duration]. *)
Definition fits_Duration (timeout : Z) : Prop :=
  - 2 ^ 63 <= Second * timeout < 2 ^ 63.

(** ** A server's successive crash events.

    The handler is run once per event, each with its own readings of the
    world; [restart_times] collects, for every call that issued the power
    action, the crash time it recorded. *)
Fixpoint restart_times (cd : CrashHandler) (ws : list World) : list Time :=
  match ws with
  | [] => []
  | w :: ws' =>
    let o := handleServerCrash w cd in
    (if List.existsb is_start (effects o) then [lastCrash (crash_handler o)] else [])
      ++ restart_times (crash_handler o) ws'
  end.

(** The clock never runs backwards along the events, starting from [t]. *)
Fixpoint clock_ordered (t : Time) (ws : list World) : Prop :=
  match ws with
  | [] => True
  | w :: ws' =>
    t <= NowAtCheck w /\ NowAtCheck w <= NowAtRecord w /\ clock_ordered (NowAtRecord w) ws'
  end.

(** Restarts stamped inside the half-open window [[from, from + len)]. *)
Definition in_window (from len : Z) (l : list Time) : list Time :=
  List.filter (fun s => (from <=? s) && (s <? from + len)) l.

(** Each stamp is at least [lo], and the next one at least [gap] later. *)
Fixpoint spaced (gap lo : Z) (l : list Time) : Prop :=
  match l with
  | [] => True
  | s :: l' => lo <= s /\ spaced gap (s + gap) l'
  end.

(** The scenario of the specification: exit code 137 at second [at_s] of a
    server whose cooldown is [timeout] seconds. *)
Definition crash_at (timeout at_s : Z) : World :=
  {| EnvironmentState := ProcessOfflineState;
     CrashDetectionEnabled := true;
     ExitState := inr (137, false);
     DetectCleanExitAsCrash := false;
     Timeout := timeout;
     NowAtCheck := at_s * Second;
     NowAtRecord := at_s * Second;
     PowerActionResult := None |}.

(** A crash handler as [new(CrashHandler)] leaves it: the zero [time.Time]. *)
Definition never_crashed : CrashHandler := {| lastCrash := 0 |}.

(** A clean exit (code 0, no OOM kill) that the configuration ignores. *)
Definition clean_exit_at (timeout at_s : Z) : World :=
  {| EnvironmentState := ProcessOfflineState;
     CrashDetectionEnabled := true;
     ExitState := inr (0, false);
     DetectCleanExitAsCrash := false;
     Timeout := timeout;
     NowAtCheck := at_s * Second;
     NowAtRecord := at_s * Second;
     PowerActionResult := None |}.

(** An exit with code 0 of a process the kernel killed for running out of
    memory, at second [at_s]. *)
Definition oom_kill_at (timeout at_s : Z) : World :=
  {| EnvironmentState := ProcessOfflineState;
     CrashDetectionEnabled := true;
     ExitState := inr (0, true);
     DetectCleanExitAsCrash := false;
     Timeout := timeout;
     NowAtCheck := at_s * Second;
     NowAtRecord := at_s * Second;
     PowerActionResult := None |}.

(** A crash of a server that is still running, with detection disabled. *)
Definition running_undetected : World :=
  {| EnvironmentState := ProcessRunningState;
     CrashDetectionEnabled := false;
     ExitState := inr (137, false);
     DetectCleanExitAsCrash := false;
     Timeout := 60;
     NowAtCheck := 105 * Second;
     NowAtRecord := 105 * Second;
     PowerActionResult := None |}.

(** A crash at second [at_s] whose restart fails with [e]. *)
Definition failing_start_at (timeout at_s : Z) (e : error) : World :=
  {| EnvironmentState := ProcessOfflineState;
     CrashDetectionEnabled := true;
     ExitState := inr (137, false);
     DetectCleanExitAsCrash := false;
     Timeout := timeout;
     NowAtCheck := at_s * Second;
     NowAtRecord := at_s * Second;
     PowerActionResult := Some e |}.

(** The three console lines that announce a crash. *)
Definition announcement (exitCode : Z) (oomKilled : bool) : list Effect :=
  [PublishConsoleOutputFromDaemon LineCrashBanner;
   PublishConsoleOutputFromDaemon (LineExitCode exitCode);
   PublishConsoleOutputFromDaemon (LineOutOfMemory oomKilled)].

(** ** Properties *)

Lemma int64_wrap_small (z : Z) : - 2 ^ 63 <= z < 2 ^ 63 -> int64_wrap z = z.
Proof.
  intros Hz. unfold int64_wrap.
  rewrite Z.mod_small; lia.
Qed.

Lemma Duration_mul_fits (timeout : Z) :
  fits_Duration timeout -> Duration_mul Second timeout = Second * timeout.
Proof. intros H. apply int64_wrap_small. exact H. Qed.

(** A call either leaves the crash handler alone and starts nothing, or it
    passed the cooldown test, recorded the second clock reading and started
    the server once. *)
Lemma handleServerCrash_cases (w : World) (cd : CrashHandler) :
  let o := handleServerCrash w cd in
  (crash_handler o = cd /\ List.filter is_start (effects o) = []) \/
  (crash_handler o = SetLastCrash cd (NowAtRecord w) /\
   List.filter is_start (effects o) = [HandlePowerAction PowerActionStart] /\
   (negb (Timeout w =? 0) && negb (IsZero (lastCrash cd))
    && After (Add (lastCrash cd) (Duration_mul Second (Timeout w))) (NowAtCheck w)) = false).
Proof.
  unfold handleServerCrash, LastCrashTime.
  destruct (negb (ProcessState_eqb (EnvironmentState w) ProcessOfflineState)
            || negb (CrashDetectionEnabled w)) eqn:Hguard.
  - left. split; [reflexivity|]. cbn. destruct (negb (CrashDetectionEnabled w)); reflexivity.
  - destruct (ExitState w) as [err | [exitCode oomKilled]].
    + left. split; reflexivity.
    + destruct ((exitCode =? 0) && negb oomKilled && negb (DetectCleanExitAsCrash w)).
      * left. split; reflexivity.
      * destruct (negb (Timeout w =? 0) && negb (IsZero (lastCrash cd))
                  && After (Add (lastCrash cd) (Duration_mul Second (Timeout w))) (NowAtCheck w))
          eqn:Hcool.
        -- left. split; reflexivity.
        -- right. repeat split; reflexivity.
Qed.

Lemma existsb_filter_nil {A} (f : A -> bool) (l : list A) :
  List.filter f l = [] -> List.existsb f l = false.
Proof.
  induction l as [|a l IH]; cbn; [reflexivity|].
  destruct (f a); [discriminate | exact IH].
Qed.

Lemma spaced_weaken (gap lo lo' : Z) (l : list Time) :
  lo <= lo' -> spaced gap lo' l -> spaced gap lo l.
Proof. destruct l as [|s l]; cbn; [trivial|]. intros Hle [Hs Hl]. split; [lia | exact Hl]. Qed.

Lemma spaced_lower_bound (gap lo : Z) (l : list Time) :
  0 <= gap -> spaced gap lo l -> List.Forall (fun s => lo <= s) l.
Proof.
  intros Hgap. revert lo.
  induction l as [|s l IH]; intros lo; cbn; [constructor|].
  intros [Hs Hl]. constructor; [exact Hs|].
  apply IH in Hl. eapply List.Forall_impl; [|exact Hl].
  cbn. intros x Hx. lia.
Qed.

Lemma in_window_outside (from len : Z) (l : list Time) :
  List.Forall (fun s => from + len <= s) l -> in_window from len l = [].
Proof.
  unfold in_window. induction 1 as [|s l Hs _ IH]; cbn; [reflexivity|].
  rewrite IH. destruct (from <=? s); cbn; [|reflexivity].
  destruct (s <? from + len) eqn:E; [|reflexivity].
  apply Z.ltb_lt in E. lia.
Qed.

Lemma in_window_empty (from len : Z) (l : list Time) :
  len <= 0 -> in_window from len l = [].
Proof.
  intros Hlen. unfold in_window. induction l as [|s l IH]; cbn; [reflexivity|].
  rewrite IH. destruct (from <=? s) eqn:E1; cbn; [|reflexivity].
  destruct (s <? from + len) eqn:E2; [|reflexivity].
  apply Z.leb_le in E1. apply Z.ltb_lt in E2. lia.
Qed.

Lemma spaced_window (gap lo from : Z) (l : list Time) :
  spaced gap lo l -> (List.length (in_window from gap l) <= 1)%nat.
Proof.
  destruct (Z_le_gt_dec gap 0) as [Hgap | Hgap].
  { intros _. rewrite in_window_empty by exact Hgap. cbn. lia. }
  revert lo. induction l as [|s l IH]; intros lo; [cbn; lia|].
  intros [Hs Hl].
  change (in_window from gap (s :: l))
    with (if (from <=? s) && (s <? from + gap) then s :: in_window from gap l
          else in_window from gap l).
  destruct ((from <=? s) && (s <? from + gap)) eqn:E.
  - apply andb_true_iff in E as [E1 E2]. apply Z.leb_le in E1.
    rewrite in_window_outside; [cbn; lia|].
    apply spaced_lower_bound in Hl; [|lia].
    eapply List.Forall_impl; [|exact Hl]. cbn. intros x Hx. lia.
  - eapply IH. exact Hl.
Qed.

(** Successive restarts of one server are at least the cooldown apart. *)
Lemma restart_times_spaced (T : Z) :
  T <> 0 -> fits_Duration T ->
  forall (ws : list World) (cd : CrashHandler) (t : Time),
    0 < t -> clock_ordered t ws -> List.Forall (fun w => Timeout w = T) ws ->
    spaced (T * Second)
           (if lastCrash cd =? 0 then t else Z.max t (lastCrash cd + T * Second))
           (restart_times cd ws).
Proof.
  intros HT Hfit. induction ws as [|w ws IH]; intros cd t Ht Hclock Hcfg; [exact I|].
  destruct Hclock as (Hc1 & Hc2 & Hclock).
  inversion Hcfg as [|? ? HTw Hcfg']; subst.
  cbn [restart_times].
  destruct (handleServerCrash_cases w cd) as [[Hcd Hno] | (Hcd & Hone & Hcool)].
  - rewrite (existsb_filter_nil _ _ Hno), Hcd. cbn [app].
    eapply spaced_weaken; [|apply (IH cd (NowAtRecord w)); [lia | exact Hclock | exact Hcfg']].
    destruct (lastCrash cd =? 0); lia.
  - assert (Hex : List.existsb is_start (effects (handleServerCrash w cd)) = true).
    { destruct (List.existsb is_start (effects (handleServerCrash w cd))) eqn:E; [reflexivity|].
      exfalso. assert (Hin : In (HandlePowerAction PowerActionStart)
                               (List.filter is_start (effects (handleServerCrash w cd)))).
      { rewrite Hone. left. reflexivity. }
      apply List.filter_In in Hin as [Hin _].
      assert (List.existsb is_start (effects (handleServerCrash w cd)) = true).
      { apply List.existsb_exists. eexists. split; [exact Hin | reflexivity]. }
      congruence. }
    rewrite Hex, Hcd. cbn [app SetLastCrash lastCrash].
    rewrite Duration_mul_fits in Hcool by exact Hfit.
    unfold After, Add, IsZero in Hcool.
    split.
    + destruct (Timeout w =? 0) eqn:ET; [apply Z.eqb_eq in ET; contradiction|].
      destruct (lastCrash cd =? 0) eqn:Ec; [lia|].
      cbn in Hcool. apply Z.ltb_ge in Hcool. lia.
    + eapply spaced_weaken;
        [|apply (IH {| lastCrash := NowAtRecord w |} (NowAtRecord w));
          [lia | exact Hclock | exact Hcfg']].
      cbn [lastCrash]. destruct (NowAtRecord w =? 0) eqn:E0; [apply Z.eqb_eq in E0; lia|].
      lia.
Qed.

(** C7. When the last exit has code 0, was not killed for running out of
    memory, and a clean exit is not configured to count as a crash, a call of
    [handleServerCrash] returns nil, publishes no crash announcement, leaves
    [lastCrash] as it was and issues no power action. *)
Theorem clean_exit_is_ignored (w : World) (cd : CrashHandler) :
  ExitState w = inr (0, false) ->
  DetectCleanExitAsCrash w = false ->
  returned (handleServerCrash w cd) = None /\
  List.filter is_crash_announcement (effects (handleServerCrash w cd)) = [] /\
  crash_handler (handleServerCrash w cd) = cd /\
  List.filter is_power_action (effects (handleServerCrash w cd)) = [].
Proof.
  intros Hexit Hclean. unfold handleServerCrash.
  rewrite Hexit, Hclean.
  destruct (negb (ProcessState_eqb (EnvironmentState w) ProcessOfflineState)
            || negb (CrashDetectionEnabled w)).
  - destruct (negb (CrashDetectionEnabled w)); repeat split; reflexivity.
  - cbn. repeat split; reflexivity.
Qed.

Lemma clean_exit_is_ignored_witness :
  handleServerCrash (clean_exit_at 60 105) {| lastCrash := 100 * Second |}
  = ({| lastCrash := 100 * Second |}, [LogDebug LogCleanExit], None) /\
  returned (handleServerCrash (clean_exit_at 60 105) {| lastCrash := 100 * Second |}) = None /\
  List.filter is_crash_announcement
    (effects (handleServerCrash (clean_exit_at 60 105) {| lastCrash := 100 * Second |})) = [] /\
  crash_handler (handleServerCrash (clean_exit_at 60 105) {| lastCrash := 100 * Second |})
  = {| lastCrash := 100 * Second |} /\
  List.filter is_power_action
    (effects (handleServerCrash (clean_exit_at 60 105) {| lastCrash := 100 * Second |})) = [].
Proof.
  split; [reflexivity|].
  apply (clean_exit_is_ignored (clean_exit_at 60 105) {| lastCrash := 100 * Second |});
    reflexivity.
Defined.

(** C2, as the code has it.  For a cooldown [T <> 0] whose [T] seconds fit a
    [time.Duration], and a call that got past the guards in front of the
    cooldown test (environment offline, detection enabled, exit state read,
    exit counted as a crash): when the recorded last crash is not the zero
    time and lies less than [T] seconds before the clock reading, the call
    returns the crash-too-frequent error, starts nothing and keeps
    [lastCrash]; otherwise it records the clock reading as [lastCrash] and
    issues exactly one power-action start.  Hence along any sequence of crash
    events of one server with a clock that does not run backwards, at most one
    restart is stamped inside any window of [T] seconds. *)
Theorem cooldown_limits_restarts (T : Z) :
  T <> 0 -> fits_Duration T ->
  (forall (w : World) (cd : CrashHandler),
     Timeout w = T -> crash_detected w ->
     (IsZero (lastCrash cd) = false /\ NowAtCheck w - lastCrash cd < T * Second ->
      returned (handleServerCrash w cd) = Some crashTooFrequent /\
      starts (handleServerCrash w cd) = 0%nat /\
      crash_handler (handleServerCrash w cd) = cd) /\
     (~ (IsZero (lastCrash cd) = false /\ NowAtCheck w - lastCrash cd < T * Second) ->
      lastCrash (crash_handler (handleServerCrash w cd)) = NowAtRecord w /\
      starts (handleServerCrash w cd) = 1%nat)) /\
  (forall (ws : list World) (cd : CrashHandler) (t from : Time),
     0 < t -> clock_ordered t ws -> List.Forall (fun w => Timeout w = T) ws ->
     (List.length (in_window from (T * Second) (restart_times cd ws)) <= 1)%nat).
Proof.
  intros HT Hfit. split.
  - intros w cd HTw (Hoff & Hen & exitCode & oomKilled & Hexit & Hcrash).
    unfold handleServerCrash, starts, returned, crash_handler, effects, LastCrashTime.
    rewrite Hoff, Hen, Hexit, Hcrash, HTw. cbn [ProcessState_eqb negb orb].
    rewrite (Duration_mul_fits T Hfit).
    destruct (T =? 0) eqn:ET; [apply Z.eqb_eq in ET; contradiction|].
    cbn [negb andb]. unfold After, Add.
    split.
    + intros [Hnz Hrecent]. rewrite Hnz. cbn [negb andb].
      replace (NowAtCheck w <? lastCrash cd + Second * T) with true
        by (symmetry; apply Z.ltb_lt; lia).
      repeat split; reflexivity.
    + intros Hnot.
      destruct (IsZero (lastCrash cd)) eqn:Hz; cbn [negb andb].
      * repeat split; reflexivity.
      * destruct (NowAtCheck w <? lastCrash cd + Second * T) eqn:E.
        -- exfalso. apply Hnot. split; [reflexivity|]. apply Z.ltb_lt in E. lia.
        -- repeat split; reflexivity.
  - intros ws cd t from Ht Hclock Hcfg.
    eapply spaced_window. apply (restart_times_spaced T HT Hfit ws cd t Ht Hclock Hcfg).
Qed.

(** The specification's scenario: cooldown 60 s, exit code 137 at seconds 100
    and 105.  The second call is refused, and one restart is recorded. *)
Lemma cooldown_limits_restarts_witness :
  (returned (handleServerCrash (crash_at 60 105) {| lastCrash := 100 * Second |})
   = Some crashTooFrequent /\
   starts (handleServerCrash (crash_at 60 105) {| lastCrash := 100 * Second |}) = 0%nat /\
   crash_handler (handleServerCrash (crash_at 60 105) {| lastCrash := 100 * Second |})
   = {| lastCrash := 100 * Second |}) /\
  restart_times never_crashed [crash_at 60 100; crash_at 60 105] = [100 * Second] /\
  (List.length (in_window (100 * Second) (60 * Second)
                  (restart_times never_crashed [crash_at 60 100; crash_at 60 105]))
   <= 1)%nat.
Proof.
  assert (H60 : (60 <> 0) /\ fits_Duration 60) by (unfold fits_Duration, Second; lia).
  destruct (cooldown_limits_restarts 60 (proj1 H60) (proj2 H60)) as [Hcall Hrun].
  split; [|split].
  - apply (Hcall (crash_at 60 105) {| lastCrash := 100 * Second |}).
    + reflexivity.
    + unfold crash_detected. repeat split. exists 137, false. split; reflexivity.
    + split; [reflexivity | vm_compute; reflexivity].
  - reflexivity.
  - apply (Hrun [crash_at 60 100; crash_at 60 105] never_crashed 1 (100 * Second)).
    + lia.
    + cbn. unfold Second. lia.
    + repeat constructor.
Defined.

(** C2 as stated fails in front of the cooldown test: a clean exit 5 seconds
    after a recorded crash, with cooldown 60, returns nil where the statement
    has the crash-too-frequent error. *)
Lemma cooldown_ignores_guards_counterexample :
  Timeout (clean_exit_at 60 105) = 60 /\
  IsZero (100 * Second) = false /\
  NowAtCheck (clean_exit_at 60 105) - 100 * Second = 5 * Second /\
  handleServerCrash (clean_exit_at 60 105) {| lastCrash := 100 * Second |}
  = ({| lastCrash := 100 * Second |}, [LogDebug LogCleanExit], None).
Proof. repeat split; reflexivity. Qed.

(** Past the 64-bit range of [time.Duration] the product wraps: a cooldown of
    9223372037 s turns into a negative duration. *)
Example Duration_mul_wraps :
  Duration_mul Second 9223372037 = - 9223372036709551616.
Proof. reflexivity. Qed.

(** ** What a call does, guard by guard *)

Lemma crash_detected_dec (w : World) :
  crash_detected w \/
  (negb (ProcessState_eqb (EnvironmentState w) ProcessOfflineState)
   || negb (CrashDetectionEnabled w) = true) \/
  (exists e, ExitState w = inl e) \/
  (exists exitCode oomKilled, ExitState w = inr (exitCode, oomKilled) /\
     (exitCode =? 0) && negb oomKilled && negb (DetectCleanExitAsCrash w) = true).
Proof.
  unfold crash_detected.
  destruct (EnvironmentState w) eqn:Hs; cbn; auto.
  destruct (CrashDetectionEnabled w) eqn:He; cbn; auto.
  destruct (ExitState w) as [e | [exitCode oomKilled]] eqn:Hx.
  - right. right. left. eauto.
  - destruct ((exitCode =? 0) && negb oomKilled && negb (DetectCleanExitAsCrash w)) eqn:Hc.
    + right. right. right. eauto.
    + left. repeat split. eauto.
Qed.

(** What a call does once the crash is detected. *)
Lemma handleServerCrash_detected (w : World) (cd : CrashHandler) (exitCode : Z)
    (oomKilled : bool) :
  EnvironmentState w = ProcessOfflineState ->
  CrashDetectionEnabled w = true ->
  ExitState w = inr (exitCode, oomKilled) ->
  (exitCode =? 0) && negb oomKilled && negb (DetectCleanExitAsCrash w) = false ->
  handleServerCrash w cd
  = if negb (Timeout w =? 0) && negb (IsZero (lastCrash cd))
       && After (Add (lastCrash cd) (Duration_mul Second (Timeout w))) (NowAtCheck w)
    then (cd,
          announcement exitCode oomKilled
            ++ [PublishConsoleOutputFromDaemon (LineTooFrequent (Timeout w))],
          Some crashTooFrequent)
    else (SetLastCrash cd (NowAtRecord w),
          announcement exitCode oomKilled ++ [HandlePowerAction PowerActionStart],
          errors_Wrap (PowerActionResult w) "failed to start server after crash detection").
Proof.
  intros Hoff Hen Hexit Hcrash. unfold handleServerCrash, LastCrashTime.
  rewrite Hoff, Hen, Hexit, Hcrash. reflexivity.
Qed.

(** X1. Whatever the world, a call of [handleServerCrash] issues no power
    action other than one start, and it issues that start exactly when it
    records the crash time: either no power action is issued and [lastCrash]
    is kept, or the only power action is one [PowerActionStart], [lastCrash]
    is the second clock reading, and the value returned is the start's error
    wrapped (nil when the start succeeded). *)
Theorem restart_comes_with_the_record (w : World) (cd : CrashHandler) :
  (List.filter is_power_action (effects (handleServerCrash w cd)) = [] /\
   crash_handler (handleServerCrash w cd) = cd) \/
  (List.filter is_power_action (effects (handleServerCrash w cd))
   = [HandlePowerAction PowerActionStart] /\
   crash_handler (handleServerCrash w cd) = SetLastCrash cd (NowAtRecord w) /\
   returned (handleServerCrash w cd)
   = errors_Wrap (PowerActionResult w) "failed to start server after crash detection").
Proof.
  destruct (crash_detected_dec w)
    as [(Hoff & Hen & exitCode & oomKilled & Hexit & Hcrash)
       | [Hguard | [[e He] | (exitCode & oomKilled & Hexit & Hclean)]]].
  - rewrite (handleServerCrash_detected w cd exitCode oomKilled Hoff Hen Hexit Hcrash).
    destruct (negb (Timeout w =? 0) && negb (IsZero (lastCrash cd))
              && After (Add (lastCrash cd) (Duration_mul Second (Timeout w))) (NowAtCheck w)).
    + left. split; reflexivity.
    + right. repeat split; reflexivity.
  - left. unfold handleServerCrash. rewrite Hguard.
    destruct (negb (CrashDetectionEnabled w)); split; reflexivity.
  - left. unfold handleServerCrash. rewrite He.
    destruct (negb (ProcessState_eqb (EnvironmentState w) ProcessOfflineState)
              || negb (CrashDetectionEnabled w));
      [destruct (negb (CrashDetectionEnabled w))|]; split; reflexivity.
  - left. unfold handleServerCrash. rewrite Hexit, Hclean.
    destruct (negb (ProcessState_eqb (EnvironmentState w) ProcessOfflineState)
              || negb (CrashDetectionEnabled w));
      [destruct (negb (CrashDetectionEnabled w))|]; split; reflexivity.
Qed.

(** X2. The crash is announced exactly when it is detected.  When the
    environment is offline, detection is enabled, the exit state is read and
    the exit is not a clean one the configuration ignores (so also for exit
    code 0 after an out-of-memory kill, or with clean exits configured to
    count), the call's output starts with the banner, the exit code and the
    out-of-memory flag, in this order.  In every other case none of these
    lines is published. *)
Theorem crash_is_announced_iff_detected (w : World) (cd : CrashHandler) :
  (forall (exitCode : Z) (oomKilled : bool),
     crash_detected w -> ExitState w = inr (exitCode, oomKilled) ->
     List.firstn 3 (effects (handleServerCrash w cd)) = announcement exitCode oomKilled /\
     List.filter is_crash_announcement (effects (handleServerCrash w cd))
     = announcement exitCode oomKilled) /\
  (~ crash_detected w ->
     List.filter is_crash_announcement (effects (handleServerCrash w cd)) = []).
Proof.
  split.
  - intros exitCode oomKilled (Hoff & Hen & exitCode' & oomKilled' & Hexit & Hcrash) Hexit'.
    rewrite Hexit in Hexit'. injection Hexit' as -> ->.
    rewrite (handleServerCrash_detected w cd exitCode oomKilled Hoff Hen Hexit Hcrash).
    destruct (negb (Timeout w =? 0) && negb (IsZero (lastCrash cd))
              && After (Add (lastCrash cd) (Duration_mul Second (Timeout w))) (NowAtCheck w));
      split; reflexivity.
  - intros Hnot.
    destruct (crash_detected_dec w)
      as [Hdet | [Hguard | [[e He] | (exitCode & oomKilled & Hexit & Hclean)]]].
    + contradiction.
    + unfold handleServerCrash. rewrite Hguard.
      destruct (negb (CrashDetectionEnabled w)); reflexivity.
    + unfold handleServerCrash. rewrite He.
      destruct (negb (ProcessState_eqb (EnvironmentState w) ProcessOfflineState)
                || negb (CrashDetectionEnabled w));
        [destruct (negb (CrashDetectionEnabled w))|]; reflexivity.
    + unfold handleServerCrash. rewrite Hexit, Hclean.
      destruct (negb (ProcessState_eqb (EnvironmentState w) ProcessOfflineState)
                || negb (CrashDetectionEnabled w));
        [destruct (negb (CrashDetectionEnabled w))|]; reflexivity.
Qed.

Lemma crash_is_announced_iff_detected_witness :
  List.firstn 3 (effects (handleServerCrash (oom_kill_at 60 100) never_crashed))
  = announcement 0 true /\
  List.filter is_crash_announcement
    (effects (handleServerCrash running_undetected never_crashed)) = [].
Proof.
  split.
  - apply (proj1 (crash_is_announced_iff_detected (oom_kill_at 60 100) never_crashed) 0 true).
    + unfold crash_detected. repeat split. exists 0, true. split; reflexivity.
    + reflexivity.
  - apply (proj2 (crash_is_announced_iff_detected running_undetected never_crashed)).
    intros (Hoff & _). discriminate.
Defined.

(** X3. With the cooldown set to 0 every detected crash restarts the server,
    however close the crashes are: along a sequence of crash events that all
    get past the guards, each event records its clock reading and issues a
    start. *)
Theorem zero_timeout_restarts_every_crash (ws : list World) (cd : CrashHandler) :
  List.Forall (fun w => Timeout w = 0 /\ crash_detected w) ws ->
  restart_times cd ws = List.map NowAtRecord ws.
Proof.
  revert cd. induction ws as [|w ws IH]; intros cd Hall; [reflexivity|].
  inversion Hall as [|? ? [HT (Hoff & Hen & exitCode & oomKilled & Hexit & Hcrash)] Hall']; subst.
  cbn [restart_times List.map].
  rewrite (handleServerCrash_detected w cd exitCode oomKilled Hoff Hen Hexit Hcrash).
  rewrite HT. cbn [Z.eqb negb andb].
  cbn [effects crash_handler fst snd SetLastCrash lastCrash announcement app List.existsb
       is_start orb].
  rewrite IH by exact Hall'. reflexivity.
Qed.

Lemma zero_timeout_restarts_every_crash_witness :
  restart_times {| lastCrash := 99 * Second |} [crash_at 0 100; crash_at 0 100; crash_at 0 101]
  = [100 * Second; 100 * Second; 101 * Second].
Proof.
  apply (zero_timeout_restarts_every_crash
           [crash_at 0 100; crash_at 0 100; crash_at 0 101] {| lastCrash := 99 * Second |}).
  repeat constructor; exists 137, false; split; reflexivity.
Defined.

(** X4. A server that has never crashed is restarted at its first detected
    crash whatever the configured cooldown is, also one whose seconds do not
    fit a [time.Duration]; and a negative cooldown refuses nothing as long as
    the recorded crash does not lie after the clock reading. *)
Theorem first_crash_always_restarts (w : World) (cd : CrashHandler) :
  crash_detected w ->
  IsZero (lastCrash cd) = true \/
  (Timeout w < 0 /\ fits_Duration (Timeout w) /\ lastCrash cd <= NowAtCheck w) ->
  starts (handleServerCrash w cd) = 1%nat /\
  lastCrash (crash_handler (handleServerCrash w cd)) = NowAtRecord w /\
  returned (handleServerCrash w cd)
  = errors_Wrap (PowerActionResult w) "failed to start server after crash detection".
Proof.
  intros (Hoff & Hen & exitCode & oomKilled & Hexit & Hcrash) Hcase.
  rewrite (handleServerCrash_detected w cd exitCode oomKilled Hoff Hen Hexit Hcrash).
  assert (Hcool : negb (Timeout w =? 0) && negb (IsZero (lastCrash cd))
                  && After (Add (lastCrash cd) (Duration_mul Second (Timeout w))) (NowAtCheck w)
                  = false).
  { destruct Hcase as [Hz | (Hneg & Hfit & Hclock)].
    - rewrite Hz. cbn [negb]. rewrite andb_false_r. reflexivity.
    - rewrite (Duration_mul_fits _ Hfit). unfold After, Add.
      replace (NowAtCheck w <? lastCrash cd + Second * Timeout w) with false
        by (symmetry; apply Z.ltb_ge; unfold Second; lia).
      apply andb_false_r. }
  rewrite Hcool. repeat split; reflexivity.
Qed.

Lemma first_crash_always_restarts_witness :
  starts (handleServerCrash (crash_at 9223372037 100) never_crashed) = 1%nat /\
  starts (handleServerCrash (crash_at (-1) 100) {| lastCrash := 100 * Second |}) = 1%nat.
Proof.
  split.
  - apply (first_crash_always_restarts (crash_at 9223372037 100) never_crashed).
    + unfold crash_detected. repeat split. exists 137, false. split; reflexivity.
    + left. reflexivity.
  - apply (first_crash_always_restarts (crash_at (-1) 100) {| lastCrash := 100 * Second |}).
    + unfold crash_detected. repeat split. exists 137, false. split; reflexivity.
    + right. cbn. unfold fits_Duration, Second. lia.
Defined.

(** X5. A restart that fails still counts as the last crash.  When a
    detected crash passes the cooldown test and the start fails with [e], the
    call returns [e] wrapped and the crash time is recorded all the same; so
    the next detected crash, less than the cooldown after that reading, is
    refused as too frequent and starts nothing. *)
Theorem failed_start_arms_the_cooldown (T : Z) (w w' : World) (cd : CrashHandler)
    (e : error) :
  0 < T -> fits_Duration T -> Timeout w = T -> Timeout w' = T ->
  crash_detected w -> crash_detected w' ->
  starts (handleServerCrash w cd) = 1%nat ->
  PowerActionResult w = Some e ->
  NowAtRecord w <> 0 ->
  NowAtCheck w' - NowAtRecord w < T * Second ->
  returned (handleServerCrash w cd)
  = Some (Wrapped e "failed to start server after crash detection") /\
  returned (handleServerCrash w' (crash_handler (handleServerCrash w cd)))
  = Some crashTooFrequent /\
  starts (handleServerCrash w' (crash_handler (handleServerCrash w cd))) = 0%nat /\
  crash_handler (handleServerCrash w' (crash_handler (handleServerCrash w cd)))
  = {| lastCrash := NowAtRecord w |}.
Proof.
  intros HT Hfit HTw HTw' (Hoff & Hen & exitCode & oomKilled & Hexit & Hcrash)
         (Hoff' & Hen' & exitCode' & oomKilled' & Hexit' & Hcrash') Hstart Hpow Hnz Hsoon.
  rewrite (handleServerCrash_detected w cd exitCode oomKilled Hoff Hen Hexit Hcrash) in *.
  destruct (negb (Timeout w =? 0) && negb (IsZero (lastCrash cd))
            && After (Add (lastCrash cd) (Duration_mul Second (Timeout w))) (NowAtCheck w)).
  { discriminate Hstart. }
  cbn [crash_handler returned fst snd SetLastCrash]. rewrite Hpow. cbn [errors_Wrap].
  split; [reflexivity|].
  rewrite (handleServerCrash_detected w' _ exitCode' oomKilled' Hoff' Hen' Hexit' Hcrash').
  cbn [lastCrash SetLastCrash]. rewrite HTw', (Duration_mul_fits T Hfit).
  unfold After, Add, IsZero.
  replace (T =? 0) with false by (symmetry; apply Z.eqb_neq; lia).
  replace (NowAtRecord w =? 0) with false by (symmetry; apply Z.eqb_neq; exact Hnz).
  replace (NowAtCheck w' <? NowAtRecord w + Second * T) with true
    by (symmetry; apply Z.ltb_lt; lia).
  cbn [negb andb]. repeat split; reflexivity.
Qed.

Lemma failed_start_arms_the_cooldown_witness :
  returned (handleServerCrash (failing_start_at 60 100 (PowerError "no such container"))
              never_crashed)
  = Some (Wrapped (PowerError "no such container")
            "failed to start server after crash detection") /\
  returned (handleServerCrash (crash_at 60 105)
              (crash_handler
                 (handleServerCrash (failing_start_at 60 100 (PowerError "no such container"))
                    never_crashed)))
  = Some crashTooFrequent.
Proof.
  assert (Hdet1 : crash_detected (failing_start_at 60 100 (PowerError "no such container"))).
  { unfold crash_detected. repeat split. exists 137, false. split; reflexivity. }
  assert (Hdet2 : crash_detected (crash_at 60 105)).
  { unfold crash_detected. repeat split. exists 137, false. split; reflexivity. }
  assert (H60 : 0 < 60 /\ fits_Duration 60) by (unfold fits_Duration, Second; lia).
  destruct (failed_start_arms_the_cooldown 60
              (failing_start_at 60 100 (PowerError "no such container")) (crash_at 60 105)
              never_crashed (PowerError "no such container")
              (proj1 H60) (proj2 H60) eq_refl eq_refl Hdet1 Hdet2 eq_refl eq_refl)
    as (H1 & H2 & _).
  - vm_compute. discriminate.
  - vm_compute. reflexivity.
  - split; [exact H1 | exact H2].
Defined.

(** X6. In front of the exit state: a call for a server that is not offline,
    or whose crash detection is disabled, returns nil, keeps [lastCrash] and
    issues no power action.  It tells the console that the automatic restart
    is aborted exactly when detection is disabled (also when the server is
    not offline); with detection enabled it does nothing at all. *)
Theorem detection_guard_is_silent_unless_disabled (w : World) (cd : CrashHandler) :
  EnvironmentState w <> ProcessOfflineState \/ CrashDetectionEnabled w = false ->
  returned (handleServerCrash w cd) = None /\
  crash_handler (handleServerCrash w cd) = cd /\
  List.filter is_power_action (effects (handleServerCrash w cd)) = [] /\
  effects (handleServerCrash w cd)
  = if CrashDetectionEnabled w then []
    else [LogDebug LogDetectionDisabled; PublishConsoleOutputFromDaemon LineDetectionDisabled].
Proof.
  intros Hguard.
  assert (H : negb (ProcessState_eqb (EnvironmentState w) ProcessOfflineState)
              || negb (CrashDetectionEnabled w) = true).
  { destruct Hguard as [Hs | Hd]; [|rewrite Hd; apply orb_true_r].
    destruct (EnvironmentState w); cbn; try reflexivity. contradiction. }
  unfold handleServerCrash. rewrite H.
  destruct (CrashDetectionEnabled w); repeat split; reflexivity.
Qed.

Lemma detection_guard_is_silent_unless_disabled_witness :
  effects (handleServerCrash running_undetected {| lastCrash := 100 * Second |})
  = [LogDebug LogDetectionDisabled; PublishConsoleOutputFromDaemon LineDetectionDisabled] /\
  returned (handleServerCrash running_undetected {| lastCrash := 100 * Second |}) = None.
Proof.
  destruct (detection_guard_is_silent_unless_disabled running_undetected
              {| lastCrash := 100 * Second |}) as (Hret & _ & _ & Heff).
  - left. discriminate.
  - split; [exact Heff | exact Hret].
Defined.

End Crash.

(** * 2. Error codes of the filesystem package

    [filesystem.ErrorCode]: the codes the sources under study mention. *)

Inductive ErrorCode :=
| ErrCodeIsDirectory
| ErrCodeDiskSpace
| ErrCodeUnknownArchive
| ErrCodePathResolution
| ErrCodeDenylistFile
| ErrCodeUnknownError.

Definition ErrorCode_eqb (a b : ErrorCode) : bool :=
  match a, b with
  | ErrCodeIsDirectory, ErrCodeIsDirectory
  | ErrCodeDiskSpace, ErrCodeDiskSpace
  | ErrCodeUnknownArchive, ErrCodeUnknownArchive
  | ErrCodePathResolution, ErrCodePathResolution
  | ErrCodeDenylistFile, ErrCodeDenylistFile
  | ErrCodeUnknownError, ErrCodeUnknownError => true
  | _, _ => false
  end.

(** ** Go's [strings] predicates on byte strings. *)
Module Strings.

Definition HasPrefix (s p : string) : bool := String.prefix p s.

Fixpoint Contains (s sub : string) : bool :=
  String.prefix sub s ||
  match s with
  | EmptyString => false
  | String _ s' => Contains s' sub
  end.

Definition HasSuffix (s suffix : string) : bool :=
  (String.length suffix <=? String.length s)%nat &&
  String.eqb
    (String.substring (String.length s - String.length suffix) (String.length suffix) s)
    suffix.

Definition TrimPrefix (s p : string) : string :=
  if HasPrefix s p
  then String.substring (String.length p) (String.length s - String.length p) s
  else s.

Definition TrimSuffix (s suffix : string) : string :=
  if HasSuffix s suffix
  then String.substring 0 (String.length s - String.length suffix) s
  else s.

(** [strings.ReplaceAll(s, ":", "")]. *)
Fixpoint RemoveColons (s : string) : string :=
  match s with
  | EmptyString => EmptyString
  | String c s' => if Ascii.eqb c ":" then RemoveColons s' else String c (RemoveColons s')
  end.

End Strings.

(** * 3. HTTP error translation ([router/error.go]) *)

Module Router.
Local Open Scope Z_scope.
Local Open Scope string_scope.

Import Strings.

(** [net/http] status codes. *)
Definition StatusOK : Z := 200.
Definition StatusBadRequest : Z := 400.
Definition StatusForbidden : Z := 403.
Definition StatusNotFound : Z := 404.
Definition StatusInternalServerError : Z := 500.

(** A Go [error] value, as the translator can observe it. *)
Record GoError := {
  fs_code : option ErrorCode;    (* code of the filesystem.Error in its chain, if any *)
  Error_text : string;           (* err.Error() *)
  Is_ErrNotExist : bool;         (* errors.Is(err, os.ErrNotExist) *)
  SyscallError : option string   (* Syscall of the os.SyscallError, when err is one *)
}.

(** Modelled from the spec: [filesystem.IsErrorCode], whose source is not
    among the files; "all errors are tagged with a stable kind", and the test
    compares that tag. *)
Definition IsErrorCode (err : GoError) (code : ErrorCode) : bool :=
  match fs_code err with
  | Some c => ErrorCode_eqb c code
  | None => false
  end.

Record RequestError := {
  err : GoError;
  uuid : string;
  message : string;
  server : option string          (* the server whose logger is used, if attached *)
}.

Definition SetMessage (e : RequestError) (msg : string) : RequestError :=
  {| err := err e; uuid := uuid e; message := msg; server := server e |}.

Inductive Level := ErrorLevel | DebugLevel.

(** One entry written through [e.logger()]: it always carries the fields
    [error_id] and [error]. *)
Record LogEntry := {
  log_level : Level;
  log_server : option string;
  log_error_id : string;
  log_error : GoError;
  log_message : string
}.

(** [gin.Context], reduced to its response writer [c.Writer]: the status
    the writer holds ([c.Writer.Status()], 200 until one is set) and whether
    the header has already gone out ([c.Writer.Written()]). *)
Record Context := { Writer_Status : Z; Writer_Written : bool }.

(** gin's [responseWriter.WriteHeader(code)]: the writer takes the code,
    unless the header is already written; then the status stays what it is
    and gin prints its warning "Headers were already written. Wanted to
    override status code ...".  The writer after the call, and whether the
    warning was printed. *)
Definition WriteHeader (c : Context) (code : Z) : Context * bool :=
  if (0 <? code)%Z && negb (Writer_Status c =? code)%Z then
    if Writer_Written c then (c, true)
    else ({| Writer_Status := code; Writer_Written := false |}, false)
  else (c, false).

(** gin's [bodyAllowedForStatus]. *)
Definition bodyAllowedForStatus (status : Z) : bool :=
  negb ((100 <=? status)%Z && (status <=? 199)%Z)
  && negb (status =? 204)%Z && negb (status =? 304)%Z.

(** What a call [c.AbortWithStatusJSON(code, gin.H{...})] comes to: the code
    and the two keys of the body handed to gin, whether gin renders the body,
    the status line the client gets (the writer's status when the header goes
    out, or the one that went out before), and whether gin printed its
    warning. *)
Record Response := {
  status_code : Z;
  body_error : string;
  body_error_id : option string;
  body_rendered : bool;
  status_sent : Z;
  gin_warning : bool
}.

Definition AbortWithStatusJSON (c : Context) (code : Z) (error : string)
    (error_id : option string) : Response :=
  {| status_code := code; body_error := error; body_error_id := error_id;
     body_rendered := bodyAllowedForStatus code;
     status_sent := Writer_Status (fst (WriteHeader c code));
     gin_warning := snd (WriteHeader c code) |}.

Definition msg_not_found : string := "在系统上找不到请求的资源。".
Definition msg_bad_escape : string := "请求中提供的某些数据似乎未正确转义。".
Definition msg_denylist : string := "此文件无法修改：出现在预设拒绝名单中。".
Definition msg_is_directory : string := "无法执行该操作：文件是目录。".
Definition msg_disk_space : string := "无法执行该操作：可用的存储空间不足。".
Definition msg_name_too_long : string := "无法执行该操作：文件名太长。".
Definition msg_no_directory : string := "请求的目录不存在。".
Definition msg_unexpected : string := "处理此请求时遇到意外错误。".

Definition getAsFilesystemError (e : RequestError) : Z * string :=
  if IsErrorCode (err e) ErrCodeDenylistFile
     || Contains (Error_text (err e)) "filesystem: file access prohibited"
  then (StatusForbidden, msg_denylist)
  else if IsErrorCode (err e) ErrCodePathResolution
          || Contains (Error_text (err e)) "resolves to a location outside the server root"
  then (StatusNotFound, msg_not_found)
  else if IsErrorCode (err e) ErrCodeIsDirectory
          || Contains (Error_text (err e)) "filesystem: is a directory"
  then (StatusBadRequest, msg_is_directory)
  else if IsErrorCode (err e) ErrCodeDiskSpace
          || Contains (Error_text (err e)) "filesystem: not enough disk space"
  then (StatusBadRequest, msg_disk_space)
  else if HasSuffix (Error_text (err e)) "file name too long"
  then (StatusBadRequest, msg_name_too_long)
  else match SyscallError (err e) with
       | Some "readdirent" => (StatusNotFound, msg_no_directory)
       | _ => (0, "")
       end.

Definition logger (e : RequestError) (lvl : Level) (msg : string) : LogEntry :=
  {| log_level := lvl; log_server := server e; log_error_id := uuid e;
     log_error := err e; log_message := msg |}.

(** [AbortWithStatus]: the request error as it is left ([message] may be
    filled in), the log entries written, and the response. *)
Definition AbortWithStatus (status : Z) (c : Context) (e : RequestError)
  : RequestError * list LogEntry * Response :=
  let status := if negb (Writer_Status c =? 200)%Z then Writer_Status c else status in
  if Is_ErrNotExist (err e) then
    (e, [], AbortWithStatusJSON c StatusNotFound msg_not_found None)
  else if HasPrefix (Error_text (err e)) "invalid URL escape" then
    (e, [], AbortWithStatusJSON c StatusBadRequest msg_bad_escape None)
  else
    let '(st, msg) := getAsFilesystemError e in
    if negb (st =? 0)%Z then
      (e, [], AbortWithStatusJSON c st msg None)
    else
      let logs :=
        if (500 <=? status)%Z
        then [logger e ErrorLevel "unexpected error while handling HTTP request"]
        else [logger e DebugLevel "non-server error encountered while handling HTTP request"] in
      let e' := if String.eqb (message e) "" then SetMessage e msg_unexpected else e in
      (e', logs, AbortWithStatusJSON c status (message e') (Some (uuid e))).

Definition Abort (c : Context) (e : RequestError) :=
  AbortWithStatus StatusInternalServerError c e.

Definition response (r : RequestError * list LogEntry * Response) : Response := snd r.
Definition logged (r : RequestError * list LogEntry * Response) : list LogEntry := snd (fst r).

(** The status the specification's table gives a filesystem error kind. *)
Definition table_status (code : ErrorCode) : Z :=
  match code with
  | ErrCodeDenylistFile => 403
  | ErrCodePathResolution => 404
  | ErrCodeIsDirectory => 400
  | ErrCodeDiskSpace => 400
  | _ => 500
  end.

(** An error some rule in front of the filesystem table already answers. *)
Definition answered_before_table (e : RequestError) : bool :=
  Is_ErrNotExist (err e) || HasPrefix (Error_text (err e)) "invalid URL escape".

(** An error one of the three early returns answers. *)
Definition answered_by_rule (e : RequestError) : bool :=
  answered_before_table e || negb (fst (getAsFilesystemError e) =? 0)%Z.

(** The message texts that make a row of the table fire whatever the error's
    code is. *)
Definition reads_as_denylist (e : RequestError) : bool :=
  Contains (Error_text (err e)) "filesystem: file access prohibited".
Definition reads_as_path_resolution (e : RequestError) : bool :=
  Contains (Error_text (err e)) "resolves to a location outside the server root".
Definition reads_as_is_directory (e : RequestError) : bool :=
  Contains (Error_text (err e)) "filesystem: is a directory".
Definition reads_as_disk_space (e : RequestError) : bool :=
  Contains (Error_text (err e)) "filesystem: not enough disk space".

(** Sample errors. *)
Definition fs_error (code : ErrorCode) (text : string) : GoError :=
  {| fs_code := Some code; Error_text := text; Is_ErrNotExist := false; SyscallError := None |}.
Definition plain_error (text : string) : GoError :=
  {| fs_code := None; Error_text := text; Is_ErrNotExist := false; SyscallError := None |}.
Definition not_exist_error (text : string) : GoError :=
  {| fs_code := None; Error_text := text; Is_ErrNotExist := true; SyscallError := None |}.
Definition tracked (err0 : GoError) : RequestError :=
  {| err := err0; uuid := "5f0c5a3e-0000-4000-8000-000000000001"; message := ""; server := None |}.

(** Sample requests: one whose response nothing has touched, one whose
    status a handler has set without writing the header, and one whose
    header is out. *)
Definition untouched : Context := {| Writer_Status := 200; Writer_Written := false |}.
Definition pending (status : Z) : Context :=
  {| Writer_Status := status; Writer_Written := false |}.
Definition committed (status : Z) : Context :=
  {| Writer_Status := status; Writer_Written := true |}.

(** [NewTrackedError] and [NewServerError]; [random] is the string of the
    UUID drawn by [uuid.NewRandom]. *)
Definition NewTrackedError (random : string) (err0 : GoError) : RequestError :=
  {| err := err0; uuid := random; message := ""; server := None |}.

Definition NewServerError (random : string) (err0 : GoError) (s : string) : RequestError :=
  {| err := err0; uuid := random; message := ""; server := Some s |}.

Definition AbortFilesystemError (c : Context) (e : RequestError) := Abort c e.

(** The request error as a call leaves it. *)
Definition left_as (r : RequestError * list LogEntry * Response) : RequestError := fst (fst r).

(** ** Properties *)

Ltac table_row :=
  unfold getAsFilesystemError, reads_as_denylist, reads_as_path_resolution,
    reads_as_is_directory, reads_as_disk_space in *;
  repeat match goal with
         | H : IsErrorCode _ _ = _ |- _ => rewrite H
         | H : Contains _ _ = _ |- _ => rewrite H
         | H : HasSuffix _ _ = _ |- _ => rewrite H
         end;
  rewrite ?orb_true_r; cbn [orb fst].

Lemma IsErrorCode_exclusive (e : GoError) (a b : ErrorCode) :
  IsErrorCode e a = true -> ErrorCode_eqb a b = false -> IsErrorCode e b = false.
Proof.
  unfold IsErrorCode. destruct (fs_code e) as [c|]; [|discriminate].
  destruct c, a; cbn; try discriminate; destruct b; cbn; congruence.
Qed.

(** The table answers with 400, 403 or 404, or not at all. *)
Lemma getAsFilesystemError_range (e : RequestError) :
  fst (getAsFilesystemError e) = 0 \/ fst (getAsFilesystemError e) = 400 \/
  fst (getAsFilesystemError e) = 403 \/ fst (getAsFilesystemError e) = 404.
Proof.
  unfold getAsFilesystemError.
  repeat match goal with
         | |- context [if ?b then _ else _] => destruct b
         end; cbn; auto.
  destruct (SyscallError (err e)) as [sc|]; [|cbn; auto].
  repeat match goal with
         | |- context [match ?x with _ => _ end] => destruct x
         end; cbn; auto.
Qed.

(** What goes out when no header was written before: the code handed to gin,
    when it is one. *)
Lemma AbortWithStatusJSON_unwritten (c : Context) (code : Z) (error : string)
    (error_id : option string) :
  Writer_Written c = false -> 0 < code ->
  status_sent (AbortWithStatusJSON c code error error_id) = code /\
  gin_warning (AbortWithStatusJSON c code error error_id) = false.
Proof.
  intros Hw Hcode. unfold AbortWithStatusJSON, WriteHeader. cbn [status_sent gin_warning].
  replace (0 <? code)%Z with true by (symmetry; apply Z.ltb_lt; exact Hcode).
  rewrite Hw. cbn [andb].
  destruct (Writer_Status c =? code)%Z eqn:E; cbn [negb fst snd Writer_Status].
  - apply Z.eqb_eq in E. split; [exact E | reflexivity].
  - split; reflexivity.
Qed.

(** The response to an error that none of the early returns answers. *)
Lemma AbortWithStatus_unanswered (status : Z) (c : Context) (e : RequestError) :
  answered_by_rule e = false ->
  AbortWithStatus status c e
  = let status := if (Writer_Status c =? 200)%Z then status else Writer_Status c in
    let e' := if String.eqb (message e) "" then SetMessage e msg_unexpected else e in
    (e',
     [logger e (if (500 <=? status)%Z then ErrorLevel else DebugLevel)
        (if (500 <=? status)%Z
         then "unexpected error while handling HTTP request"
         else "non-server error encountered while handling HTTP request")],
     AbortWithStatusJSON c status (message e') (Some (uuid e))).
Proof.
  unfold answered_by_rule, answered_before_table. intros H.
  apply orb_false_iff in H as [H Hst]. apply orb_false_iff in H as [Hne Hesc].
  apply negb_false_iff in Hst.
  unfold AbortWithStatus. rewrite Hne, Hesc.
  destruct (getAsFilesystemError e) as [st msg]. cbn [fst] in Hst. rewrite Hst. cbn [negb].
  destruct (Writer_Status c =? 200)%Z; cbn [negb];
    match goal with |- context [(500 <=? ?s)%Z] => destruct (500 <=? s)%Z end; reflexivity.
Qed.

(** The response to an error that one of the early returns answers: the
    rule's status and text go to gin, nothing is logged, and the request
    error is left as it was. *)
Lemma AbortWithStatus_answered (status : Z) (c : Context) (e : RequestError) :
  answered_by_rule e = true ->
  exists (st : Z) (msg : string),
    (st = 400 \/ st = 403 \/ st = 404) /\
    AbortWithStatus status c e = (e, [], AbortWithStatusJSON c st msg None).
Proof.
  unfold answered_by_rule, answered_before_table, AbortWithStatus. intros H.
  destruct (Is_ErrNotExist (err e)); [exists 404, msg_not_found; auto|].
  destruct (HasPrefix (Error_text (err e)) "invalid URL escape");
    [exists 400, msg_bad_escape; auto|].
  cbn [orb] in H. apply negb_true_iff in H.
  pose proof (getAsFilesystemError_range e) as Hrange.
  destruct (getAsFilesystemError e) as [st msg]. cbn [fst] in *. rewrite H. cbn [negb].
  exists st, msg. split; [|reflexivity].
  apply Z.eqb_neq in H. destruct Hrange as [?|[?|[?|?]]]; auto. contradiction.
Qed.

(** C6, as the code has it.  The filesystem table answers in the order
    denylist, path resolution, is-a-directory, disk space, name too long, each
    of the first four rows by the error's code or by a text in its message.
    By code: a denylist error gets 403; a path-resolution error gets 404
    unless its message reads as a denylist error; is-a-directory and
    disk-space errors and messages ending in "file name too long" get 400
    unless an earlier row fires.  By text alone, whatever the code: a message
    holding the denylist text gets 403; one holding the path-resolution text
    gets 404, one holding the is-a-directory or the disk-space text gets 400,
    unless an earlier row fires.  Nothing else gets 403, and the table gives
    no status other than 400, 403 and 404.  The table is consulted only for
    errors that are neither [os.ErrNotExist] (answered 404) nor an invalid URL
    escape (answered 400); on a response nothing has touched, the status of
    the rule that answers is the status sent, and gin prints no warning.
    Every response that goes out with status 500 or above, on a
    request whose response nothing has touched or for an error that no rule
    answers, carries the request error's uuid as [error_id] in a body that is
    rendered, and an entry with that uuid is logged at error level. *)
Theorem filesystem_error_statuses (e : RequestError) :
  (IsErrorCode (err e) ErrCodeDenylistFile = true ->
   fst (getAsFilesystemError e) = table_status ErrCodeDenylistFile) /\
  (IsErrorCode (err e) ErrCodePathResolution = true ->
   reads_as_denylist e = false ->
   fst (getAsFilesystemError e) = table_status ErrCodePathResolution) /\
  (IsErrorCode (err e) ErrCodeIsDirectory = true ->
   reads_as_denylist e = false -> reads_as_path_resolution e = false ->
   fst (getAsFilesystemError e) = table_status ErrCodeIsDirectory) /\
  (IsErrorCode (err e) ErrCodeDiskSpace = true ->
   reads_as_denylist e = false -> reads_as_path_resolution e = false ->
   fst (getAsFilesystemError e) = table_status ErrCodeDiskSpace) /\
  (HasSuffix (Error_text (err e)) "file name too long" = true ->
   IsErrorCode (err e) ErrCodeDenylistFile = false ->
   IsErrorCode (err e) ErrCodePathResolution = false ->
   reads_as_denylist e = false -> reads_as_path_resolution e = false ->
   fst (getAsFilesystemError e) = 400) /\
  (reads_as_denylist e = true -> fst (getAsFilesystemError e) = 403) /\
  (reads_as_path_resolution e = true ->
   IsErrorCode (err e) ErrCodeDenylistFile = false -> reads_as_denylist e = false ->
   fst (getAsFilesystemError e) = 404) /\
  (reads_as_is_directory e = true ->
   IsErrorCode (err e) ErrCodeDenylistFile = false -> reads_as_denylist e = false ->
   IsErrorCode (err e) ErrCodePathResolution = false -> reads_as_path_resolution e = false ->
   fst (getAsFilesystemError e) = 400) /\
  (reads_as_disk_space e = true ->
   IsErrorCode (err e) ErrCodeDenylistFile = false -> reads_as_denylist e = false ->
   IsErrorCode (err e) ErrCodePathResolution = false -> reads_as_path_resolution e = false ->
   fst (getAsFilesystemError e) = 400) /\
  (fst (getAsFilesystemError e) = 403 ->
   IsErrorCode (err e) ErrCodeDenylistFile = true \/ reads_as_denylist e = true) /\
  (fst (getAsFilesystemError e) = 0 \/ fst (getAsFilesystemError e) = 400 \/
   fst (getAsFilesystemError e) = 403 \/ fst (getAsFilesystemError e) = 404) /\
  (forall status : Z,
     Is_ErrNotExist (err e) = true ->
     status_sent (response (AbortWithStatus status untouched e)) = 404) /\
  (forall status : Z,
     Is_ErrNotExist (err e) = false ->
     HasPrefix (Error_text (err e)) "invalid URL escape" = true ->
     status_sent (response (AbortWithStatus status untouched e)) = 400) /\
  (forall status : Z,
     answered_before_table e = false ->
     fst (getAsFilesystemError e) <> 0 ->
     status_sent (response (AbortWithStatus status untouched e))
     = fst (getAsFilesystemError e)) /\
  (forall status : Z,
     answered_by_rule e = true ->
     status_sent (response (AbortWithStatus status untouched e))
     = status_code (response (AbortWithStatus status untouched e)) /\
     gin_warning (response (AbortWithStatus status untouched e)) = false) /\
  (forall (status : Z) (c : Context),
     c = untouched \/ answered_by_rule e = false ->
     500 <= status_sent (response (AbortWithStatus status c e)) ->
     body_error_id (response (AbortWithStatus status c e)) = Some (uuid e) /\
     body_rendered (response (AbortWithStatus status c e)) = true /\
     In (logger e ErrorLevel "unexpected error while handling HTTP request")
        (logged (AbortWithStatus status c e))).
Proof.
  repeat apply conj.
  - intros H. table_row. reflexivity.
  - intros H Hd.
    pose proof (IsErrorCode_exclusive _ _ ErrCodeDenylistFile H eq_refl) as H1.
    table_row. reflexivity.
  - intros H Hd Hp.
    pose proof (IsErrorCode_exclusive _ _ ErrCodeDenylistFile H eq_refl) as H1.
    pose proof (IsErrorCode_exclusive _ _ ErrCodePathResolution H eq_refl) as H2.
    table_row. reflexivity.
  - intros H Hd Hp.
    pose proof (IsErrorCode_exclusive _ _ ErrCodeDenylistFile H eq_refl) as H1.
    pose proof (IsErrorCode_exclusive _ _ ErrCodePathResolution H eq_refl) as H2.
    pose proof (IsErrorCode_exclusive _ _ ErrCodeIsDirectory H eq_refl) as H3.
    table_row.
    destruct (Contains (Error_text (err e)) "filesystem: is a directory"); reflexivity.
  - intros Hs H1 H2 Hd Hp. table_row.
    destruct (IsErrorCode (err e) ErrCodeIsDirectory
              || Contains (Error_text (err e)) "filesystem: is a directory"); [reflexivity|].
    destruct (IsErrorCode (err e) ErrCodeDiskSpace
              || Contains (Error_text (err e)) "filesystem: not enough disk space");
      reflexivity.
  - intros H. table_row. reflexivity.
  - intros H H1 Hd. table_row. reflexivity.
  - intros H H1 Hd H2 Hp. table_row. reflexivity.
  - intros H H1 Hd H2 Hp. table_row.
    destruct (IsErrorCode (err e) ErrCodeIsDirectory
              || Contains (Error_text (err e)) "filesystem: is a directory"); reflexivity.
  - unfold getAsFilesystemError, reads_as_denylist.
    destruct (IsErrorCode (err e) ErrCodeDenylistFile); [auto|].
    destruct (Contains (Error_text (err e)) "filesystem: file access prohibited"); [auto|].
    cbn [orb].
    repeat match goal with
           | |- context [if ?b then _ else _] => destruct b
           end; cbn; try discriminate.
    destruct (SyscallError (err e)) as [sc|]; [|cbn; discriminate].
    repeat match goal with
           | |- context [match ?x with _ => _ end] => destruct x
           end; cbn; discriminate.
  - apply getAsFilesystemError_range.
  - intros status Hne. unfold AbortWithStatus, response. rewrite Hne. reflexivity.
  - intros status Hne Hesc. unfold AbortWithStatus, response. rewrite Hne, Hesc. reflexivity.
  - intros status Hbefore Hst. unfold answered_before_table in Hbefore.
    apply orb_false_iff in Hbefore as [Hne Hesc].
    unfold AbortWithStatus, response. rewrite Hne. unfold HasPrefix in Hesc. unfold HasPrefix.
    rewrite Hesc.
    pose proof (getAsFilesystemError_range e) as Hrange.
    destruct (getAsFilesystemError e) as [st msg]. cbn [fst] in *.
    destruct (st =? 0)%Z eqn:E; [apply Z.eqb_eq in E; contradiction|].
    cbn [negb snd].
    apply (AbortWithStatusJSON_unwritten untouched st msg None eq_refl). lia.
  - intros status Hrule.
    destruct (AbortWithStatus_answered status untouched e Hrule) as (st & msg & Hst & ->).
    unfold response. cbn [snd].
    destruct (AbortWithStatusJSON_unwritten untouched st msg None eq_refl) as [Hsent Hwarn];
      [lia|].
    rewrite Hsent, Hwarn. split; reflexivity.
  - intros status c Hcase H500.
    destruct (answered_by_rule e) eqn:Hrule.
    + destruct Hcase as [-> | Hcase]; [|discriminate].
      destruct (AbortWithStatus_answered status untouched e Hrule) as (st & msg & Hst & Heq).
      rewrite Heq in H500. unfold response in H500. cbn [snd] in H500.
      destruct (AbortWithStatusJSON_unwritten untouched st msg None eq_refl) as [Hsent _];
        [lia|].
      rewrite Hsent in H500. lia.
    + clear Hcase. rewrite (AbortWithStatus_unanswered status c e Hrule) in *.
      cbv zeta in *. unfold response, logged in *. cbn [fst snd] in *.
      set (s := if (Writer_Status c =? 200)%Z then status else Writer_Status c) in *.
      assert (Hs : 500 <= s).
      { revert H500. unfold AbortWithStatusJSON, WriteHeader. cbn [status_sent].
        destruct ((0 <? s)%Z && negb (Writer_Status c =? s)%Z) eqn:E.
        - destruct (Writer_Written c); cbn [fst Writer_Status]; [|auto].
          apply andb_true_iff in E as [_ E]. apply negb_true_iff, Z.eqb_neq in E.
          subst s. destruct (Writer_Status c =? 200)%Z eqn:E2; [|contradiction].
          apply Z.eqb_eq in E2. lia.
        - cbn [fst]. intros H500.
          apply andb_false_iff in E as [E | E].
          + subst s. destruct (Writer_Status c =? 200)%Z eqn:E2.
            * apply Z.eqb_eq in E2. lia.
            * exact H500.
          + apply negb_false_iff, Z.eqb_eq in E. lia. }
      replace (500 <=? s)%Z with true by (symmetry; apply Z.leb_le; exact Hs).
      cbn [AbortWithStatusJSON body_error_id body_rendered].
      repeat split; [|left; reflexivity].
      unfold bodyAllowedForStatus.
      replace (s <=? 199)%Z with false by (symmetry; apply Z.leb_gt; lia).
      replace (s =? 204)%Z with false by (symmetry; apply Z.eqb_neq; lia).
      replace (s =? 304)%Z with false by (symmetry; apply Z.eqb_neq; lia).
      rewrite andb_false_r. reflexivity.
Qed.

Lemma filesystem_error_statuses_witness :
  fst (getAsFilesystemError (tracked (fs_error ErrCodeDenylistFile "denied"))) = 403 /\
  fst (getAsFilesystemError
         (tracked (fs_error ErrCodePathResolution
                     "filesystem: server path [../x] resolves to a location outside the server root: /x")))
  = 404 /\
  fst (getAsFilesystemError (tracked (fs_error ErrCodeIsDirectory "read /srv/a: is a directory")))
  = 400 /\
  fst (getAsFilesystemError (tracked (fs_error ErrCodeDiskSpace "filesystem: not enough disk space")))
  = 400 /\
  fst (getAsFilesystemError (tracked (plain_error "open /srv/a: file name too long"))) = 400 /\
  fst (getAsFilesystemError
         (tracked (plain_error "upload: filesystem: file access prohibited"))) = 403 /\
  fst (getAsFilesystemError
         (tracked (plain_error "copy: path resolves to a location outside the server root")))
  = 404 /\
  fst (getAsFilesystemError (tracked (plain_error "rename: filesystem: is a directory"))) = 400 /\
  fst (getAsFilesystemError
         (tracked (plain_error "backup: filesystem: not enough disk space"))) = 400 /\
  (IsErrorCode (fs_error ErrCodeDenylistFile "denied") ErrCodeDenylistFile = true \/
   reads_as_denylist (tracked (fs_error ErrCodeDenylistFile "denied")) = true) /\
  status_sent (response (AbortWithStatus 500 untouched
                           (tracked (not_exist_error "stat /srv/a: no such file")))) = 404 /\
  status_sent (response (AbortWithStatus 500 untouched
                           (tracked (plain_error "invalid URL escape %zz")))) = 400 /\
  status_sent (response (AbortWithStatus 500 untouched
                           (tracked (fs_error ErrCodeDenylistFile "denied")))) = 403 /\
  status_sent (response (AbortWithStatus 500 untouched
                           (tracked (fs_error ErrCodeDenylistFile "denied"))))
  = status_code (response (AbortWithStatus 500 untouched
                             (tracked (fs_error ErrCodeDenylistFile "denied")))) /\
  body_error_id (response (AbortWithStatus 500 untouched
                             (tracked (plain_error "docker: daemon unreachable"))))
  = Some "5f0c5a3e-0000-4000-8000-000000000001" /\
  body_error_id (response (AbortWithStatus 400 (committed 503)
                             (tracked (plain_error "docker: daemon unreachable"))))
  = Some "5f0c5a3e-0000-4000-8000-000000000001".
Proof.
  repeat match goal with |- _ /\ _ => split end.
  - apply (proj1 (filesystem_error_statuses (tracked (fs_error ErrCodeDenylistFile "denied")))).
    reflexivity.
  - destruct (filesystem_error_statuses
                (tracked (fs_error ErrCodePathResolution
                            "filesystem: server path [../x] resolves to a location outside the server root: /x")))
      as (_ & Hrow & _).
    apply Hrow; reflexivity.
  - destruct (filesystem_error_statuses
                (tracked (fs_error ErrCodeIsDirectory "read /srv/a: is a directory")))
      as (_ & _ & Hrow & _).
    apply Hrow; reflexivity.
  - destruct (filesystem_error_statuses
                (tracked (fs_error ErrCodeDiskSpace "filesystem: not enough disk space")))
      as (_ & _ & _ & Hrow & _).
    apply Hrow; reflexivity.
  - destruct (filesystem_error_statuses
                (tracked (plain_error "open /srv/a: file name too long")))
      as (_ & _ & _ & _ & Hrow & _).
    apply Hrow; reflexivity.
  - destruct (filesystem_error_statuses
                (tracked (plain_error "upload: filesystem: file access prohibited")))
      as (_ & _ & _ & _ & _ & Hrow & _).
    apply Hrow; reflexivity.
  - destruct (filesystem_error_statuses
                (tracked (plain_error
                            "copy: path resolves to a location outside the server root")))
      as (_ & _ & _ & _ & _ & _ & Hrow & _).
    apply Hrow; reflexivity.
  - destruct (filesystem_error_statuses
                (tracked (plain_error "rename: filesystem: is a directory")))
      as (_ & _ & _ & _ & _ & _ & _ & Hrow & _).
    apply Hrow; reflexivity.
  - destruct (filesystem_error_statuses
                (tracked (plain_error "backup: filesystem: not enough disk space")))
      as (_ & _ & _ & _ & _ & _ & _ & _ & Hrow & _).
    apply Hrow; reflexivity.
  - destruct (filesystem_error_statuses (tracked (fs_error ErrCodeDenylistFile "denied")))
      as (_ & _ & _ & _ & _ & _ & _ & _ & _ & Honly & _).
    apply Honly. reflexivity.
  - destruct (filesystem_error_statuses (tracked (not_exist_error "stat /srv/a: no such file")))
      as (_ & _ & _ & _ & _ & _ & _ & _ & _ & _ & _ & Hnone & _).
    apply (Hnone 500). reflexivity.
  - destruct (filesystem_error_statuses (tracked (plain_error "invalid URL escape %zz")))
      as (_ & _ & _ & _ & _ & _ & _ & _ & _ & _ & _ & _ & Hesc & _).
    apply (Hesc 500); reflexivity.
  - destruct (filesystem_error_statuses (tracked (fs_error ErrCodeDenylistFile "denied")))
      as (_ & _ & _ & _ & _ & _ & _ & _ & _ & _ & _ & _ & _ & Hhanded & _).
    apply (Hhanded 500); [reflexivity | vm_compute; discriminate].
  - destruct (filesystem_error_statuses (tracked (fs_error ErrCodeDenylistFile "denied")))
      as (_ & _ & _ & _ & _ & _ & _ & _ & _ & _ & _ & _ & _ & _ & Hsent & _).
    apply (Hsent 500). reflexivity.
  - destruct (filesystem_error_statuses (tracked (plain_error "docker: daemon unreachable")))
      as (_ & _ & _ & _ & _ & _ & _ & _ & _ & _ & _ & _ & _ & _ & _ & Hid).
    apply (Hid 500 untouched); [left; reflexivity | vm_compute; discriminate].
  - destruct (filesystem_error_statuses (tracked (plain_error "docker: daemon unreachable")))
      as (_ & _ & _ & _ & _ & _ & _ & _ & _ & _ & _ & _ & _ & _ & _ & Hid).
    apply (Hid 400 (committed 503)); [right; reflexivity | vm_compute; discriminate].
Defined.

(** C6 as stated fails for a path-resolution error whose message
    (it quotes the requested path) reads as a denylist error: the first row
    answers 403 where the table has 404.  And a response whose header went
    out with status 500 before a disk-space error is handled stays a 500
    response, with the row's text appended and neither uuid nor log entry. *)
Lemma kind_table_counterexample :
  IsErrorCode
    (fs_error ErrCodePathResolution
       "filesystem: server path [filesystem: file access prohibited] resolves to a location outside the server root: /etc")
    ErrCodePathResolution = true /\
  table_status ErrCodePathResolution = 404 /\
  getAsFilesystemError
    (tracked (fs_error ErrCodePathResolution
       "filesystem: server path [filesystem: file access prohibited] resolves to a location outside the server root: /etc"))
  = (403, msg_denylist) /\
  status_sent (response (Abort (committed 500)
                           (tracked (fs_error ErrCodeDiskSpace
                                       "filesystem: not enough disk space")))) = 500 /\
  body_error_id (response (Abort (committed 500)
                             (tracked (fs_error ErrCodeDiskSpace
                                         "filesystem: not enough disk space")))) = None /\
  logged (Abort (committed 500)
            (tracked (fs_error ErrCodeDiskSpace "filesystem: not enough disk space"))) = [].
Proof. repeat split; reflexivity. Qed.

(** C10 at its failing input.  A disk-space error handled by [Abort] on a
    request whose writer already holds status 409.  Whatever the requested
    status and the writer's state, the disk-space row hands 400 to gin.  With
    the 409 header written, gin keeps 409 and prints its warning, and the
    row's text goes out without uuid; with the 409 set and not yet written,
    the response goes out as 400.  The same holds of the not-exist rule (404)
    and of the URL-escape rule (400).  Only an error that no rule answers is
    sent with the existing status: 409, no warning, the uuid in the body. *)
Theorem rules_override_the_existing_status :
  (forall (status : Z) (c : Context),
     status_code (response (AbortWithStatus status c
                              (tracked (fs_error ErrCodeDiskSpace
                                          "filesystem: not enough disk space")))) = 400) /\
  response (Abort (committed 409)
              (tracked (fs_error ErrCodeDiskSpace "filesystem: not enough disk space")))
  = {| status_code := 400; body_error := msg_disk_space; body_error_id := None;
       body_rendered := true; status_sent := 409; gin_warning := true |} /\
  response (Abort (pending 409)
              (tracked (fs_error ErrCodeDiskSpace "filesystem: not enough disk space")))
  = {| status_code := 400; body_error := msg_disk_space; body_error_id := None;
       body_rendered := true; status_sent := 400; gin_warning := false |} /\
  response (Abort (committed 409) (tracked (not_exist_error "stat /srv/a: no such file")))
  = {| status_code := 404; body_error := msg_not_found; body_error_id := None;
       body_rendered := true; status_sent := 409; gin_warning := true |} /\
  response (Abort (committed 409) (tracked (plain_error "invalid URL escape %zz")))
  = {| status_code := 400; body_error := msg_bad_escape; body_error_id := None;
       body_rendered := true; status_sent := 409; gin_warning := true |} /\
  response (Abort (committed 409) (tracked (plain_error "docker: daemon unreachable")))
  = {| status_code := 409; body_error := msg_unexpected;
       body_error_id := Some "5f0c5a3e-0000-4000-8000-000000000001";
       body_rendered := true; status_sent := 409; gin_warning := false |}.
Proof.
  split; [|repeat split; reflexivity].
  intros status c. reflexivity.
Qed.

(** ** Tracked and untracked errors *)

Lemma answered_by_rule_SetMessage (e : RequestError) (msg : string) :
  answered_by_rule (SetMessage e msg) = answered_by_rule e.
Proof. reflexivity. Qed.

Lemma AbortWithStatus_SetMessage_answered (status : Z) (c : Context) (e : RequestError)
    (msg : string) :
  answered_by_rule e = true ->
  response (AbortWithStatus status c (SetMessage e msg)) = response (AbortWithStatus status c e).
Proof.
  unfold answered_by_rule, answered_before_table, AbortWithStatus, response.
  change (err (SetMessage e msg)) with (err e).
  change (getAsFilesystemError (SetMessage e msg)) with (getAsFilesystemError e).
  destruct (Is_ErrNotExist (err e)); [reflexivity|].
  destruct (HasPrefix (Error_text (err e)) "invalid URL escape"); [reflexivity|].
  cbn [orb]. destruct (getAsFilesystemError e) as [st text]. cbn [fst].
  intros H. rewrite H. reflexivity.
Qed.

(** X7. An error that a rule answers (it does not exist, it is an invalid
    URL escape, or a row of the filesystem table fires) is not tracked:
    nothing is logged, the body carries no [error_id], the request error is
    left as it was, and the status the caller asked for plays no part in the
    response. *)
Theorem answered_errors_are_not_tracked (e : RequestError) (status : Z) (c : Context) :
  answered_by_rule e = true ->
  logged (AbortWithStatus status c e) = [] /\
  body_error_id (response (AbortWithStatus status c e)) = None /\
  left_as (AbortWithStatus status c e) = e /\
  (forall status' : Z,
     response (AbortWithStatus status' c e) = response (AbortWithStatus status c e)).
Proof.
  intros H. unfold answered_by_rule, answered_before_table in H.
  unfold AbortWithStatus, logged, response, left_as.
  destruct (Is_ErrNotExist (err e)); [repeat split|].
  destruct (HasPrefix (Error_text (err e)) "invalid URL escape"); [repeat split|].
  cbn [orb] in H. destruct (getAsFilesystemError e) as [st msg]. cbn [fst] in H.
  rewrite H. repeat split.
Qed.

Lemma answered_errors_are_not_tracked_witness :
  logged (AbortWithStatus 500 untouched
            (tracked (fs_error ErrCodeDiskSpace "filesystem: not enough disk space"))) = [] /\
  body_error_id (response (AbortWithStatus 500 untouched
            (tracked (fs_error ErrCodeDiskSpace "filesystem: not enough disk space")))) = None.
Proof.
  destruct (answered_errors_are_not_tracked
              (tracked (fs_error ErrCodeDiskSpace "filesystem: not enough disk space"))
              500 untouched eq_refl) as (Hlog & Hid & _).
  split; [exact Hlog | exact Hid].
Defined.

(** X8. An error no rule answers is tracked.  It is logged exactly once, with
    the request error's uuid, error and server: at error level when the status
    handed to gin is 500 or above and at debug level below; that status is the
    writer's when the writer's is not 200, and the requested one otherwise.
    The body carries the uuid as [error_id] at every status, and as [error]
    the message set on the request error, or the fixed text when none is set;
    the fixed text is then left on the request error as its message, and
    nothing else of it is changed. *)
Theorem unanswered_errors_are_logged_once (e : RequestError) (status : Z) (c : Context) :
  answered_by_rule e = false ->
  (exists entry : LogEntry,
     logged (AbortWithStatus status c e) = [entry] /\
     log_error_id entry = uuid e /\ log_error entry = err e /\ log_server entry = server e /\
     log_level entry
     = if (500 <=? status_code (response (AbortWithStatus status c e)))%Z
       then ErrorLevel else DebugLevel) /\
  status_code (response (AbortWithStatus status c e))
  = (if (Writer_Status c =? 200)%Z then status else Writer_Status c) /\
  body_error_id (response (AbortWithStatus status c e)) = Some (uuid e) /\
  body_error (response (AbortWithStatus status c e))
  = (if String.eqb (message e) "" then msg_unexpected else message e) /\
  left_as (AbortWithStatus status c e)
  = (if String.eqb (message e) "" then SetMessage e msg_unexpected else e).
Proof.
  intros H. rewrite (AbortWithStatus_unanswered status c e H). cbv zeta.
  unfold logged, response, left_as.
  cbn [fst snd AbortWithStatusJSON status_code body_error body_error_id].
  split; [|split; [reflexivity|split; [reflexivity|split; [|reflexivity]]]].
  - eexists. split; [reflexivity|]. cbn [logger log_error_id log_error log_server log_level].
    repeat split.
  - destruct (String.eqb (message e) ""); reflexivity.
Qed.

Lemma unanswered_errors_are_logged_once_witness :
  logged (AbortWithStatus 409 untouched
            (NewServerError "u-1" (plain_error "server is busy") "srv-1"))
  = [{| log_level := DebugLevel; log_server := Some "srv-1"; log_error_id := "u-1";
        log_error := plain_error "server is busy";
        log_message := "non-server error encountered while handling HTTP request" |}] /\
  body_error_id (response (AbortWithStatus 409 untouched
                             (NewServerError "u-1" (plain_error "server is busy") "srv-1")))
  = Some "u-1".
Proof.
  split; [reflexivity|].
  apply (unanswered_errors_are_logged_once
           (NewServerError "u-1" (plain_error "server is busy") "srv-1") 409 untouched).
  reflexivity.
Defined.

(** X9. The message set with [SetMessage] reaches the client only when no
    rule answers the error: an answered error gets the rule's fixed text and
    the same response as without the message, an unanswered one gets the
    message (when it is not empty) as the body's [error], and the request
    error keeps it. *)
Theorem SetMessage_shows_only_on_unanswered (e : RequestError) (msg : string)
    (status : Z) (c : Context) :
  (answered_by_rule e = true ->
   response (AbortWithStatus status c (SetMessage e msg))
   = response (AbortWithStatus status c e)) /\
  (answered_by_rule e = false -> msg <> "" ->
   body_error (response (AbortWithStatus status c (SetMessage e msg))) = msg /\
   left_as (AbortWithStatus status c (SetMessage e msg)) = SetMessage e msg).
Proof.
  split.
  - apply AbortWithStatus_SetMessage_answered.
  - intros H Hmsg.
    rewrite (AbortWithStatus_unanswered status c (SetMessage e msg))
      by (rewrite answered_by_rule_SetMessage; exact H).
    cbv zeta. unfold response, left_as.
    cbn [fst snd AbortWithStatusJSON body_error SetMessage message].
    destruct (String.eqb msg "") eqn:E; [apply String.eqb_eq in E; contradiction|].
    split; reflexivity.
Qed.

Lemma SetMessage_shows_only_on_unanswered_witness :
  body_error (response (AbortWithStatus 500 untouched
                          (SetMessage (tracked (fs_error ErrCodeIsDirectory "is a directory"))
                             "could not read the file")))
  = msg_is_directory /\
  body_error (response (AbortWithStatus 500 untouched
                          (SetMessage (tracked (plain_error "docker: daemon unreachable"))
                             "could not read the file")))
  = "could not read the file".
Proof.
  split.
  - rewrite (proj1 (SetMessage_shows_only_on_unanswered
                      (tracked (fs_error ErrCodeIsDirectory "is a directory"))
                      "could not read the file" 500 untouched) eq_refl).
    reflexivity.
  - apply (proj2 (SetMessage_shows_only_on_unanswered
                    (tracked (plain_error "docker: daemon unreachable"))
                    "could not read the file" 500 untouched) eq_refl).
    discriminate.
Defined.

(** X10. On a request whose response nothing has touched, [Abort] (and
    [AbortFilesystemError], which is [Abort]) of a newly tracked error sends
    400, 403, 404 or 500, without a warning from gin, and 500 exactly when no
    rule answers the error; the 500 body then holds the fixed text and the
    new uuid. *)
Theorem Abort_answers_four_statuses (random : string) (err0 : GoError) :
  AbortFilesystemError untouched (NewTrackedError random err0)
  = Abort untouched (NewTrackedError random err0) /\
  In (status_sent (response (Abort untouched (NewTrackedError random err0))))
     [400; 403; 404; 500]%Z /\
  gin_warning (response (Abort untouched (NewTrackedError random err0))) = false /\
  (status_sent (response (Abort untouched (NewTrackedError random err0))) = 500%Z <->
   answered_by_rule (NewTrackedError random err0) = false) /\
  (answered_by_rule (NewTrackedError random err0) = false ->
   response (Abort untouched (NewTrackedError random err0))
   = {| status_code := 500; body_error := msg_unexpected; body_error_id := Some random;
        body_rendered := true; status_sent := 500; gin_warning := false |}).
Proof.
  split; [reflexivity|]. unfold Abort.
  destruct (answered_by_rule (NewTrackedError random err0)) eqn:H.
  - destruct (AbortWithStatus_answered StatusInternalServerError untouched _ H)
      as (st & msg & Hst & ->).
    unfold response. cbn [snd].
    destruct (AbortWithStatusJSON_unwritten untouched st msg None eq_refl) as [Hsent Hwarn];
      [lia|].
    rewrite Hsent, Hwarn.
    split; [cbn; lia|]. split; [reflexivity|].
    split; [split; [lia | discriminate] | discriminate].
  - rewrite (AbortWithStatus_unanswered StatusInternalServerError untouched _ H).
    cbv zeta. unfold response. cbn.
    split; [auto 6|]. split; [reflexivity|].
    split; [split; reflexivity | reflexivity].
Qed.

Lemma Abort_answers_four_statuses_witness :
  response (Abort untouched (NewTrackedError "u-2" (plain_error "docker: daemon unreachable")))
  = {| status_code := 500; body_error := msg_unexpected; body_error_id := Some "u-2";
       body_rendered := true; status_sent := 500; gin_warning := false |}.
Proof.
  apply (proj2 (proj2 (proj2 (proj2 (Abort_answers_four_statuses
                                       "u-2" (plain_error "docker: daemon unreachable")))))).
  reflexivity.
Defined.


End Router.

(** * 4. Paths ([path/filepath] on a Unix host) *)

Module GoPath.
Local Open Scope string_scope.

(** The elements between slashes; ["a//b"] has the empty element in the middle. *)
Fixpoint elements (s : string) : list string :=
  match s with
  | EmptyString => [EmptyString]
  | String c s' =>
    if Ascii.eqb c "/" then EmptyString :: elements s'
    else match elements s' with
         | [] => [String c EmptyString]
         | e :: es => String c e :: es
         end
  end.

Definition IsAbs (p : string) : bool :=
  match p with
  | String c _ => Ascii.eqb c "/"
  | EmptyString => false
  end.

(** The pass of [Clean] over the elements; [out] is the output so far, last
    element first.  An empty element and ["."] are dropped; [".."] removes the
    element in front of it, is dropped at the top of a rooted path, and is
    kept at the front of a relative one. *)
Fixpoint clean_elements (rooted : bool) (out : list string) (els : list string)
  : list string :=
  match els with
  | [] => List.rev out
  | e :: els' =>
    if String.eqb e "" || String.eqb e "." then clean_elements rooted out els'
    else if String.eqb e ".." then
      match out with
      | top :: below =>
        if String.eqb top ".." then clean_elements rooted (e :: out) els'
        else clean_elements rooted below els'
      | [] =>
        if rooted then clean_elements rooted [] els'
        else clean_elements rooted [e] els'
      end
    else clean_elements rooted (e :: out) els'
  end.

Definition Clean (p : string) : string :=
  if String.eqb p "" then "."
  else
    let body := String.concat "/" (clean_elements (IsAbs p) [] (elements p)) in
    let out := if IsAbs p then "/" ++ body else body in
    if String.eqb out "" then "." else out.

(** [filepath.Join]: empty leading elements are skipped, the rest is joined
    with slashes and cleaned.  [path.Join] gives the same result. *)
Fixpoint Join (elem : list string) : string :=
  match elem with
  | [] => ""
  | e :: rest => if String.eqb e "" then Join rest else Clean (String.concat "/" elem)
  end.

(** [filepath.Base]. *)
Definition Base (p : string) : string :=
  if String.eqb p "" then "."
  else match List.rev (List.filter (fun e => negb (String.eqb e "")) (elements p)) with
       | [] => "/"
       | e :: _ => e
       end.

(** [p] is [dir] itself or lies below it. *)
Definition within (dir p : string) : bool :=
  String.eqb p dir ||
  String.prefix (if Strings.HasSuffix dir "/" then dir else dir ++ "/") p.

Example Clean_samples :
  Clean "a//b/./c/.." = "a/b" /\ Clean "/../a" = "/a" /\ Clean "../../a" = "../../a" /\
  Clean "a/../.." = ".." /\ Clean "/" = "/" /\ Clean "a/.." = "." /\ Clean "" = ".".
Proof. repeat split; reflexivity. Qed.

Example Join_samples :
  Join ["sub"; "../evil"] = "evil" /\ Join ["/"; "../evil"] = "/evil" /\
  Join [""; "../evil"] = "../evil" /\ Join ["/srv"; "../evil"] = "/evil" /\
  Join ["a"; ""] = "a" /\ Join [""; ""] = "".
Proof. repeat split; reflexivity. Qed.

Example Base_samples :
  Base "/a/b.tar.gz" = "b.tar.gz" /\ Base "a/" = "a" /\ Base "///" = "/" /\ Base "" = ".".
Proof. repeat split; reflexivity. Qed.

Example within_samples :
  within "/srv" "/srv/a" = true /\ within "/srv" "/srv" = true /\
  within "/srv" "/srvx/a" = false /\ within "/srv/sub" "/srv/evil" = false.
Proof. repeat split; reflexivity. Qed.

End GoPath.

(** * 5. Text encodings: [unicode/utf8] and the GBK decoder of
    [golang.org/x/text/encoding/simplifiedchinese] *)

Module Encoding.
Local Open Scope Z_scope.

(** Go strings are byte sequences. *)
Definition bytes_of (s : string) : list Z :=
  List.map (fun c => Z.of_N (N_of_ascii c)) (list_ascii_of_string s).

Definition string_of (bs : list Z) : string :=
  string_of_list_ascii (List.map (fun b => ascii_of_N (Z.to_N b)) bs).

Definition RuneError : Z := 65533.   (* U+FFFD *)
Definition MaxRune : Z := 1114111.   (* U+10FFFF *)

(** [utf8.EncodeRune], on the rune read as a [uint32]. *)
Definition EncodeRune (r : Z) : list Z :=
  let i := r mod 2 ^ 32 in
  let three (r : Z) :=
    [Z.lor 224 (Z.shiftr r 12);
     Z.lor 128 (Z.land (Z.shiftr r 6) 63);
     Z.lor 128 (Z.land r 63)] in
  if i <=? 127 then [i]
  else if i <=? 2047 then [Z.lor 192 (Z.shiftr i 6); Z.lor 128 (Z.land i 63)]
  else if (MaxRune <? i) || ((55296 <=? i) && (i <=? 57343)) then three RuneError
  else if i <=? 65535 then three i
  else [Z.lor 240 (Z.shiftr i 18);
        Z.lor 128 (Z.land (Z.shiftr i 12) 63);
        Z.lor 128 (Z.land (Z.shiftr i 6) 63);
        Z.lor 128 (Z.land i 63)].

(** [utf8.Valid]: [need] continuation bytes are still due, the next of them
    within [[lo, hi]] (the accept range its lead byte selects). *)
Fixpoint valid_from (need : nat) (lo hi : Z) (bs : list Z) : bool :=
  match bs with
  | [] => match need with O => true | S _ => false end
  | b :: bs' =>
    match need with
    | S n => (lo <=? b) && (b <=? hi) && valid_from n 128 191 bs'
    | O =>
      if b <? 128 then valid_from 0 128 191 bs'
      else if (194 <=? b) && (b <=? 223) then valid_from 1 128 191 bs'
      else if b =? 224 then valid_from 2 160 191 bs'
      else if b =? 237 then valid_from 2 128 159 bs'
      else if (225 <=? b) && (b <=? 239) then valid_from 2 128 191 bs'
      else if b =? 240 then valid_from 3 144 191 bs'
      else if (241 <=? b) && (b <=? 243) then valid_from 3 128 191 bs'
      else if b =? 244 then valid_from 3 128 143 bs'
      else false
    end
  end.

Definition ValidString (s : string) : bool := valid_from 0 128 191 (bytes_of s).

Section GBK.

(** The decoder's table [decode], 23940 code units indexed by
    [(lead - 0x81) * 190 + trail']; its contents are data of the library and
    stay a parameter. *)
Variable decode : Z -> Z.

Definition decode_len : Z := 23940.

(** [gbkDecoder.Transform] with [gb18030 = false], run to the end of the
    input ([transform.String] calls it with [atEOF] set): the runes it
    emits.  An ASCII byte stands for itself, [0x80] for the euro sign; a lead
    byte takes a trail byte in [0x40..0x7E] or [0x80..0xFE] with it and looks
    the pair up; anything else costs one byte and gives U+FFFD. *)
Fixpoint gbk_runes (src : list Z) : list Z :=
  match src with
  | [] => []
  | c0 :: rest =>
    if c0 <? 128 then c0 :: gbk_runes rest
    else if c0 =? 128 then 8364 :: gbk_runes rest
    else if c0 <? 255 then
      match rest with
      | [] => [RuneError]
      | c1 :: rest' =>
        let lookup (c1' : Z) :=
          let i := (c0 - 129) * 190 + c1' in
          if i <? decode_len
          then (if decode i =? 0 then RuneError else decode i)
          else RuneError in
        if (64 <=? c1) && (c1 <? 127) then lookup (c1 - 64) :: gbk_runes rest'
        else if (128 <=? c1) && (c1 <? 255) then lookup (c1 - 65) :: gbk_runes rest'
        else RuneError :: gbk_runes rest
      end
    else RuneError :: gbk_runes rest
  end.

(** [transform.String(simplifiedchinese.GBK.NewDecoder(), input)]; the
    decoder replaces what it cannot read and never fails. *)
Definition gbk_to_utf8 (input : string) : string :=
  string_of (List.concat (List.map EncodeRune (gbk_runes (bytes_of input)))).

End GBK.

(** Every byte is below [0x80]. *)
Definition is_ascii (s : string) : bool :=
  List.forallb (fun b => b <? 128) (bytes_of s).

(** The character U+4E2D in UTF-8, and the path [d/] followed by it. *)
Definition u4E2D : string := string_of [228; 184; 173].
Definition d_u4E2D : string := string_of [100; 47; 228; 184; 173].

Example EncodeRune_samples :
  EncodeRune 47 = [47] /\ EncodeRune 233 = [195; 169] /\
  EncodeRune 20013 = [228; 184; 173] /\ EncodeRune RuneError = [239; 191; 189] /\
  EncodeRune 55296 = [239; 191; 189] /\ EncodeRune 128512 = [240; 159; 152; 128].
Proof. repeat split; reflexivity. Qed.

Example ValidString_samples :
  ValidString "a/b.txt" = true /\ ValidString (string_of [228; 184; 173]) = true /\
  ValidString (string_of [214; 208]) = false /\ ValidString (string_of [192; 175]) = false /\
  ValidString (string_of [237; 160; 128]) = false.
Proof. repeat split; reflexivity. Qed.

(** ** Properties *)

Lemma bytes_of_cons (c : ascii) (s : string) :
  bytes_of (String c s) = Z.of_N (N_of_ascii c) :: bytes_of s.
Proof. reflexivity. Qed.

Lemma string_of_cons (b : Z) (bs : list Z) :
  string_of (b :: bs) = String (ascii_of_N (Z.to_N b)) (string_of bs).
Proof. reflexivity. Qed.

Lemma string_of_length (bs : list Z) : String.length (string_of bs) = List.length bs.
Proof.
  induction bs as [|b bs IH]; [reflexivity|].
  rewrite string_of_cons. cbn [String.length List.length]. f_equal. exact IH.
Qed.

Lemma EncodeRune_ascii (b : Z) : 0 <= b < 128 -> EncodeRune b = [b].
Proof.
  intros Hb. unfold EncodeRune.
  rewrite Z.mod_small by lia.
  replace (b <=? 127) with true by (symmetry; apply Z.leb_le; lia).
  reflexivity.
Qed.

Lemma EncodeRune_nonempty (r : Z) : (1 <= List.length (EncodeRune r))%nat.
Proof.
  unfold EncodeRune.
  repeat match goal with |- context [if ?b then _ else _] => destruct b end;
    cbn [List.length]; lia.
Qed.

Section GBKFacts.

Variable decode : Z -> Z.

Lemma gbk_runes_ascii (b : Z) (rest : list Z) :
  b < 128 -> gbk_runes decode (b :: rest) = b :: gbk_runes decode rest.
Proof.
  intros Hb. cbn [gbk_runes].
  replace (b <? 128) with true by (symmetry; apply Z.ltb_lt; lia).
  reflexivity.
Qed.

(** A lead byte with a trail byte of the upper range: one rune for the two. *)
Lemma gbk_runes_pair (c0 c1 : Z) (rest : list Z) :
  128 < c0 < 255 -> 128 <= c1 < 255 ->
  exists r, gbk_runes decode (c0 :: c1 :: rest) = r :: gbk_runes decode rest.
Proof.
  intros H0 H1. cbn [gbk_runes].
  replace (c0 <? 128) with false by (symmetry; apply Z.ltb_ge; lia).
  replace (c0 =? 128) with false by (symmetry; apply Z.eqb_neq; lia).
  replace (c0 <? 255) with true by (symmetry; apply Z.ltb_lt; lia).
  replace (c1 <? 127) with false by (symmetry; apply Z.ltb_ge; lia).
  rewrite andb_false_r.
  replace (128 <=? c1) with true by (symmetry; apply Z.leb_le; lia).
  replace (c1 <? 255) with true by (symmetry; apply Z.ltb_lt; lia).
  cbn [andb]. eexists. reflexivity.
Qed.

(** A lead byte at the end of the input: U+FFFD. *)
Lemma gbk_runes_lone_lead (c0 : Z) :
  128 < c0 < 255 -> gbk_runes decode [c0] = [RuneError].
Proof.
  intros H0. cbn [gbk_runes].
  replace (c0 <? 128) with false by (symmetry; apply Z.ltb_ge; lia).
  replace (c0 =? 128) with false by (symmetry; apply Z.eqb_neq; lia).
  replace (c0 <? 255) with true by (symmetry; apply Z.ltb_lt; lia).
  reflexivity.
Qed.

(** The decoder leaves an ASCII string as it is. *)
Lemma gbk_to_utf8_ascii (s : string) :
  is_ascii s = true -> gbk_to_utf8 decode s = s.
Proof.
  unfold is_ascii, gbk_to_utf8.
  induction s as [|c s IH]; [reflexivity|].
  rewrite bytes_of_cons. cbn [List.forallb]. intros H.
  apply andb_true_iff in H as [Hc Hs]. apply Z.ltb_lt in Hc.
  rewrite gbk_runes_ascii by exact Hc.
  cbn [List.map List.concat].
  rewrite EncodeRune_ascii by lia.
  cbn [app]. rewrite string_of_cons, (IH Hs).
  rewrite N2Z.id, ascii_N_embedding. reflexivity.
Qed.

(** The three bytes of U+4E2D in UTF-8, read as GBK, give a rune for the
    first two and U+FFFD for the third: at least four bytes, whatever the
    table holds. *)
Lemma gbk_to_utf8_grows :
  (5 < String.length (gbk_to_utf8 decode d_u4E2D))%nat.
Proof.
  unfold gbk_to_utf8. rewrite string_of_length.
  replace (bytes_of d_u4E2D) with [100; 47; 228; 184; 173]
    by (vm_compute; reflexivity).
  rewrite !gbk_runes_ascii by lia.
  destruct (gbk_runes_pair 228 184 [173]) as [r Hr]; [lia | lia |].
  rewrite Hr, gbk_runes_lone_lead by lia.
  cbn [List.map List.concat].
  rewrite !length_app.
  pose proof (EncodeRune_nonempty r) as Hlen.
  rewrite !EncodeRune_ascii by lia.
  replace (List.length (EncodeRune RuneError)) with 3%nat by (vm_compute; reflexivity).
  cbn [List.length]. lia.
Qed.

End GBKFacts.

(** ** What the decoder writes is UTF-8 *)

















End Encoding.

(** * 6. The rooted filesystem and its archive engine
    ([server/filesystem/compress.go], both variants) *)

Module Filesystem.
Import Strings GoPath.
Local Open Scope string_scope.
Local Open Scope Z_scope.

(** ** Errors *)
Inductive Error :=
| FsError (code : ErrorCode)                 (* newFilesystemError(code, nil) *)
| ContextCanceled                            (* ctx.Err() *)
| ErrNoMatch                                 (* archiver.ErrNoMatch *)
| ErrNotExist                                (* os.ErrNotExist *)
| IOError (msg : string)                     (* any other failure of the OS or of a reader *)
| WrapError (e : Error) (resolved : string)  (* wrapError(e, resolved) *)
| HandlingFile (name : string) (e : Error).  (* archiver: handling file: name: e *)

(** Modelled from the spec: [wrapError] and the kind [filesystem.IsErrorCode]
    reads, whose sources are not among the files; errors "are wrapped once at
    each layer with a stable kind and context, never re-wrapped in a way that
    hides the kind", so the kind is read through the wrappers. *)
Fixpoint code_of (e : Error) : option ErrorCode :=
  match e with
  | FsError code => Some code
  | WrapError e' _ => code_of e'
  | HandlingFile _ e' => code_of e'
  | _ => None
  end.

Definition wrapError (e : Error) (resolved : string) : Error := WrapError e resolved.

(** ** State *)
Record File := { data : string; mode : Z; mtime : Z }.

Definition size (contents : string) : Z := Z.of_nat (String.length contents).

(** A server's filesystem view and the files of the host, by absolute path.
    [expand] is the host's symlink table: the path a cleaned absolute path
    resolves to once every symlink on it is expanded. *)
Record Filesystem := {
  root : string;
  denylist : string -> bool;
  expand : string -> string;
  disk_limit : Z;
  disk_used : Z;
  files : gmap string File
}.

Definition with_files (fs : Filesystem) (m : gmap string File) : Filesystem :=
  {| root := root fs; denylist := denylist fs; expand := expand fs;
     disk_limit := disk_limit fs; disk_used := disk_used fs; files := m |}.

Definition with_disk_used (fs : Filesystem) (n : Z) : Filesystem :=
  {| root := root fs; denylist := denylist fs; expand := expand fs;
     disk_limit := disk_limit fs; disk_used := n; files := files fs |}.

(** ** Calls that may change the filesystem and may fail *)
Definition M (A : Type) : Type := Filesystem -> Filesystem * (Error + A).

Definition ret {A} (a : A) : M A := fun fs => (fs, inr a).
Definition fail {A} (e : Error) : M A := fun fs => (fs, inl e).
Definition bind {A B} (c : M A) (k : A -> M B) : M B :=
  fun fs =>
    match c fs with
    | (fs', inl e) => (fs', inl e)
    | (fs', inr a) => k a fs'
    end.
(** [if err := c; err != nil { return wrapError(err, name) }]. *)
Definition wrapped {A} (c : M A) (resolved : string) : M A :=
  fun fs =>
    match c fs with
    | (fs', inl e) => (fs', inl (wrapError e resolved))
    | r => r
    end.

Notation "'do' x <- c ; k" := (bind c (fun x => k))
  (at level 10, x name, c at level 100, k at level 200).
Notation "'run' c ; k" := (bind c (fun _ => k))
  (at level 10, c at level 100, k at level 200).

Definition state {A} (r : Filesystem * (Error + A)) : Filesystem := fst r.
Definition result {A} (r : Filesystem * (Error + A)) : Error + A := snd r.

(** ** The safe filesystem, from the specification *)

(** Modelled from the spec: [SafePath], whose source is not among the files.
    "Join with root, lexically clean", expand the symlinks, and fail with a
    path-resolution error unless the result lies within [root].  A path that
    already starts with the root is taken relative to it: [CompressFiles]
    hands in paths it has joined with the resolved directory. *)
Definition SafePath (fs : Filesystem) (p : string) : Error + string :=
  let r := expand fs (Clean (Join [root fs; TrimPrefix p (root fs)])) in
  if within (root fs) r then inr r else inl (FsError ErrCodePathResolution).

(** Modelled from the spec: [ParallelSafePath], "the same contract applied
    over a set"; every failure is the same path-resolution error, so the
    order in which the resolutions run does not show. *)
Fixpoint ParallelSafePath (fs : Filesystem) (paths : list string) : Error + list string :=
  match paths with
  | [] => inr []
  | p :: rest =>
    match SafePath fs p, ParallelSafePath fs rest with
    | inl e, _ => inl e
    | _, inl e => inl e
    | inr r, inr rs => inr (r :: rs)
    end
  end.

(** Modelled from the spec: [IsIgnored] "consults a compiled gitignore
    matcher"; a denied path is a denylist error. *)
Definition IsIgnored (fs : Filesystem) (p : string) : option Error :=
  if denylist fs p then Some (FsError ErrCodeDenylistFile) else None.

(** Modelled from the spec: [HasSpaceFor] "returns a disk-space error when
    disk_limit > 0 and disk_used + delta > disk_limit". *)
Definition HasSpaceFor (fs : Filesystem) (delta : Z) : option Error :=
  if (0 <? disk_limit fs) && (disk_limit fs <? disk_used fs + delta)
  then Some (FsError ErrCodeDiskSpace) else None.

(** Modelled from the spec: [addDisk] adds to [disk_used]. *)
Definition addDisk (fs : Filesystem) (n : Z) : Filesystem :=
  with_disk_used fs (disk_used fs + n).

(** Modelled from the spec: [Writefile] (and [Write], which also sets the
    mode) "writes a stream through SafePath(p)", checks the quota chunk by
    chunk, removes the partial file and returns a disk-space error when the
    quota runs out, and on success "updates disk_used by the exact written
    size".  The chunk checks add up to: the stream is written iff all of it
    fits. *)
Definition Write (p : string) (contents : string) (perm : Z) : M unit :=
  fun fs =>
    match SafePath fs p with
    | inl e => (fs, inl e)
    | inr r =>
      match HasSpaceFor fs (size contents) with
      | Some e => (with_files fs (delete r (files fs)), inl e)
      | None =>
        (addDisk (with_files fs (<[r := {| data := contents; mode := perm; mtime := 0 |}]>
                                   (files fs)))
                 (size contents),
         inr tt)
      end
    end.

Definition Writefile (p : string) (contents : string) : M unit := Write p contents 420.

(** Modelled from the spec: [Chmod] and [Chtimes] go through [SafePath] like
    every other operation and change the mode or time of an existing file. *)
Definition Chmod (p : string) (perm : Z) : M unit :=
  fun fs =>
    match SafePath fs p with
    | inl e => (fs, inl e)
    | inr r =>
      match files fs !! r with
      | None => (fs, inl ErrNotExist)
      | Some f =>
        (with_files fs (<[r := {| data := data f; mode := perm; mtime := mtime f |}]> (files fs)),
         inr tt)
      end
    end.

Definition Chtimes (p : string) (atime mtime' : Z) : M unit :=
  fun fs =>
    match SafePath fs p with
    | inl e => (fs, inl e)
    | inr r =>
      match files fs !! r with
      | None => (fs, inl ErrNotExist)
      | Some f =>
        (with_files fs (<[r := {| data := data f; mode := mode f; mtime := mtime' |}]> (files fs)),
         inr tt)
      end
    end.

(** ** The host's own file calls ([os.Stat], [os.Remove]) *)
Record FileInfo := { Name : string; Size : Z }.

Definition os_Stat (p : string) : M FileInfo :=
  fun fs =>
    match files fs !! p with
    | Some f => (fs, inr {| Name := Base p; Size := size (data f) |})
    | None => (fs, inl ErrNotExist)
    end.

Definition os_Remove (p : string) : M unit :=
  fun fs =>
    match files fs !! p with
    | Some _ => (with_files fs (delete p (files fs)), inr tt)
    | None => (fs, inl ErrNotExist)
    end.

(** ** The quota-aware file layer [fs.unixFS] of the second variant *)

(** Modelled from the spec: the calls of [internal/ufs] the archive engine
    makes, whose sources are not among the files.  Each resolves its path
    like [SafePath] ("every path used for any I/O must resolve ... to a
    descendant of the server's root"); [CanFit] is [HasSpaceFor] as a
    boolean and [Add] is [addDisk]; [Remove] is the layer's delete, and
    "deletes must subtract the freed bytes after the unlink succeeds". *)
Definition unixFS_OpenFile (p : string) : M string :=
  fun fs =>
    match SafePath fs p with
    | inl e => (fs, inl e)
    | inr h =>
      match files fs !! h with
      | Some _ => (fs, inr h)
      | None =>
        (with_files fs (<[h := {| data := ""; mode := 420; mtime := 0 |}]> (files fs)), inr h)
      end
    end.

Definition unixFS_Open (p : string) : M string :=
  fun fs =>
    match SafePath fs p with
    | inl e => (fs, inl e)
    | inr h =>
      match files fs !! h with
      | Some f => (fs, inr (data f))
      | None => (fs, inl ErrNotExist)
      end
    end.

Definition unixFS_Remove (p : string) : M unit :=
  fun fs =>
    match SafePath fs p with
    | inl e => (fs, inl e)
    | inr h =>
      match files fs !! h with
      | Some f => (addDisk (with_files fs (delete h (files fs))) (- size (data f)), inr tt)
      | None => (fs, inl ErrNotExist)
      end
    end.

Definition unixFS_CanFit (fs : Filesystem) (n : Z) : bool :=
  match HasSpaceFor fs n with
  | None => true
  | Some _ => false
  end.

Definition unixFS_Add (n : Z) : M unit := fun fs => (addDisk fs n, inr tt).

(** Writing [buf] through a handle opened without [O_TRUNC] replaces the
    bytes from the handle's offset on. *)
Definition overwrite (old : string) (off : nat) (buf : string) : string :=
  String.append (String.substring 0 off old)
    (String.append buf
       (String.substring (off + String.length buf)
          (String.length old - (off + String.length buf)) old)).

Definition File_Write (h : string) (off : nat) (buf : string) (fs : Filesystem) : Filesystem :=
  match files fs !! h with
  | Some f =>
    with_files fs (<[h := {| data := overwrite (data f) off buf; mode := mode f;
                             mtime := mtime f |}]> (files fs))
  | None =>
    with_files fs (<[h := {| data := buf; mode := 420; mtime := 0 |}]> (files fs))
  end.

Definition File_Stat (h : string) : M FileInfo := os_Stat h.

(** ** The archiver library ([github.com/mholt/archiver/v4]) *)

(** An [io.Reader] as the copy loop sees it: the successive non-final reads
    and how the stream ends ([None] for [io.EOF]). *)
Record Reader := { chunks : list string; last : option Error }.

(** [archiver.File]. *)
Record ArchiveFile := {
  NameInArchive : string;
  IsDir : bool;
  FileSize : Z;
  Mode : Z;
  ModTime : Z;
  Open : Error + string
}.

(** What an extractor reads out of its input: the entries, and the error the
    stream breaks off with, if any. *)
Record Archive := { entries : list ArchiveFile; broken : option Error }.

(** [archiver.Format], with the two interfaces [extractStream] asserts:
    [archiver.Extractor] and [archiver.Decompressor] ([OpenReader]). *)
Record Format := {
  FormatName : string;
  Extractor : option (string -> Archive);
  Decompressor : option (string -> Error + Reader)
}.

(** [context.Context]: whether [ctx.Err()] is non-nil at the poll in front of
    the i-th entry. *)
Definition Context : Type := nat -> bool.

(** [ex.Extract(ctx, input, nil, handleFile)]: in front of every entry the
    context is polled; a handler's error ends the extraction. *)
Fixpoint Extract_from (ctx : Context) (i : nat) (todo : list ArchiveFile)
    (broken_with : option Error) (handleFile : ArchiveFile -> M unit) : M unit :=
  match todo with
  | [] => match broken_with with None => ret tt | Some e => fail e end
  | f :: rest =>
    if ctx i then fail ContextCanceled
    else fun fs =>
      match handleFile f fs with
      | (fs', inl e) => (fs', inl (HandlingFile (NameInArchive f) e))
      | (fs', inr _) => Extract_from ctx (S i) rest broken_with handleFile fs'
      end
  end.

Definition Extract (ctx : Context) (a : Archive) (handleFile : ArchiveFile -> M unit) : M unit :=
  Extract_from ctx 0 (entries a) (broken a) handleFile.

Record extractStreamOptions := {
  Directory : string;
  FileName : string;
  Format_ : Format;
  Reader_ : string
}.

(** Modelled from the spec: [Archive.Create] and [Archive.Stream], whose
    sources are not among the files; a call "writes a tar.gz" to its target.
    The bytes it produces and the error it ends with are given. *)
Record ArchiveRun := { produced : string; failure : option Error }.

Definition Archive_Create (d : string) (a : ArchiveRun) : M unit :=
  fun fs =>
    (with_files fs (<[d := {| data := produced a; mode := 420; mtime := 0 |}]> (files fs)),
     match failure a with None => inr tt | Some e => inl e end).

(** Streams into the counted writer over handle [h]; the value is
    [cw.BytesWritten()]. *)
Definition Archive_Stream (h : string) (a : ArchiveRun) : Filesystem -> Filesystem * (Error + unit) * Z :=
  fun fs =>
    (File_Write h 0 (produced a) fs,
     match failure a with None => inr tt | Some e => inl e end,
     size (produced a)).

(** The archive's name: [archive-] and the RFC 3339 time without its colons. *)
Definition archive_name (now_rfc3339 : string) : string :=
  String.append "archive-" (String.append (RemoveColons now_rfc3339) ".tar.gz").

(** ** First variant: paths resolved with [SafePath], files of the host *)

Module SafePathVariant.
Section WithLibraries.

(** The GBK table of [golang.org/x/text] and [archiver.Identify] (file name
    and stream to format and rewound input) are the libraries'. *)
Variable decode : Z -> Z.
Variable Identify : string -> string -> Error + (Format * string).

Definition convertToUTF8 (s : string) : Error + string :=
  inr (Encoding.gbk_to_utf8 decode s).

(** [for i, p := range paths { paths[i] = filepath.Join(cleanedRootDir, p) }]
    on the caller's slice: [ranged] is what is left to range over. *)
Fixpoint join_each (cleanedRootDir : string) (i : nat) (ranged paths : list string)
  : list string :=
  match ranged with
  | [] => paths
  | p :: rest =>
    join_each cleanedRootDir (S i) rest (<[i := Join [cleanedRootDir; p]]> paths)
  end.

(** [CompressFiles]: the caller's slice as the call leaves it, and the call's
    effect and result. *)
Definition CompressFiles (dir : string) (paths : list string)
    (now_rfc3339 : string) (a : ArchiveRun) (fs : Filesystem)
  : list string * (Filesystem * (Error + FileInfo)) :=
  match SafePath fs dir with
  | inl e => (paths, (fs, inl e))
  | inr cleanedRootDir =>
    let paths := join_each cleanedRootDir 0 paths paths in
    (paths,
     match ParallelSafePath fs paths with
     | inl e => (fs, inl e)
     | inr cleaned =>
       let d := Join [cleanedRootDir; archive_name now_rfc3339] in
       (run Archive_Create d a;
        fun fs1 =>
          match os_Stat d fs1 with
          | (_, inl e) => (state (os_Remove d fs1), inl e)
          | (_, inr f) =>
            match HasSpaceFor fs1 (Size f) with
            | Some e => (state (os_Remove d fs1), inl e)
            | None => (addDisk fs1 (Size f), inr f)
            end
          end) fs
     end)
  end.

Definition extract_entry (opts : extractStreamOptions) (f : ArchiveFile) : M unit :=
  if IsDir f then ret tt
  else
    let p := Join [Directory opts; NameInArchive f] in
    fun fs =>
      match IsIgnored fs p with
      | Some _ => (fs, inr tt)
      | None =>
        match Open f with
        | inl e => (fs, inl e)
        | inr r =>
          (run wrapped (Writefile p r) (FileName opts);
           run wrapped (Chmod p (Mode f)) (FileName opts);
           wrapped (Chtimes p (ModTime f) (ModTime f)) (FileName opts)) fs
        end
      end.

Definition extractStream (ctx : Context) (opts : extractStreamOptions) : M unit :=
  match Extractor (Format_ opts) with
  | Some ex => Extract ctx (ex (Reader_ opts)) (extract_entry opts)
  | None => ret tt
  end.

(** The handler of [ExtractStreamUnsafe]: the name is converted, and the
    converted name is dropped ([_ = utf8Name]). *)
Definition extract_entry_unsafe (opts : extractStreamOptions) (f : ArchiveFile) : M unit :=
  if IsDir f then ret tt
  else
    let p := Join [Directory opts; NameInArchive f] in
    fun fs =>
      match IsIgnored fs p with
      | Some _ => (fs, inr tt)
      | None =>
        match convertToUTF8 (NameInArchive f) with
        | inl e => (fs, inl e)
        | inr utf8Name =>
          match Open f with
          | inl e => (fs, inl e)
          | inr r =>
            (run wrapped (Writefile p r) (FileName opts);
             run wrapped (Chmod p (Mode f)) (FileName opts);
             wrapped (Chtimes p (ModTime f) (ModTime f)) (FileName opts)) fs
          end
        end
      end.

Definition unknown_archive (e : Error) : Error :=
  match e with
  | ErrNoMatch => FsError ErrCodeUnknownArchive
  | _ => e
  end.

Definition ExtractStreamUnsafe (ctx : Context) (dir : string) (r : string) : M unit :=
  match Identify "archive.tar.gz" r with
  | inl e => fail (unknown_archive e)
  | inr (format, input) =>
    let opts := {| Directory := dir; FileName := ""; Format_ := format; Reader_ := input |} in
    match Extractor (Format_ opts) with
    | Some ex => Extract ctx (ex (Reader_ opts)) (extract_entry_unsafe opts)
    | None => ret tt
    end
  end.

(** [file] is a path of the host; [os.Stat] and [os.Open] read it. *)
Definition DecompressFileUnsafe (ctx : Context) (dir file : string) : M unit :=
  fun fs =>
    match files fs !! file with
    | None => (fs, inl ErrNotExist)
    | Some f =>
      match Identify (Base file) (data f) with
      | inl e => (fs, inl (unknown_archive e))
      | inr (format, input) =>
        extractStream ctx
          {| Directory := dir; FileName := ""; Format_ := format; Reader_ := input |} fs
      end
    end.

Definition DecompressFile (ctx : Context) (dir file : string) : M unit :=
  fun fs =>
    match SafePath fs (Join [dir; file]) with
    | inl e => (fs, inl e)
    | inr source => DecompressFileUnsafe ctx dir source fs
    end.

(** An entry the handler gets as far as writing (a file, not denied, that
    opens) and whose joined path does not resolve within the root. *)
Definition escapes (fs : Filesystem) (opts : extractStreamOptions) (f : ArchiveFile) : Prop :=
  IsDir f = false /\
  denylist fs (Join [Directory opts; NameInArchive f]) = false /\
  (exists r, Open f = inr r) /\
  exists e, SafePath fs (Join [Directory opts; NameInArchive f]) = inl e.

(** The archive [file] of [dir] resolves, is on the host and is identified;
    [opts] is what [DecompressFile] then hands to [extractStream]. *)
Definition opens (fs : Filesystem) (dir file : string) (opts : extractStreamOptions) : Prop :=
  exists (source : string) (archive : File),
    SafePath fs (Join [dir; file]) = inr source /\
    files fs !! source = Some archive /\
    Identify (Base source) (data archive) = inr (Format_ opts, Reader_ opts) /\
    Directory opts = dir /\ FileName opts = "".

End WithLibraries.
End SafePathVariant.

(** ** Second variant: files through [fs.unixFS] *)

Module UfsVariant.
Section WithLibraries.

Variable decode : Z -> Z.
Variable Identify : string -> string -> Error + (Format * string).

Definition decodeGBK (input : string) : Error + string :=
  inr (Encoding.gbk_to_utf8 decode input).

Definition CompressFiles (dir : string) (paths : list string)
    (now_rfc3339 : string) (a : ArchiveRun) : M FileInfo :=
  let d := Join [dir; archive_name now_rfc3339] in
  do f <- unixFS_OpenFile d;
  fun fs1 =>
    match Archive_Stream f a fs1 with
    | (fs2, inl e, _) => (fs2, inl e)
    | (fs2, inr _, BytesWritten) =>
      if negb (unixFS_CanFit fs2 BytesWritten)
      then (state (unixFS_Remove d fs2), inl (FsError ErrCodeDiskSpace))
      else (run unixFS_Add BytesWritten; File_Stat f) fs2
    end.

(** The copy loop of the single-file branch: [off] bytes are written so far;
    a read of no bytes writes nothing; the stream's end is [io.EOF] or the
    error returned. *)
Fixpoint copy_chunks (f : string) (off : nat) (reads : list string) (end_ : option Error)
  : M unit :=
  match reads with
  | [] => match end_ with None => ret tt | Some e => fail e end
  | buf :: rest =>
    if 0 <? size buf then
      fun fs =>
        match HasSpaceFor fs (size buf) with
        | Some quotaErr => (fs, inl quotaErr)
        | None =>
          copy_chunks f (off + String.length buf) rest end_
            (addDisk (File_Write f off buf fs) (size buf))
        end
    else copy_chunks f off rest end_
  end.

Definition extract_entry (opts : extractStreamOptions) (f : ArchiveFile) : M unit :=
  if IsDir f then ret tt
  else
    let p := Join [Directory opts; NameInArchive f] in
    fun fs =>
      match IsIgnored fs p with
      | Some _ => (fs, inr tt)
      | None =>
        match Open f with
        | inl e => (fs, inl e)
        | inr r =>
          match decodeGBK p with
          | inl e => (fs, inl e)
          | inr filePath =>
            (run wrapped (Write filePath r (Mode f)) (FileName opts);
             wrapped (Chtimes filePath (ModTime f) (ModTime f)) (FileName opts)) fs
          end
        end
      end.

(** The path an entry is written to. *)
Definition target (opts : extractStreamOptions) (f : ArchiveFile) : string :=
  Encoding.gbk_to_utf8 decode (Join [Directory opts; NameInArchive f]).

(** An entry the handler gets as far as writing (a file, not denied, that
    opens) and whose decoded joined path does not resolve within the root. *)
Definition escapes (fs : Filesystem) (opts : extractStreamOptions) (f : ArchiveFile) : Prop :=
  IsDir f = false /\
  denylist fs (Join [Directory opts; NameInArchive f]) = false /\
  (exists r, Open f = inr r) /\
  exists e, SafePath fs (target opts f) = inl e.

Definition extractStream (ctx : Context) (opts : extractStreamOptions) : M unit :=
  match Extractor (Format_ opts) with
  | None =>
    match Decompressor (Format_ opts) with
    | None => ret tt
    | Some OpenReader =>
      let p := Join [Directory opts;
                     TrimSuffix (FileName opts) (FormatName (Format_ opts))] in
      fun fs =>
        match IsIgnored fs p with
        | Some _ => (fs, inr tt)
        | None =>
          match OpenReader (Reader_ opts) with
          | inl e => (fs, inl e)
          | inr reader =>
            (do f <- unixFS_OpenFile p;
             copy_chunks f 0 (chunks reader) (last reader)) fs
          end
        end
    end
  | Some ex => Extract ctx (ex (Reader_ opts)) (extract_entry opts)
  end.

Definition unknown_archive (e : Error) : Error :=
  match e with
  | ErrNoMatch => FsError ErrCodeUnknownArchive
  | _ => e
  end.

Definition DecompressFile (ctx : Context) (dir file : string) : M unit :=
  do f <- unixFS_Open (Join [dir; file]);
  match Identify (Base file) f with
  | inl e => fail (unknown_archive e)
  | inr (format, input) =>
    extractStream ctx
      {| Directory := dir; FileName := file; Format_ := format; Reader_ := input |}
  end.

(** The archive [file] of [dir] opens and is identified; [opts] is what
    [DecompressFile] then hands to [extractStream]. *)
Definition opens (fs : Filesystem) (dir file : string) (opts : extractStreamOptions) : Prop :=
  exists contents : string,
    unixFS_Open (Join [dir; file]) fs = (fs, inr contents) /\
    Identify (Base file) contents = inr (Format_ opts, Reader_ opts) /\
    Directory opts = dir /\ FileName opts = file.

Definition ExtractStreamUnsafe (ctx : Context) (dir : string) (r : string) : M unit :=
  match Identify "archive.tar.gz" r with
  | inl e => fail (unknown_archive e)
  | inr (format, input) =>
    extractStream ctx
      {| Directory := dir; FileName := ""; Format_ := format; Reader_ := input |}
  end.

End WithLibraries.
End UfsVariant.

(** ** Sample hosts and archives *)

(** A server rooted at [/srv] on a host without symlinks, nothing denied. *)
Definition server (limit used : Z) (m : gmap string File) : Filesystem :=
  {| root := "/srv"; denylist := fun _ => false; expand := fun p => p;
     disk_limit := limit; disk_used := used; files := m |}.

Definition regular (name contents : string) : ArchiveFile :=
  {| NameInArchive := name; IsDir := false; FileSize := size contents;
     Mode := 420; ModTime := 7; Open := inr contents |}.

Definition zip_of (es : list ArchiveFile) : Format :=
  {| FormatName := ".zip";
     Extractor := Some (fun _ => {| entries := es; broken := None |});
     Decompressor := None |}.

Definition gz_of (r : Reader) : Format :=
  {| FormatName := ".gz"; Extractor := None; Decompressor := Some (fun _ => inr r) |}.

(** A format value with neither interface: the type [archiver.Format] admits
    one, and none of the library's own formats is one. *)
Definition bare_format : Format :=
  {| FormatName := ".raw"; Extractor := None; Decompressor := None |}.

(** The same server on a host where [/srv/data/out] is a symlink to
    [/etc/out]. *)
Definition server_with_link (m : gmap string File) : Filesystem :=
  {| root := "/srv"; denylist := fun _ => false;
     expand := fun p => if String.eqb p "/srv/data/out" then "/etc/out" else p;
     disk_limit := 0; disk_used := 0; files := m |}.

(** An [archiver.Identify] that knows one format. *)
Definition identify_as (format : Format) : string -> string -> Error + (Format * string) :=
  fun _ stream => inr (format, stream).

(** The entries [ok.txt] and [../../etc/passwd] of an archive, and a server
    holding such an archive as [data/a.zip]. *)
Definition slip_archive : list ArchiveFile :=
  [regular "ok.txt" "hi"; regular "../../etc/passwd" "x"].

Definition server_with_slip : Filesystem :=
  server 0 2 {[ "/srv/data/a.zip" := {| data := "PK"; mode := 420; mtime := 0 |} ]}.

(** A server holding the gzip file [logs/latest.log.gz]. *)
Definition server_with_gz : Filesystem :=
  server 0 4 {[ "/srv/logs/latest.log.gz" := {| data := "gzip"; mode := 420; mtime := 0 |} ]}.

(** An [archiver.Identify] that knows gzip, by the extension of the file
    name; [r] is what the stream decompresses to. *)
Definition identify_gz (r : Reader) : string -> string -> Error + (Format * string) :=
  fun name stream => if HasSuffix name ".gz" then inr (gz_of r, stream) else inl ErrNoMatch.

Definition never_cancelled : Context := fun _ => false.
Definition cancelled : Context := fun _ => true.

(** The context is cancelled once the first entry is extracted. *)
Definition cancelled_after_one : Context := fun i => negb (Nat.eqb i 0).

(** An entry both handlers pass over: a directory, or a file whose joined
    path the denylist matches. *)
Definition skipped (fs : Filesystem) (opts : extractStreamOptions) (f : ArchiveFile) : bool :=
  IsDir f || denylist fs (Join [Directory opts; NameInArchive f]).

(** The archive without the entries [keep] rejects. *)
Definition only (keep : ArchiveFile -> bool) (a : Archive) : Archive :=
  {| entries := List.filter keep (entries a); broken := broken a |}.


(** A server that denies [logs/secret.txt]. *)
Definition server_with_denylist : Filesystem :=
  {| root := "/srv"; denylist := fun p => String.eqb p "logs/secret.txt";
     expand := fun p => p; disk_limit := 0; disk_used := 0; files := ∅ |}.

(** ** What an operation may touch *)

(** [fs'] has the view of [fs] (root, denylist, symlinks, limit). *)
Definition same_view (fs fs' : Filesystem) : Prop :=
  root fs' = root fs /\ denylist fs' = denylist fs /\
  expand fs' = expand fs /\ disk_limit fs' = disk_limit fs.

(** From [fs] to [fs'] the view is kept and no file outside the root is
    created, changed or removed. *)
Definition confined (fs fs' : Filesystem) : Prop :=
  same_view fs fs' /\
  forall path : string, within (root fs) path = false -> files fs' !! path = files fs !! path.

(** What the code guarantees about archive entries that point out of the
    server root, for an extraction [extractStream] with handler [extract_entry]:
    no file outside the server root is created, changed or removed; once the
    extraction reaches an escaping entry (the entries [before] it extracted,
    the context not cancelled in front of it) it ends there, with the
    path-resolution error of that entry; and an archive that holds such an
    entry never extracts successfully. *)
Definition rejects_escapes
    (extractStream : Context -> extractStreamOptions -> M unit)
    (extract_entry : extractStreamOptions -> ArchiveFile -> M unit)
    (escapes : Filesystem -> extractStreamOptions -> ArchiveFile -> Prop) : Prop :=
  forall (ctx : Context) (opts : extractStreamOptions) (fs : Filesystem),
    (forall path : string,
       within (root fs) path = false ->
       files (state (extractStream ctx opts fs)) !! path = files fs !! path) /\
    (forall (ex : string -> Archive) (before after : list ArchiveFile) (f : ArchiveFile)
            (fs1 : Filesystem),
       Extractor (Format_ opts) = Some ex ->
       entries (ex (Reader_ opts)) = (before ++ f :: after)%list ->
       escapes fs opts f ->
       ctx (List.length before) = false ->
       Extract_from ctx 0 before None (extract_entry opts) fs = (fs1, inr tt) ->
       extractStream ctx opts fs
       = (fs1, inl (HandlingFile (NameInArchive f)
                      (WrapError (FsError ErrCodePathResolution) (FileName opts))))) /\
    (forall (ex : string -> Archive) (f : ArchiveFile),
       Extractor (Format_ opts) = Some ex ->
       In f (entries (ex (Reader_ opts))) ->
       escapes fs opts f ->
       exists e, result (extractStream ctx opts fs) = inl e).

(** The same of [DecompressFile dir file], for an archive that [opens] with
    the options [opts]: nothing outside the server root is touched, whatever
    the file is; the extraction ends at an escaping entry with the
    path-resolution error of that entry; and an archive that holds such an
    entry never decompresses successfully. *)
Definition DecompressFile_rejects_escapes
    (DecompressFile : Context -> string -> string -> M unit)
    (opens : Filesystem -> string -> string -> extractStreamOptions -> Prop)
    (extract_entry : extractStreamOptions -> ArchiveFile -> M unit)
    (escapes : Filesystem -> extractStreamOptions -> ArchiveFile -> Prop) : Prop :=
  forall (ctx : Context) (dir file : string) (fs : Filesystem),
    (forall path : string,
       within (root fs) path = false ->
       files (state (DecompressFile ctx dir file fs)) !! path = files fs !! path) /\
    (forall (opts : extractStreamOptions) (ex : string -> Archive)
            (before after : list ArchiveFile) (f : ArchiveFile) (fs1 : Filesystem),
       opens fs dir file opts ->
       Extractor (Format_ opts) = Some ex ->
       entries (ex (Reader_ opts)) = (before ++ f :: after)%list ->
       escapes fs opts f ->
       ctx (List.length before) = false ->
       Extract_from ctx 0 before None (extract_entry opts) fs = (fs1, inr tt) ->
       DecompressFile ctx dir file fs
       = (fs1, inl (HandlingFile (NameInArchive f)
                      (WrapError (FsError ErrCodePathResolution) (FileName opts))))) /\
    (forall (opts : extractStreamOptions) (ex : string -> Archive) (f : ArchiveFile),
       opens fs dir file opts ->
       Extractor (Format_ opts) = Some ex ->
       In f (entries (ex (Reader_ opts))) ->
       escapes fs opts f ->
       exists e, result (DecompressFile ctx dir file fs) = inl e).

(** ** Properties of the safe filesystem *)

Lemma same_view_refl (fs : Filesystem) : same_view fs fs.
Proof. repeat split. Qed.

Lemma confined_refl (fs : Filesystem) : confined fs fs.
Proof. split; [apply same_view_refl | reflexivity]. Qed.

Lemma confined_trans (fs1 fs2 fs3 : Filesystem) :
  confined fs1 fs2 -> confined fs2 fs3 -> confined fs1 fs3.
Proof.
  intros [(Hr & Hd & He & Hl) H12] [(Hr' & Hd' & He' & Hl') H23]. split.
  - repeat split; congruence.
  - intros path Hout. rewrite H23 by (rewrite Hr; exact Hout). apply H12. exact Hout.
Qed.

Lemma SafePath_within (fs : Filesystem) (p r : string) :
  SafePath fs p = inr r -> within (root fs) r = true.
Proof.
  unfold SafePath.
  destruct (within (root fs) (expand fs (Clean (Join [root fs; TrimPrefix p (root fs)]))))
    eqn:E; [|discriminate].
  intros H. injection H as <-. exact E.
Qed.

Lemma SafePath_error (fs : Filesystem) (p : string) (e : Error) :
  SafePath fs p = inl e -> e = FsError ErrCodePathResolution.
Proof.
  unfold SafePath.
  destruct (within (root fs) (expand fs (Clean (Join [root fs; TrimPrefix p (root fs)]))));
    [discriminate|].
  intros H. injection H as <-. reflexivity.
Qed.

Lemma SafePath_same_view (fs fs' : Filesystem) (p : string) :
  same_view fs fs' -> SafePath fs' p = SafePath fs p.
Proof. intros (Hr & _ & He & _). unfold SafePath. rewrite Hr, He. reflexivity. Qed.

Lemma IsIgnored_same_view (fs fs' : Filesystem) (p : string) :
  same_view fs fs' -> IsIgnored fs' p = IsIgnored fs p.
Proof. intros (_ & Hd & _ & _). unfold IsIgnored. rewrite Hd. reflexivity. Qed.

(** Changing the file at a resolved path stays inside the root. *)
Lemma confined_insert (fs : Filesystem) (r : string) (f : File) :
  within (root fs) r = true -> confined fs (with_files fs (<[r := f]> (files fs))).
Proof.
  intros Hin. split; [repeat split|].
  intros path Hout. cbn. apply lookup_insert_ne. congruence.
Qed.

Lemma confined_delete (fs : Filesystem) (r : string) :
  within (root fs) r = true -> confined fs (with_files fs (delete r (files fs))).
Proof.
  intros Hin. split; [repeat split|].
  intros path Hout. cbn. apply lookup_delete_ne. congruence.
Qed.

Lemma confined_addDisk (fs : Filesystem) (n : Z) : confined fs (addDisk fs n).
Proof. split; [repeat split | reflexivity]. Qed.

Lemma Write_confined (p contents : string) (perm : Z) (fs : Filesystem) :
  confined fs (state (Write p contents perm fs)).
Proof.
  unfold Write, state. destruct (SafePath fs p) as [e|r] eqn:Hp; [apply confined_refl|].
  apply SafePath_within in Hp.
  destruct (HasSpaceFor fs (size contents)); cbn [fst].
  - apply confined_delete. exact Hp.
  - eapply confined_trans; [apply confined_insert; exact Hp | apply confined_addDisk].
Qed.

Lemma Chmod_confined (p : string) (perm : Z) (fs : Filesystem) :
  confined fs (state (Chmod p perm fs)).
Proof.
  unfold Chmod, state. destruct (SafePath fs p) as [e|r] eqn:Hp; [apply confined_refl|].
  apply SafePath_within in Hp.
  destruct (files fs !! r); cbn [fst]; [apply confined_insert; exact Hp | apply confined_refl].
Qed.

Lemma Chtimes_confined (p : string) (atime mtime' : Z) (fs : Filesystem) :
  confined fs (state (Chtimes p atime mtime' fs)).
Proof.
  unfold Chtimes, state. destruct (SafePath fs p) as [e|r] eqn:Hp; [apply confined_refl|].
  apply SafePath_within in Hp.
  destruct (files fs !! r); cbn [fst]; [apply confined_insert; exact Hp | apply confined_refl].
Qed.

Lemma wrapped_state {A} (c : M A) (resolved : string) (fs : Filesystem) :
  state (wrapped c resolved fs) = state (c fs).
Proof. unfold wrapped, state. destruct (c fs) as [fs' [e|a]]; reflexivity. Qed.

Lemma bind_confined {A B} (c : M A) (k : A -> M B) (fs : Filesystem) :
  confined fs (state (c fs)) ->
  (forall a, result (c fs) = inr a -> confined (state (c fs)) (state (k a (state (c fs))))) ->
  confined fs (state (bind c k fs)).
Proof.
  unfold bind, state, result. destruct (c fs) as [fs' [e|a]]; cbn [fst snd].
  - intros H _. exact H.
  - intros H Hk. eapply confined_trans; [exact H | apply Hk; reflexivity].
Qed.

Lemma Extract_from_confined (ctx : Context) (handleFile : ArchiveFile -> M unit)
    (broken_with : option Error) (es : list ArchiveFile) :
  (forall f fs, confined fs (state (handleFile f fs))) ->
  forall (i : nat) (fs : Filesystem),
    confined fs (state (Extract_from ctx i es broken_with handleFile fs)).
Proof.
  intros Hh. induction es as [|f es IH]; intros i fs; cbn [Extract_from].
  - destruct broken_with; apply confined_refl.
  - destruct (ctx i); [apply confined_refl|].
    specialize (Hh f fs). unfold state in *.
    destruct (handleFile f fs) as [fs' [e|[]]]; cbn [fst] in *; [exact Hh|].
    eapply confined_trans; [exact Hh | apply IH].
Qed.

(** Once a handler fails on an entry in every state with the same view, an
    archive that holds the entry does not extract successfully. *)
Lemma Extract_from_fails (ctx : Context) (handleFile : ArchiveFile -> M unit)
    (broken_with : option Error) (bad : ArchiveFile) (fs0 : Filesystem) :
  (forall f fs, confined fs (state (handleFile f fs))) ->
  (forall fs, same_view fs0 fs -> exists e, result (handleFile bad fs) = inl e) ->
  forall (es : list ArchiveFile) (i : nat) (fs : Filesystem),
    In bad es -> same_view fs0 fs ->
    exists e, result (Extract_from ctx i es broken_with handleFile fs) = inl e.
Proof.
  intros Hconf Hbad. induction es as [|f es IH]; intros i fs Hin Hview; [destruct Hin|].
  cbn [Extract_from]. destruct (ctx i); [eexists; reflexivity|].
  destruct Hin as [-> | Hin].
  - destruct (Hbad fs Hview) as [e He]. unfold result in *.
    destruct (handleFile bad fs) as [fs' [e'|[]]]; cbn [snd] in *; [eexists; reflexivity|].
    discriminate.
  - pose proof (Hconf f fs) as [Hv _]. unfold state, result in *.
    destruct (handleFile f fs) as [fs' [e'|[]]]; cbn [fst snd] in *; [eexists; reflexivity|].
    apply IH; [exact Hin|].
    destruct Hview as (a & b & c & d), Hv as (a' & b' & c' & d').
    repeat split; congruence.
Qed.

Lemma File_Write_confined (h : string) (off : nat) (buf : string) (fs : Filesystem) :
  within (root fs) h = true -> confined fs (File_Write h off buf fs).
Proof.
  intros Hin. unfold File_Write. destruct (files fs !! h); apply confined_insert; exact Hin.
Qed.

Lemma unixFS_OpenFile_confined (p : string) (fs : Filesystem) :
  confined fs (state (unixFS_OpenFile p fs)) /\
  forall h, result (unixFS_OpenFile p fs) = inr h -> within (root fs) h = true.
Proof.
  unfold unixFS_OpenFile, state, result.
  destruct (SafePath fs p) as [e|h] eqn:Hp; cbn [fst snd].
  - split; [apply confined_refl | discriminate].
  - apply SafePath_within in Hp.
    destruct (files fs !! h); cbn [fst snd].
    + split; [apply confined_refl|]. intros h' H. injection H as <-. exact Hp.
    + split; [apply confined_insert; exact Hp|]. intros h' H. injection H as <-. exact Hp.
Qed.

Lemma copy_chunks_confined (f : string) (reads : list string) (end_ : option Error) :
  forall (off : nat) (fs : Filesystem),
    within (root fs) f = true ->
    confined fs (state (UfsVariant.copy_chunks f off reads end_ fs)).
Proof.
  induction reads as [|buf rest IH]; intros off fs Hin; cbn [UfsVariant.copy_chunks].
  - destruct end_; apply confined_refl.
  - destruct (0 <? size buf); [|apply IH; exact Hin].
    destruct (HasSpaceFor fs (size buf)); [apply confined_refl|].
    assert (Hstep : confined fs (addDisk (File_Write f off buf fs) (size buf))).
    { eapply confined_trans; [apply File_Write_confined; exact Hin | apply confined_addDisk]. }
    eapply confined_trans; [exact Hstep|].
    apply IH. destruct Hstep as [(Hr & _) _]. rewrite Hr. exact Hin.
Qed.

Lemma extract_entry_confined_v1 (opts : extractStreamOptions) (f : ArchiveFile)
    (fs : Filesystem) :
  confined fs (state (SafePathVariant.extract_entry opts f fs)).
Proof.
  unfold SafePathVariant.extract_entry.
  destruct (IsDir f); [apply confined_refl|].
  destruct (IsIgnored fs _); [apply confined_refl|].
  destruct (Open f) as [e|r]; [apply confined_refl|].
  apply bind_confined; [rewrite !wrapped_state; apply Write_confined|]. intros _ _.
  apply bind_confined; [rewrite !wrapped_state; apply Chmod_confined|]. intros _ _.
  rewrite !wrapped_state. apply Chtimes_confined.
Qed.

Lemma extract_entry_confined_v2 (decode : Z -> Z) (opts : extractStreamOptions)
    (f : ArchiveFile) (fs : Filesystem) :
  confined fs (state (UfsVariant.extract_entry decode opts f fs)).
Proof.
  unfold UfsVariant.extract_entry, UfsVariant.decodeGBK.
  destruct (IsDir f); [apply confined_refl|].
  destruct (IsIgnored fs _); [apply confined_refl|].
  destruct (Open f) as [e|r]; [apply confined_refl|].
  apply bind_confined; [rewrite !wrapped_state; apply Write_confined|]. intros _ _.
  rewrite !wrapped_state. apply Chtimes_confined.
Qed.

Lemma extractStream_confined_v1 (ctx : Context) (opts : extractStreamOptions)
    (fs : Filesystem) :
  confined fs (state (SafePathVariant.extractStream ctx opts fs)).
Proof.
  unfold SafePathVariant.extractStream, Extract.
  destruct (Extractor (Format_ opts)) as [ex|]; [|apply confined_refl].
  apply Extract_from_confined. apply extract_entry_confined_v1.
Qed.

Lemma extractStream_confined_v2 (decode : Z -> Z) (ctx : Context)
    (opts : extractStreamOptions) (fs : Filesystem) :
  confined fs (state (UfsVariant.extractStream decode ctx opts fs)).
Proof.
  unfold UfsVariant.extractStream, Extract.
  destruct (Extractor (Format_ opts)) as [ex|].
  { apply Extract_from_confined. apply extract_entry_confined_v2. }
  destruct (Decompressor (Format_ opts)) as [OpenReader|]; [|apply confined_refl].
  destruct (IsIgnored fs _); [apply confined_refl|].
  destruct (OpenReader (Reader_ opts)) as [e|reader]; [apply confined_refl|].
  destruct (unixFS_OpenFile_confined
              (Join [Directory opts; TrimSuffix (FileName opts) (FormatName (Format_ opts))]) fs)
    as [Hopen Hh].
  apply bind_confined; [exact Hopen|].
  intros h Hres. apply copy_chunks_confined.
  destruct Hopen as [(Hr & _) _]. rewrite Hr. apply Hh. exact Hres.
Qed.

(** The handler answers an escaping entry with the path-resolution error and
    changes nothing. *)
Lemma extract_entry_escape_v2 (decode : Z -> Z) (opts : extractStreamOptions)
    (f : ArchiveFile) (fs : Filesystem) :
  UfsVariant.escapes decode fs opts f ->
  UfsVariant.extract_entry decode opts f fs
  = (fs, inl (WrapError (FsError ErrCodePathResolution) (FileName opts))).
Proof.
  intros (Hdir & Hdeny & [r Hopen] & [e He]).
  apply SafePath_error in He as He'. subst e.
  unfold UfsVariant.extract_entry, UfsVariant.decodeGBK, IsIgnored.
  rewrite Hdir, Hdeny, Hopen.
  unfold UfsVariant.target in He.
  unfold bind, wrapped, Write. rewrite He. reflexivity.
Qed.

Lemma escapes_same_view_v2 (decode : Z -> Z) (opts : extractStreamOptions)
    (f : ArchiveFile) (fs fs' : Filesystem) :
  same_view fs fs' ->
  UfsVariant.escapes decode fs opts f -> UfsVariant.escapes decode fs' opts f.
Proof.
  intros Hview (Hdir & Hdeny & Hopen & He).
  pose proof Hview as (_ & Hd & _ & _).
  repeat split; [exact Hdir | rewrite Hd; exact Hdeny | exact Hopen|].
  rewrite (SafePath_same_view _ _ _ Hview). exact He.
Qed.

(** The error an escaping entry ends the extraction with is of kind
    path resolution. *)
Example code_of_rejected_entry (name archive : string) :
  code_of (HandlingFile name (WrapError (FsError ErrCodePathResolution) archive))
  = Some ErrCodePathResolution.
Proof. reflexivity. Qed.

Lemma Extract_from_app (ctx : Context) (handleFile : ArchiveFile -> M unit)
    (broken_with : option Error) (before rest : list ArchiveFile) :
  forall (i : nat) (fs fs1 : Filesystem),
    Extract_from ctx i before None handleFile fs = (fs1, inr tt) ->
    Extract_from ctx i (before ++ rest) broken_with handleFile fs
    = Extract_from ctx (i + List.length before) rest broken_with handleFile fs1.
Proof.
  induction before as [|f before IH]; intros i fs fs1; cbn [Extract_from app List.length].
  - unfold ret. intros H. injection H as <-. rewrite Nat.add_0_r. reflexivity.
  - destruct (ctx i); [discriminate|].
    destruct (handleFile f fs) as [fs' [e|[]]]; [discriminate|].
    intros H. rewrite (IH (S i) fs' fs1 H). f_equal. lia.
Qed.

Lemma Extract_from_keeps_view (ctx : Context) (handleFile : ArchiveFile -> M unit)
    (broken_with : option Error) (es : list ArchiveFile) (i : nat) (fs : Filesystem) :
  (forall f fs, confined fs (state (handleFile f fs))) ->
  same_view fs (state (Extract_from ctx i es broken_with handleFile fs)).
Proof. intros H. apply (Extract_from_confined ctx handleFile broken_with es H i fs). Qed.

Lemma rejects_escapes_of
    (extract_entry : extractStreamOptions -> ArchiveFile -> M unit)
    (extractStream : Context -> extractStreamOptions -> M unit)
    (escapes : Filesystem -> extractStreamOptions -> ArchiveFile -> Prop) :
  (forall ctx opts fs, confined fs (state (extractStream ctx opts fs))) ->
  (forall ctx opts ex, Extractor (Format_ opts) = Some ex ->
     extractStream ctx opts = Extract ctx (ex (Reader_ opts)) (extract_entry opts)) ->
  (forall opts f fs, confined fs (state (extract_entry opts f fs))) ->
  (forall opts f fs, escapes fs opts f ->
     extract_entry opts f fs
     = (fs, inl (WrapError (FsError ErrCodePathResolution) (FileName opts)))) ->
  (forall opts f fs fs', same_view fs fs' -> escapes fs opts f -> escapes fs' opts f) ->
  rejects_escapes extractStream extract_entry escapes.
Proof.
  intros Hstream Hshape Hentry Hescape Hview ctx opts fs. repeat apply conj.
  - apply Hstream.
  - intros ex before after f fs1 Hex Hentries Hf Hctx Hbefore.
    rewrite (Hshape ctx opts ex Hex). unfold Extract. rewrite Hentries.
    rewrite (Extract_from_app _ _ _ _ _ _ _ _ Hbefore).
    cbn [Extract_from Nat.add]. rewrite Hctx.
    assert (Hv : same_view fs fs1).
    { pose proof (Extract_from_keeps_view ctx (extract_entry opts) None before 0 fs
                    (Hentry opts)) as H.
      rewrite Hbefore in H. exact H. }
    rewrite (Hescape opts f fs1 (Hview opts f fs fs1 Hv Hf)). reflexivity.
  - intros ex f Hex Hin Hf.
    rewrite (Hshape ctx opts ex Hex). unfold Extract.
    apply (Extract_from_fails ctx (extract_entry opts) _ f fs (Hentry opts)).
    + intros fs' Hv. eexists.
      rewrite (Hescape opts f fs' (Hview opts f fs fs' Hv Hf)). reflexivity.
    + exact Hin.
    + apply same_view_refl.
Qed.

(** The first variant's handler answers an escaping entry with the
    path-resolution error [Writefile] gets from [SafePath], and changes
    nothing. *)
Lemma extract_entry_escape_v1 (opts : extractStreamOptions) (f : ArchiveFile)
    (fs : Filesystem) :
  SafePathVariant.escapes fs opts f ->
  SafePathVariant.extract_entry opts f fs
  = (fs, inl (WrapError (FsError ErrCodePathResolution) (FileName opts))).
Proof.
  intros (Hdir & Hdeny & [r Hopen] & [e He]).
  apply SafePath_error in He as He'. subst e.
  unfold SafePathVariant.extract_entry, IsIgnored.
  rewrite Hdir, Hdeny, Hopen.
  unfold bind, wrapped, Writefile, Write. rewrite He. reflexivity.
Qed.

Lemma escapes_same_view_v1 (opts : extractStreamOptions) (f : ArchiveFile)
    (fs fs' : Filesystem) :
  same_view fs fs' ->
  SafePathVariant.escapes fs opts f -> SafePathVariant.escapes fs' opts f.
Proof.
  intros Hview (Hdir & Hdeny & Hopen & He).
  pose proof Hview as (_ & Hd & _ & _).
  repeat split; [exact Hdir | rewrite Hd; exact Hdeny | exact Hopen|].
  rewrite (SafePath_same_view _ _ _ Hview). exact He.
Qed.

Lemma DecompressFileUnsafe_confined_v1
    (Identify : string -> string -> Error + (Format * string)) (ctx : Context)
    (dir file : string) (fs : Filesystem) :
  confined fs (state (SafePathVariant.DecompressFileUnsafe Identify ctx dir file fs)).
Proof.
  unfold SafePathVariant.DecompressFileUnsafe.
  destruct (files fs !! file) as [f|]; [|apply confined_refl].
  destruct (Identify (Base file) (data f)) as [e|[format input]]; [apply confined_refl|].
  apply extractStream_confined_v1.
Qed.

Lemma DecompressFile_confined_v1
    (Identify : string -> string -> Error + (Format * string)) (ctx : Context)
    (dir file : string) (fs : Filesystem) :
  confined fs (state (SafePathVariant.DecompressFile Identify ctx dir file fs)).
Proof.
  unfold SafePathVariant.DecompressFile.
  destruct (SafePath fs (Join [dir; file])) as [e|source]; [apply confined_refl|].
  apply DecompressFileUnsafe_confined_v1.
Qed.

Lemma DecompressFile_confined_v2 (decode : Z -> Z)
    (Identify : string -> string -> Error + (Format * string)) (ctx : Context)
    (dir file : string) (fs : Filesystem) :
  confined fs (state (UfsVariant.DecompressFile decode Identify ctx dir file fs)).
Proof.
  unfold UfsVariant.DecompressFile.
  apply bind_confined.
  - unfold unixFS_Open. destruct (SafePath fs (Join [dir; file])) as [e|h];
      [apply confined_refl|].
    destruct (files fs !! h); apply confined_refl.
  - intros contents _.
    destruct (Identify (Base file) contents) as [e|[format input]]; [apply confined_refl|].
    apply extractStream_confined_v2.
Qed.

(** Once the archive opens and is identified, [DecompressFile] is
    [extractStream] on what was identified. *)
Lemma DecompressFile_opens_v1
    (Identify : string -> string -> Error + (Format * string)) (ctx : Context)
    (dir file : string) (fs : Filesystem) (opts : extractStreamOptions) :
  SafePathVariant.opens Identify fs dir file opts ->
  SafePathVariant.DecompressFile Identify ctx dir file fs
  = SafePathVariant.extractStream ctx opts fs.
Proof.
  intros (source & archive & Hp & Hf & Hid & Hd & Hn).
  unfold SafePathVariant.DecompressFile, SafePathVariant.DecompressFileUnsafe.
  rewrite Hp, Hf, Hid. destruct opts as [d n fmt rd]. cbn in Hd, Hn |- *. subst. reflexivity.
Qed.

Lemma DecompressFile_opens_v2 (decode : Z -> Z)
    (Identify : string -> string -> Error + (Format * string)) (ctx : Context)
    (dir file : string) (fs : Filesystem) (opts : extractStreamOptions) :
  UfsVariant.opens Identify fs dir file opts ->
  UfsVariant.DecompressFile decode Identify ctx dir file fs
  = UfsVariant.extractStream decode ctx opts fs.
Proof.
  intros (contents & Hopen & Hid & Hd & Hn).
  unfold UfsVariant.DecompressFile, bind.
  rewrite Hopen, Hid. destruct opts as [d n fmt rd]. cbn in Hd, Hn |- *. subst. reflexivity.
Qed.

Lemma DecompressFile_rejects_escapes_of
    (DecompressFile : Context -> string -> string -> M unit)
    (opens : Filesystem -> string -> string -> extractStreamOptions -> Prop)
    (extractStream : Context -> extractStreamOptions -> M unit)
    (extract_entry : extractStreamOptions -> ArchiveFile -> M unit)
    (escapes : Filesystem -> extractStreamOptions -> ArchiveFile -> Prop) :
  (forall ctx dir file fs, confined fs (state (DecompressFile ctx dir file fs))) ->
  (forall ctx dir file fs opts,
     opens fs dir file opts -> DecompressFile ctx dir file fs = extractStream ctx opts fs) ->
  rejects_escapes extractStream extract_entry escapes ->
  DecompressFile_rejects_escapes DecompressFile opens extract_entry escapes.
Proof.
  intros Hconf Hopens Hrej ctx dir file fs. repeat apply conj.
  - apply Hconf.
  - intros opts ex before after f fs1 Ho Hex Hentries Hf Hctx Hbefore.
    rewrite (Hopens ctx dir file fs opts Ho).
    destruct (Hrej ctx opts fs) as (_ & Hstop & _).
    apply (Hstop ex before after f fs1); assumption.
  - intros opts ex f Ho Hex Hin Hf.
    rewrite (Hopens ctx dir file fs opts Ho).
    destruct (Hrej ctx opts fs) as (_ & _ & Hnever).
    apply (Hnever ex f); assumption.
Qed.

Lemma rejects_escapes_v2 (decode : Z -> Z) :
  rejects_escapes (UfsVariant.extractStream decode) (UfsVariant.extract_entry decode)
                  (UfsVariant.escapes decode).
Proof.
  apply rejects_escapes_of.
  - intros ctx opts fs. apply extractStream_confined_v2.
  - intros ctx opts ex Hex. unfold UfsVariant.extractStream. rewrite Hex. reflexivity.
  - intros opts f fs. apply extract_entry_confined_v2.
  - intros opts f fs. apply extract_entry_escape_v2.
  - intros opts f fs fs'. apply escapes_same_view_v2.
Qed.

Lemma rejects_escapes_v1 :
  rejects_escapes SafePathVariant.extractStream SafePathVariant.extract_entry
                  SafePathVariant.escapes.
Proof.
  apply rejects_escapes_of.
  - intros ctx opts fs. apply extractStream_confined_v1.
  - intros ctx opts ex Hex. unfold SafePathVariant.extractStream. rewrite Hex. reflexivity.
  - intros opts f fs. apply extract_entry_confined_v1.
  - intros opts f fs. apply extract_entry_escape_v1.
  - intros opts f fs fs'. apply escapes_same_view_v1.
Qed.

(** C1, as the code has it.  What confines decompression is the server root,
    not the directory extracted into.  In both variants, [extractStream] and
    [DecompressFile] create, change or remove no file outside the root; an
    entry that is a file, is not denied, opens, and whose joined path (in the
    second variant: that path decoded from GBK) does not resolve within the
    root ends the extraction, when it is reached, with the path-resolution
    error of that entry; and an archive that holds such an entry never
    extracts successfully. *)
Theorem zip_slip_is_kept_in_the_root (decode : Z -> Z)
    (Identify : string -> string -> Error + (Format * string)) :
  rejects_escapes (UfsVariant.extractStream decode) (UfsVariant.extract_entry decode)
                  (UfsVariant.escapes decode) /\
  rejects_escapes SafePathVariant.extractStream SafePathVariant.extract_entry
                  SafePathVariant.escapes /\
  DecompressFile_rejects_escapes
    (UfsVariant.DecompressFile decode Identify) (UfsVariant.opens Identify)
    (UfsVariant.extract_entry decode) (UfsVariant.escapes decode) /\
  DecompressFile_rejects_escapes
    (SafePathVariant.DecompressFile Identify) (SafePathVariant.opens Identify)
    SafePathVariant.extract_entry SafePathVariant.escapes.
Proof.
  split; [apply rejects_escapes_v2|].
  split; [apply rejects_escapes_v1|].
  split.
  - apply (DecompressFile_rejects_escapes_of _ _ (UfsVariant.extractStream decode)).
    + intros ctx dir file fs. apply DecompressFile_confined_v2.
    + intros ctx dir file fs opts. apply DecompressFile_opens_v2.
    + apply rejects_escapes_v2.
  - apply (DecompressFile_rejects_escapes_of _ _ SafePathVariant.extractStream).
    + intros ctx dir file fs. apply DecompressFile_confined_v1.
    + intros ctx dir file fs opts. apply DecompressFile_opens_v1.
    + apply rejects_escapes_v1.
Qed.

(** An archive with the single entry [../evil], extracted into the root
    itself (directory given as the empty path), is refused by both variants;
    and decompressing [a.zip] into [data] extracts [ok.txt] and ends at
    [../../etc/passwd] with its path-resolution error, in both variants. *)
Lemma zip_slip_is_kept_in_the_root_witness :
  UfsVariant.extractStream (fun _ => 0) never_cancelled
    {| Directory := ""; FileName := "a.zip";
       Format_ := zip_of [regular "../evil" "x"]; Reader_ := "" |}
    (server 0 0 ∅)
  = (server 0 0 ∅,
     inl (HandlingFile "../evil" (WrapError (FsError ErrCodePathResolution) "a.zip"))) /\
  SafePathVariant.extractStream never_cancelled
    {| Directory := ""; FileName := "a.zip";
       Format_ := zip_of [regular "../evil" "x"]; Reader_ := "" |}
    (server 0 0 ∅)
  = (server 0 0 ∅,
     inl (HandlingFile "../evil" (WrapError (FsError ErrCodePathResolution) "a.zip"))) /\
  UfsVariant.DecompressFile (fun _ => 0) (identify_as (zip_of slip_archive)) never_cancelled
    "data" "a.zip" server_with_slip
  = (server 0 4 (<[ "/srv/data/ok.txt" := {| data := "hi"; mode := 420; mtime := 7 |} ]>
                   (files server_with_slip)),
     inl (HandlingFile "../../etc/passwd"
            (WrapError (FsError ErrCodePathResolution) "a.zip"))) /\
  SafePathVariant.DecompressFile (identify_as (zip_of slip_archive)) never_cancelled
    "data" "a.zip" server_with_slip
  = (server 0 4 (<[ "/srv/data/ok.txt" := {| data := "hi"; mode := 420; mtime := 7 |} ]>
                   (files server_with_slip)),
     inl (HandlingFile "../../etc/passwd" (WrapError (FsError ErrCodePathResolution) ""))).
Proof.
  pose proof (zip_slip_is_kept_in_the_root (fun _ => 0) (identify_as (zip_of slip_archive)))
    as (Hv2 & Hv1 & Hd2 & Hd1).
  split; [|split; [|split]].
  - apply (proj1 (proj2 (Hv2 never_cancelled
                           {| Directory := ""; FileName := "a.zip";
                              Format_ := zip_of [regular "../evil" "x"]; Reader_ := "" |}
                           (server 0 0 ∅)))
             (fun _ => {| entries := [regular "../evil" "x"]; broken := None |})
             [] [] (regular "../evil" "x") (server 0 0 ∅)).
    + reflexivity.
    + reflexivity.
    + unfold UfsVariant.escapes. repeat split.
      * exists "x". reflexivity.
      * exists (FsError ErrCodePathResolution). vm_compute. reflexivity.
    + reflexivity.
    + reflexivity.
  - apply (proj1 (proj2 (Hv1 never_cancelled
                           {| Directory := ""; FileName := "a.zip";
                              Format_ := zip_of [regular "../evil" "x"]; Reader_ := "" |}
                           (server 0 0 ∅)))
             (fun _ => {| entries := [regular "../evil" "x"]; broken := None |})
             [] [] (regular "../evil" "x") (server 0 0 ∅)).
    + reflexivity.
    + reflexivity.
    + unfold SafePathVariant.escapes. repeat split.
      * exists "x". reflexivity.
      * exists (FsError ErrCodePathResolution). vm_compute. reflexivity.
    + reflexivity.
    + reflexivity.
  - apply (proj1 (proj2 (Hd2 never_cancelled "data" "a.zip" server_with_slip))
             {| Directory := "data"; FileName := "a.zip";
                Format_ := zip_of slip_archive; Reader_ := "PK" |}
             (fun _ => {| entries := slip_archive; broken := None |})
             [regular "ok.txt" "hi"] [] (regular "../../etc/passwd" "x")).
    + exists "PK". repeat split; vm_compute; reflexivity.
    + reflexivity.
    + reflexivity.
    + unfold UfsVariant.escapes. repeat split.
      * exists "x". reflexivity.
      * exists (FsError ErrCodePathResolution). vm_compute. reflexivity.
    + reflexivity.
    + vm_compute. reflexivity.
  - apply (proj1 (proj2 (Hd1 never_cancelled "data" "a.zip" server_with_slip))
             {| Directory := "data"; FileName := "";
                Format_ := zip_of slip_archive; Reader_ := "PK" |}
             (fun _ => {| entries := slip_archive; broken := None |})
             [regular "ok.txt" "hi"] [] (regular "../../etc/passwd" "x")).
    + exists "/srv/data/a.zip", {| data := "PK"; mode := 420; mtime := 0 |}.
      repeat split; vm_compute; reflexivity.
    + reflexivity.
    + reflexivity.
    + unfold SafePathVariant.escapes. repeat split.
      * exists "x". reflexivity.
      * exists (FsError ErrCodePathResolution). vm_compute. reflexivity.
    + reflexivity.
    + vm_compute. reflexivity.
Defined.

(** C1 as stated fails for its second half: the entry [../evil]
    of an archive extracted into the directory [sub] is accepted, and the
    file is created beside [sub], at [/srv/evil].  In the second variant this
    holds whatever the GBK table is, the path being ASCII.  And an entry with
    an escaping name that is a directory is passed over without an error. *)
Lemma zip_slip_leaves_the_directory_counterexample :
  SafePathVariant.extractStream never_cancelled
    {| Directory := "sub"; FileName := "a.zip";
       Format_ := zip_of [regular "../evil" "x"]; Reader_ := "" |}
    (server 0 0 ∅)
  = (server 0 1 {[ "/srv/evil" := {| data := "x"; mode := 420; mtime := 7 |} ]}, inr tt) /\
  within "/srv/sub" "/srv/evil" = false /\
  (forall decode : Z -> Z,
     UfsVariant.extractStream decode never_cancelled
       {| Directory := "sub"; FileName := "a.zip";
          Format_ := zip_of [regular "../evil" "x"]; Reader_ := "" |}
       (server 0 0 ∅)
     = (server 0 1 {[ "/srv/evil" := {| data := "x"; mode := 420; mtime := 7 |} ]}, inr tt)) /\
  (forall decode : Z -> Z,
     UfsVariant.extractStream decode never_cancelled
       {| Directory := ""; FileName := "a.zip";
          Format_ := zip_of [{| NameInArchive := "../evil/"; IsDir := true; FileSize := 0;
                                Mode := 493; ModTime := 7; Open := inr "" |}];
          Reader_ := "" |}
       (server 0 0 ∅)
     = (server 0 0 ∅, inr tt)).
Proof.
  split; [|split; [|split]].
  - vm_compute. reflexivity.
  - reflexivity.
  - intros decode. vm_compute. reflexivity.
  - intros decode. reflexivity.
Qed.

(** C4, as the code has it.  For an entry of a container archive that is a
    file and opens, the second variant decodes the joined path from GBK
    whether or not the name is valid UTF-8 (an ASCII path comes out
    unchanged).  The denylist is consulted on the path before decoding, and a
    denied entry is skipped without error.  The decoded path is the one
    [Write] checks with [SafePath] and the one written: a path-resolution
    failure is returned wrapped, and otherwise, quota allowing, the file with
    the entry's contents, mode and time is at the resolved decoded path.  In
    the first variant the handler of [ExtractStreamUnsafe] converts the name
    and drops the result: it is the handler of [extractStream], which writes
    under the name as the archive declares it. *)
Theorem entry_paths_are_decoded_from_gbk (decode : Z -> Z) (opts : extractStreamOptions)
    (f : ArchiveFile) (contents : string) (fs : Filesystem) :
  IsDir f = false -> Open f = inr contents ->
  (Encoding.is_ascii (Join [Directory opts; NameInArchive f]) = true ->
   UfsVariant.target decode opts f = Join [Directory opts; NameInArchive f]) /\
  (denylist fs (Join [Directory opts; NameInArchive f]) = true ->
   UfsVariant.extract_entry decode opts f fs = (fs, inr tt)) /\
  (denylist fs (Join [Directory opts; NameInArchive f]) = false ->
   (forall e, SafePath fs (UfsVariant.target decode opts f) = inl e ->
      UfsVariant.extract_entry decode opts f fs = (fs, inl (WrapError e (FileName opts)))) /\
   (forall r, SafePath fs (UfsVariant.target decode opts f) = inr r ->
      HasSpaceFor fs (size contents) = None ->
      result (UfsVariant.extract_entry decode opts f fs) = inr tt /\
      files (state (UfsVariant.extract_entry decode opts f fs)) !! r
      = Some {| data := contents; mode := Mode f; mtime := ModTime f |})) /\
  SafePathVariant.extract_entry_unsafe decode opts f fs
  = SafePathVariant.extract_entry opts f fs.
Proof.
  intros Hdir Hopen. repeat apply conj.
  - intros Hascii. unfold UfsVariant.target. apply Encoding.gbk_to_utf8_ascii. exact Hascii.
  - intros Hdeny. unfold UfsVariant.extract_entry, IsIgnored. rewrite Hdir, Hdeny. reflexivity.
  - intros Hdeny. split; [intros e He | intros r Hr Hfit].
    { unfold UfsVariant.extract_entry, UfsVariant.decodeGBK, IsIgnored.
      rewrite Hdir, Hdeny, Hopen. unfold UfsVariant.target in He.
      unfold bind, wrapped, Write. rewrite He. reflexivity. }
    unfold UfsVariant.extract_entry, UfsVariant.decodeGBK, IsIgnored.
    rewrite Hdir, Hdeny, Hopen. unfold UfsVariant.target in Hr.
    unfold bind, wrapped, Write. rewrite Hr, Hfit.
    unfold Chtimes.
    match goal with
    | |- context [SafePath ?fs' ?p] =>
      lazymatch fs' with
      | fs => fail
      | _ => replace (SafePath fs' p) with (SafePath fs p)
               by (symmetry; apply SafePath_same_view; repeat split)
      end
    end.
    rewrite Hr. cbn [files addDisk with_disk_used with_files].
    rewrite lookup_insert_eq. cbn [state result fst snd files with_files data mode].
    split; [reflexivity|]. rewrite lookup_insert_eq. reflexivity.
  - unfold SafePathVariant.extract_entry_unsafe, SafePathVariant.extract_entry,
      SafePathVariant.convertToUTF8.
    rewrite Hdir, Hopen. reflexivity.
Qed.

Lemma entry_paths_are_decoded_from_gbk_witness :
  UfsVariant.target (fun _ => 0)
    {| Directory := "logs"; FileName := "a.zip"; Format_ := zip_of []; Reader_ := "" |}
    (regular "latest.log" "x")
  = "logs/latest.log" /\
  files (state (UfsVariant.extract_entry (fun _ => 0)
                  {| Directory := "logs"; FileName := "a.zip"; Format_ := zip_of [];
                     Reader_ := "" |}
                  (regular "latest.log" "x") (server 0 0 ∅))) !! "/srv/logs/latest.log"
  = Some {| data := "x"; mode := 420; mtime := 7 |}.
Proof.
  pose proof (entry_paths_are_decoded_from_gbk (fun _ => 0)
                {| Directory := "logs"; FileName := "a.zip"; Format_ := zip_of [];
                   Reader_ := "" |}
                (regular "latest.log" "x") "x" (server 0 0 ∅) eq_refl eq_refl)
    as (Hascii & _ & Hwrite & _).
  split.
  - apply Hascii. vm_compute. reflexivity.
  - apply (proj2 (Hwrite eq_refl) "/srv/logs/latest.log"); vm_compute; reflexivity.
Defined.

(** C4 as stated fails for a name that is valid UTF-8 and not
    ASCII: the entry named U+4E2D in directory [d] is not written under its
    declared path, whose five bytes the decoder turns into six or more. *)
Lemma valid_utf8_name_is_decoded_counterexample :
  Encoding.ValidString Encoding.u4E2D = true /\
  Join ["d"; Encoding.u4E2D] = Encoding.d_u4E2D /\
  String.length Encoding.d_u4E2D = 5%nat /\
  (forall decode : Z -> Z,
     5 < String.length
           (UfsVariant.target decode
              {| Directory := "d"; FileName := "a.zip"; Format_ := zip_of []; Reader_ := "" |}
              (regular Encoding.u4E2D "x")))%nat.
Proof.
  split; [vm_compute; reflexivity|].
  split; [vm_compute; reflexivity|].
  split; [vm_compute; reflexivity|].
  intros decode. unfold UfsVariant.target.
  replace (Join [Directory {| Directory := "d"; FileName := "a.zip"; Format_ := zip_of [];
                             Reader_ := "" |};
                 NameInArchive (regular Encoding.u4E2D "x")])
    with Encoding.d_u4E2D by (vm_compute; reflexivity).
  apply Encoding.gbk_to_utf8_grows.
Qed.

(** ** Properties of [CompressFiles] *)

Lemma append_empty_r (s : string) : String.append s "" = s.
Proof.
  induction s as [|c s IH]; [reflexivity|].
  change (String.append (String c s) "") with (String c (String.append s "")).
  f_equal. exact IH.
Qed.

Lemma overwrite_empty (buf : string) : overwrite "" 0 buf = buf.
Proof.
  unfold overwrite. cbn [String.substring String.length Nat.add Nat.sub].
  change (String.append "" ?x) with x.
  destruct (String.length buf); cbn [String.substring]; apply append_empty_r.
Qed.

Lemma HasSpaceFor_with_files (fs : Filesystem) (m : gmap string File) (n : Z) :
  HasSpaceFor (with_files fs m) n = HasSpaceFor fs n.
Proof. reflexivity. Qed.

Lemma File_Write_shape (h : string) (off : nat) (buf : string) (fs : Filesystem) :
  exists f', File_Write h off buf fs = with_files fs (<[h := f']> (files fs)) /\
             (files fs !! h = None -> data f' = buf) /\
             (forall f, files fs !! h = Some f -> data f' = overwrite (data f) off buf).
Proof.
  unfold File_Write. destruct (files fs !! h) as [f|]; eexists; (split; [reflexivity|]);
    cbn [data]; split; congruence.
Qed.

(** The loop over the caller's slice replaces every element by its join. *)
Lemma join_each_map (c : string) (ranged done : list string) :
  SafePathVariant.join_each c (List.length done) ranged (done ++ ranged)%list
  = (done ++ List.map (fun p => Join [c; p]) ranged)%list.
Proof.
  revert done. induction ranged as [|p rest IH]; intros done; [reflexivity|].
  cbn [SafePathVariant.join_each List.map].
  replace (List.length done) with (List.length done + 0)%nat at 2 by lia.
  rewrite insert_app_r. cbn [insert list_insert].
  replace (done ++ Join [c; p] :: rest)%list with ((done ++ [Join [c; p]]) ++ rest)%list
    by (rewrite <- app_assoc; reflexivity).
  replace (S (List.length done)) with (List.length (done ++ [Join [c; p]])%list)
    by (rewrite length_app; cbn; lia).
  rewrite IH. rewrite <- app_assoc. reflexivity.
Qed.

Lemma CompressFiles_paths (dir : string) (paths : list string) (now_rfc3339 : string)
    (a : ArchiveRun) (fs : Filesystem) (c : string) :
  SafePath fs dir = inr c ->
  SafePathVariant.CompressFiles dir paths now_rfc3339 a fs
  = (List.map (fun p => Join [c; p]) paths,
     match ParallelSafePath fs (List.map (fun p => Join [c; p]) paths) with
     | inl e => (fs, inl e)
     | inr cleaned =>
       (run Archive_Create (Join [c; archive_name now_rfc3339]) a;
        fun fs1 =>
          match os_Stat (Join [c; archive_name now_rfc3339]) fs1 with
          | (_, inl e) => (state (os_Remove (Join [c; archive_name now_rfc3339]) fs1), inl e)
          | (_, inr f) =>
            match HasSpaceFor fs1 (Size f) with
            | Some e => (state (os_Remove (Join [c; archive_name now_rfc3339]) fs1), inl e)
            | None => (addDisk fs1 (Size f), inr f)
            end
          end) fs
     end).
Proof.
  intros Hdir. unfold SafePathVariant.CompressFiles. rewrite Hdir.
  pose proof (join_each_map c paths []) as Hloop. cbn [List.length app] in Hloop.
  rewrite Hloop. reflexivity.
Qed.

(** C8, as the code has it.  The first variant of [CompressFiles] resolves
    the directory first and returns its error with the caller's slice as it
    was handed in.  Once [SafePath(dir)] has given the cleaned directory,
    every element of the slice is replaced by its join with that directory,
    whatever the call does next; the validation comes after and runs on the
    joined paths: when it fails the call fails with its error, the filesystem
    untouched and the slice rewritten all the same. *)
Theorem CompressFiles_rewrites_the_callers_slice (dir : string) (paths : list string)
    (now_rfc3339 : string) (a : ArchiveRun) (fs : Filesystem) :
  (forall e : Error,
     SafePath fs dir = inl e ->
     SafePathVariant.CompressFiles dir paths now_rfc3339 a fs = (paths, (fs, inl e))) /\
  (forall cleanedRootDir : string,
     SafePath fs dir = inr cleanedRootDir ->
     fst (SafePathVariant.CompressFiles dir paths now_rfc3339 a fs)
     = List.map (fun p => Join [cleanedRootDir; p]) paths /\
     (forall e : Error,
        ParallelSafePath fs (List.map (fun p => Join [cleanedRootDir; p]) paths) = inl e ->
        snd (SafePathVariant.CompressFiles dir paths now_rfc3339 a fs) = (fs, inl e))).
Proof.
  split.
  - intros e Hdir. unfold SafePathVariant.CompressFiles. rewrite Hdir. reflexivity.
  - intros cleanedRootDir Hdir. rewrite (CompressFiles_paths _ _ _ _ _ _ Hdir). cbn [fst snd].
    split; [reflexivity|]. intros e He. rewrite He. reflexivity.
Qed.

(** Compressing [a.txt] and the symlink [out] of directory [data]: the call
    fails on the symlink, and the slice holds the joined paths.  Compressing
    in [../x]: the call fails on the directory, and the slice is as it was. *)
Lemma CompressFiles_rewrites_the_callers_slice_witness :
  SafePathVariant.CompressFiles "data" ["a.txt"; "out"] "2024-05-01T10:00:00Z"
    {| produced := "tgz"; failure := None |} (server_with_link ∅)
  = (["/srv/data/a.txt"; "/srv/data/out"],
     (server_with_link ∅, inl (FsError ErrCodePathResolution))) /\
  SafePathVariant.CompressFiles "../x" ["a.txt"; "out"] "2024-05-01T10:00:00Z"
    {| produced := "tgz"; failure := None |} (server_with_link ∅)
  = (["a.txt"; "out"], (server_with_link ∅, inl (FsError ErrCodePathResolution))).
Proof.
  split.
  - pose proof (proj2 (CompressFiles_rewrites_the_callers_slice "data" ["a.txt"; "out"]
                         "2024-05-01T10:00:00Z" {| produced := "tgz"; failure := None |}
                         (server_with_link ∅)) "/srv/data" eq_refl) as [Hslice Hfail].
    specialize (Hfail (FsError ErrCodePathResolution) eq_refl).
    destruct (SafePathVariant.CompressFiles "data" ["a.txt"; "out"] "2024-05-01T10:00:00Z"
                {| produced := "tgz"; failure := None |} (server_with_link ∅)) as [slice r].
    cbn [fst snd] in Hslice, Hfail. rewrite Hslice, Hfail. reflexivity.
  - apply (proj1 (CompressFiles_rewrites_the_callers_slice "../x" ["a.txt"; "out"]
                    "2024-05-01T10:00:00Z" {| produced := "tgz"; failure := None |}
                    (server_with_link ∅))).
    reflexivity.
Defined.

(** C8 as stated fails for a call that fails on its directory:
    compressing [a.txt] and [b.txt] in [../x], which lies outside the root,
    returns the path-resolution error before the loop, and the caller's
    slice is not rewritten. *)
Lemma CompressFiles_keeps_the_slice_counterexample :
  SafePathVariant.CompressFiles "../x" ["a.txt"; "b.txt"] "2024-05-01T10:00:00Z"
    {| produced := "tgz"; failure := None |} (server 0 0 ∅)
  = (["a.txt"; "b.txt"], (server 0 0 ∅, inl (FsError ErrCodePathResolution))) /\
  List.map (fun p => Join ["/srv"; p]) ["a.txt"; "b.txt"] <> ["a.txt"; "b.txt"].
Proof. split; [vm_compute; reflexivity | vm_compute; discriminate]. Qed.

(** Second variant, stream finished: an archive that fits is counted and its
    file info returned; one that does not fit is removed with the disk-space
    error, and the removal takes the archive's size off [disk_used], to which
    [CompressFiles] had not added it. *)
Lemma CompressFiles_ufs_accounts (dir : string) (paths : list string) (now_rfc3339 : string)
    (a : ArchiveRun) (fs : Filesystem) (h : string) :
  failure a = None ->
  SafePath fs (Join [dir; archive_name now_rfc3339]) = inr h ->
  (HasSpaceFor fs (size (produced a)) = Some (FsError ErrCodeDiskSpace) ->
   result (UfsVariant.CompressFiles dir paths now_rfc3339 a fs)
   = inl (FsError ErrCodeDiskSpace) /\
   files (state (UfsVariant.CompressFiles dir paths now_rfc3339 a fs)) !! h = None /\
   (files fs !! h = None ->
    disk_used (state (UfsVariant.CompressFiles dir paths now_rfc3339 a fs))
    = disk_used fs - size (produced a))) /\
  (HasSpaceFor fs (size (produced a)) = None ->
   disk_used (state (UfsVariant.CompressFiles dir paths now_rfc3339 a fs))
   = disk_used fs + size (produced a) /\
   exists info : FileInfo,
     result (UfsVariant.CompressFiles dir paths now_rfc3339 a fs) = inr info /\
     Name info = Base h /\
     (files fs !! h = None -> Size info = size (produced a))).
Proof.
  intros Hok Hh.
  unfold UfsVariant.CompressFiles, bind.
  assert (Hopen : exists m,
             unixFS_OpenFile (Join [dir; archive_name now_rfc3339]) fs
             = (with_files fs m, inr h) /\
             (files fs !! h = None ->
              m !! h = Some {| data := ""; mode := 420; mtime := 0 |})).
  { unfold unixFS_OpenFile. rewrite Hh. destruct (files fs !! h) as [f|] eqn:E.
    - exists (files fs). split; [destruct fs; reflexivity | discriminate].
    - eexists. split; [reflexivity|]. intros _. apply lookup_insert_eq. }
  destruct Hopen as (m & -> & Hm).
  unfold Archive_Stream. rewrite Hok.
  destruct (File_Write_shape h 0 (produced a) (with_files fs m)) as (f' & -> & Hnew & Hold).
  cbn [files with_files] in *.
  unfold unixFS_CanFit, HasSpaceFor. cbn [disk_limit disk_used with_files].
  fold (HasSpaceFor fs (size (produced a))).
  split.
  - intros Hfull. rewrite Hfull. cbn [negb].
    unfold unixFS_Remove.
    match goal with
    | |- context [SafePath ?fs' ?p] =>
      replace (SafePath fs' p) with (SafePath fs p)
        by (symmetry; apply SafePath_same_view; repeat split)
    end.
    rewrite Hh. cbn [files with_files].
    rewrite lookup_insert_eq.
    cbn [state result fst snd files with_files disk_used addDisk with_disk_used].
    repeat split; [apply lookup_delete_eq|].
    intros Hnone. rewrite (Hold _ (Hm Hnone)). cbn [data]. rewrite overwrite_empty. lia.
  - intros Hfits. rewrite Hfits. cbn [negb].
    unfold bind, unixFS_Add, File_Stat, os_Stat, addDisk.
    cbn [files with_files with_disk_used disk_used].
    rewrite lookup_insert_eq. cbn [state result fst snd disk_used with_disk_used with_files].
    split; [reflexivity|]. eexists. split; [reflexivity|]. cbn [Name Size].
    split; [reflexivity|].
    intros Hnone. rewrite (Hold _ (Hm Hnone)). cbn [data]. rewrite overwrite_empty. reflexivity.
Qed.

(** X16.  First variant of [CompressFiles], once the directory and the paths
    resolve and the archive is created: an archive that does not fit is
    removed with the disk-space error and [disk_used] is what it was; one
    that fits is counted, exactly its size, and its file info returned. *)
Lemma CompressFiles_safepath_accounts (dir : string) (paths : list string)
    (now_rfc3339 : string) (a : ArchiveRun) (fs : Filesystem) (c : string)
    (cleaned : list string) :
  failure a = None ->
  SafePath fs dir = inr c ->
  ParallelSafePath fs (List.map (fun p => Join [c; p]) paths) = inr cleaned ->
  (HasSpaceFor fs (size (produced a)) = Some (FsError ErrCodeDiskSpace) ->
   result (snd (SafePathVariant.CompressFiles dir paths now_rfc3339 a fs))
   = inl (FsError ErrCodeDiskSpace) /\
   files (state (snd (SafePathVariant.CompressFiles dir paths now_rfc3339 a fs)))
     !! Join [c; archive_name now_rfc3339] = None /\
   disk_used (state (snd (SafePathVariant.CompressFiles dir paths now_rfc3339 a fs)))
   = disk_used fs) /\
  (HasSpaceFor fs (size (produced a)) = None ->
   disk_used (state (snd (SafePathVariant.CompressFiles dir paths now_rfc3339 a fs)))
   = disk_used fs + size (produced a) /\
   result (snd (SafePathVariant.CompressFiles dir paths now_rfc3339 a fs))
   = inr {| Name := Base (Join [c; archive_name now_rfc3339]); Size := size (produced a) |}).
Proof.
  intros Hok Hdir Hpaths.
  rewrite (CompressFiles_paths _ _ _ _ _ _ Hdir), Hpaths. cbn [snd].
  unfold bind, Archive_Create. rewrite Hok.
  unfold os_Stat. cbn [files with_files]. rewrite lookup_insert_eq. cbn [data Size].
  rewrite HasSpaceFor_with_files.
  split.
  - intros Hfull. rewrite Hfull.
    unfold os_Remove. cbn [files with_files]. rewrite lookup_insert_eq.
    cbn [state result fst snd files with_files disk_used].
    repeat split. apply lookup_delete_eq.
  - intros Hfits. rewrite Hfits.
    cbn [state result fst snd addDisk with_disk_used disk_used with_files].
    split; reflexivity.
Qed.

Lemma CompressFiles_safepath_accounts_witness :
  disk_used (state (snd (SafePathVariant.CompressFiles "data" ["a.txt"] "2024-05-01T10:00:00Z"
                           {| produced := "0123456789ab"; failure := None |}
                           (server 100 90 ∅)))) = 90 /\
  disk_used (state (snd (SafePathVariant.CompressFiles "data" ["a.txt"] "2024-05-01T10:00:00Z"
                           {| produced := "0123456789ab"; failure := None |}
                           (server 100 80 ∅)))) = 92.
Proof.
  split.
  - apply (proj1 (CompressFiles_safepath_accounts "data" ["a.txt"] "2024-05-01T10:00:00Z"
                    {| produced := "0123456789ab"; failure := None |} (server 100 90 ∅)
                    "/srv/data" ["/srv/data/a.txt"] eq_refl eq_refl eq_refl)).
    reflexivity.
  - apply (proj2 (CompressFiles_safepath_accounts "data" ["a.txt"] "2024-05-01T10:00:00Z"
                    {| produced := "0123456789ab"; failure := None |} (server 100 80 ∅)
                    "/srv/data" ["/srv/data/a.txt"] eq_refl eq_refl eq_refl)).
    reflexivity.
Defined.

(** C3 at its failing input.  A 12-byte archive of [data] on a server that
    has used 90 of its 100 bytes does not fit.  The second variant of
    [CompressFiles] removes it and returns the disk-space error, and
    [disk_used] ends at 78: the removal subtracts 12 bytes that were never
    added.  The first variant, on the same input, leaves [disk_used] at 90;
    and an archive that fits (80 bytes used) is counted by both. *)
Theorem CompressFiles_refunds_an_uncounted_archive :
  UfsVariant.CompressFiles "data" ["a.txt"] "2024-05-01T10:00:00Z"
    {| produced := "0123456789ab"; failure := None |} (server 100 90 ∅)
  = (server 100 78 ∅, inl (FsError ErrCodeDiskSpace)) /\
  snd (SafePathVariant.CompressFiles "data" ["a.txt"] "2024-05-01T10:00:00Z"
         {| produced := "0123456789ab"; failure := None |} (server 100 90 ∅))
  = (server 100 90 ∅, inl (FsError ErrCodeDiskSpace)) /\
  disk_used (state (UfsVariant.CompressFiles "data" ["a.txt"] "2024-05-01T10:00:00Z"
                      {| produced := "0123456789ab"; failure := None |} (server 100 80 ∅)))
  = 92 /\
  disk_used (state (snd (SafePathVariant.CompressFiles "data" ["a.txt"]
                           "2024-05-01T10:00:00Z"
                           {| produced := "0123456789ab"; failure := None |}
                           (server 100 80 ∅))))
  = 92.
Proof. repeat split; vm_compute; reflexivity. Qed.

(** ** Properties of [extractStream] on other formats *)

(** C9.  For a format that implements neither [archiver.Extractor] nor
    [archiver.Decompressor], [extractStream] of the second variant returns nil
    and leaves the filesystem as it was, not an unknown-archive error; so
    [DecompressFile] of a file that opens and is identified as such a format
    reports success and extracts nothing.  The first variant does so for
    every format that is not an extractor, and so does its [DecompressFile]
    for every archive identified as one.  The unknown-archive error is the
    answer to [archiver.ErrNoMatch] from the identification.  An instance is
    the gzip file [logs/latest.log.gz]: gzip is a decompressor and not an
    extractor, so [DecompressFile] of the first variant returns nil with
    nothing written and [disk_used] as it was, where the second variant
    extracts [logs/latest.log]. *)
Theorem other_formats_extract_nothing (decode : Z -> Z)
    (Identify : string -> string -> Error + (Format * string)) (ctx : Context) :
  (forall (opts : extractStreamOptions) (fs : Filesystem),
     Extractor (Format_ opts) = None -> Decompressor (Format_ opts) = None ->
     UfsVariant.extractStream decode ctx opts fs = (fs, inr tt)) /\
  (forall (dir file contents input : string) (format : Format) (fs : Filesystem),
     unixFS_Open (Join [dir; file]) fs = (fs, inr contents) ->
     Identify (Base file) contents = inr (format, input) ->
     Extractor format = None -> Decompressor format = None ->
     UfsVariant.DecompressFile decode Identify ctx dir file fs = (fs, inr tt)) /\
  (forall (opts : extractStreamOptions) (fs : Filesystem),
     Extractor (Format_ opts) = None ->
     SafePathVariant.extractStream ctx opts fs = (fs, inr tt)) /\
  (forall (dir file source input : string) (archive : File) (format : Format)
          (fs : Filesystem),
     SafePath fs (Join [dir; file]) = inr source ->
     files fs !! source = Some archive ->
     Identify (Base source) (data archive) = inr (format, input) ->
     Extractor format = None ->
     SafePathVariant.DecompressFile Identify ctx dir file fs = (fs, inr tt)) /\
  (forall (dir file contents : string) (fs : Filesystem),
     unixFS_Open (Join [dir; file]) fs = (fs, inr contents) ->
     Identify (Base file) contents = inl ErrNoMatch ->
     UfsVariant.DecompressFile decode Identify ctx dir file fs
     = (fs, inl (FsError ErrCodeUnknownArchive))) /\
  (forall (dir file source : string) (archive : File) (fs : Filesystem),
     SafePath fs (Join [dir; file]) = inr source ->
     files fs !! source = Some archive ->
     Identify (Base source) (data archive) = inl ErrNoMatch ->
     SafePathVariant.DecompressFile Identify ctx dir file fs
     = (fs, inl (FsError ErrCodeUnknownArchive))) /\
  SafePathVariant.DecompressFile
    (identify_gz {| chunks := ["line1"; "line2"]; last := None |}) ctx
    "logs" "latest.log.gz" server_with_gz
  = (server_with_gz, inr tt) /\
  UfsVariant.DecompressFile decode
    (identify_gz {| chunks := ["line1"; "line2"]; last := None |}) ctx
    "logs" "latest.log.gz" server_with_gz
  = (server 0 14 (<[ "/srv/logs/latest.log"
                     := {| data := "line1line2"; mode := 420; mtime := 0 |} ]>
                    (files server_with_gz)),
     inr tt).
Proof.
  repeat apply conj.
  - intros opts fs Hex Hde. unfold UfsVariant.extractStream. rewrite Hex, Hde. reflexivity.
  - intros dir file contents input format fs Hopen Hid Hex Hde.
    unfold UfsVariant.DecompressFile, bind. rewrite Hopen, Hid.
    unfold UfsVariant.extractStream. cbn [Format_]. rewrite Hex, Hde. reflexivity.
  - intros opts fs Hex. unfold SafePathVariant.extractStream. rewrite Hex. reflexivity.
  - intros dir file source input archive format fs Hp Hf Hid Hex.
    unfold SafePathVariant.DecompressFile, SafePathVariant.DecompressFileUnsafe.
    rewrite Hp, Hf, Hid. unfold SafePathVariant.extractStream. cbn [Format_].
    rewrite Hex. reflexivity.
  - intros dir file contents fs Hopen Hid.
    unfold UfsVariant.DecompressFile, bind. rewrite Hopen, Hid. reflexivity.
  - intros dir file source archive fs Hp Hf Hid.
    unfold SafePathVariant.DecompressFile, SafePathVariant.DecompressFileUnsafe.
    rewrite Hp, Hf, Hid. reflexivity.
  - vm_compute. reflexivity.
  - vm_compute. reflexivity.
Qed.

(** A format value with neither interface handed to [extractStream], and a
    file identified as one; a [.gz] stream given to the first variant; and a
    file that is no archive, in both variants. *)
Lemma other_formats_extract_nothing_witness :
  UfsVariant.extractStream (fun _ => 0) never_cancelled
    {| Directory := ""; FileName := "data.raw"; Format_ := bare_format; Reader_ := "raw" |}
    (server 0 0 ∅)
  = (server 0 0 ∅, inr tt) /\
  UfsVariant.DecompressFile (fun _ => 0) (identify_as bare_format) never_cancelled
    "" "data.raw"
    (server 0 3 {[ "/srv/data.raw" := {| data := "raw"; mode := 420; mtime := 0 |} ]})
  = (server 0 3 {[ "/srv/data.raw" := {| data := "raw"; mode := 420; mtime := 0 |} ]},
     inr tt) /\
  SafePathVariant.extractStream never_cancelled
    {| Directory := "logs"; FileName := "latest.log.gz";
       Format_ := gz_of {| chunks := ["line"]; last := None |}; Reader_ := "" |}
    (server 0 0 ∅)
  = (server 0 0 ∅, inr tt) /\
  SafePathVariant.DecompressFile
    (identify_gz {| chunks := ["line1"; "line2"]; last := None |}) never_cancelled
    "logs" "latest.log.gz" server_with_gz
  = (server_with_gz, inr tt) /\
  UfsVariant.DecompressFile (fun _ => 0)
    (identify_gz {| chunks := ["line1"; "line2"]; last := None |}) never_cancelled
    "logs" "notes.txt"
    (server 0 3 {[ "/srv/logs/notes.txt" := {| data := "abc"; mode := 420; mtime := 0 |} ]})
  = (server 0 3 {[ "/srv/logs/notes.txt" := {| data := "abc"; mode := 420; mtime := 0 |} ]},
     inl (FsError ErrCodeUnknownArchive)) /\
  SafePathVariant.DecompressFile
    (identify_gz {| chunks := ["line1"; "line2"]; last := None |}) never_cancelled
    "logs" "notes.txt"
    (server 0 3 {[ "/srv/logs/notes.txt" := {| data := "abc"; mode := 420; mtime := 0 |} ]})
  = (server 0 3 {[ "/srv/logs/notes.txt" := {| data := "abc"; mode := 420; mtime := 0 |} ]},
     inl (FsError ErrCodeUnknownArchive)).
Proof.
  pose proof (other_formats_extract_nothing (fun _ => 0)
                (identify_gz {| chunks := ["line1"; "line2"]; last := None |})
                never_cancelled) as (Hbare & _ & Hold & Hfile & Hnomatch & Hnomatch1 & _).
  pose proof (other_formats_extract_nothing (fun _ => 0) (identify_as bare_format)
                never_cancelled) as (_ & Hraw & _).
  split; [|split; [|split; [|split; [|split]]]].
  - apply Hbare; reflexivity.
  - apply (Hraw "" "data.raw" "raw" "raw" bare_format); reflexivity.
  - apply Hold. reflexivity.
  - apply (Hfile "logs" "latest.log.gz" "/srv/logs/latest.log.gz" "gzip"
             {| data := "gzip"; mode := 420; mtime := 0 |}
             (gz_of {| chunks := ["line1"; "line2"]; last := None |}));
      vm_compute; reflexivity.
  - apply (Hnomatch "logs" "notes.txt" "abc"); vm_compute; reflexivity.
  - apply (Hnomatch1 "logs" "notes.txt" "/srv/logs/notes.txt"
             {| data := "abc"; mode := 420; mtime := 0 |}); vm_compute; reflexivity.
Defined.

(** ** Cancellation *)

(** Container archives: the poll in front of an entry ends the extraction
    with the context's error, the entry and those after it untouched. *)
Lemma Extract_from_cancelled (ctx : Context) (i : nat) (f : ArchiveFile)
    (rest : list ArchiveFile) (broken_with : option Error)
    (handleFile : ArchiveFile -> M unit) (fs : Filesystem) :
  ctx i = true ->
  Extract_from ctx i (f :: rest) broken_with handleFile fs = (fs, inl ContextCanceled).
Proof. intros Hc. cbn [Extract_from]. rewrite Hc. reflexivity. Qed.

(** The single-file branch never reads the context. *)
Lemma single_file_ignores_context (decode : Z -> Z) (ctx ctx' : Context)
    (opts : extractStreamOptions) (fs : Filesystem) :
  Extractor (Format_ opts) = None ->
  UfsVariant.extractStream decode ctx opts fs = UfsVariant.extractStream decode ctx' opts fs.
Proof. intros Hex. unfold UfsVariant.extractStream. rewrite Hex. reflexivity. Qed.

(** C5 at its failing input.  Decompressing [latest.log.gz] (two reads of
    five bytes) into [logs] under a context that is cancelled throughout: the
    call returns nil, the whole file is written and counted.  And when the
    stream breaks off after the first read, the error is returned with the
    five bytes left on disk and in [disk_used]. *)
Theorem cancelled_single_file_runs_on (decode : Z -> Z) :
  UfsVariant.extractStream decode cancelled
    {| Directory := "logs"; FileName := "latest.log.gz";
       Format_ := gz_of {| chunks := ["line1"; "line2"]; last := None |}; Reader_ := "" |}
    (server 0 0 ∅)
  = (server 0 10 {[ "/srv/logs/latest.log"
                    := {| data := "line1line2"; mode := 420; mtime := 0 |} ]},
     inr tt) /\
  UfsVariant.extractStream decode cancelled
    {| Directory := "logs"; FileName := "latest.log.gz";
       Format_ := gz_of {| chunks := ["line1"]; last := Some (IOError "unexpected EOF") |};
       Reader_ := "" |}
    (server 0 0 ∅)
  = (server 0 5 {[ "/srv/logs/latest.log" := {| data := "line1"; mode := 420; mtime := 0 |} ]},
     inl (IOError "unexpected EOF")).
Proof. split; vm_compute; reflexivity. Qed.

(** ** The decoded path *)


(** ** The other entry points *)

Lemma extract_entry_unsafe_confined_v1 (decode : Z -> Z) (opts : extractStreamOptions)
    (f : ArchiveFile) (fs : Filesystem) :
  confined fs (state (SafePathVariant.extract_entry_unsafe decode opts f fs)).
Proof.
  unfold SafePathVariant.extract_entry_unsafe, SafePathVariant.convertToUTF8.
  destruct (IsDir f); [apply confined_refl|].
  destruct (IsIgnored fs _); [apply confined_refl|].
  destruct (Open f) as [e|r]; [apply confined_refl|].
  apply bind_confined; [rewrite !wrapped_state; apply Write_confined|]. intros _ _.
  apply bind_confined; [rewrite !wrapped_state; apply Chmod_confined|]. intros _ _.
  rewrite !wrapped_state. apply Chtimes_confined.
Qed.

Lemma unixFS_Remove_confined (p : string) (fs : Filesystem) :
  confined fs (state (unixFS_Remove p fs)).
Proof.
  unfold unixFS_Remove, state. destruct (SafePath fs p) as [e|h] eqn:Hp; [apply confined_refl|].
  apply SafePath_within in Hp.
  destruct (files fs !! h); cbn [fst]; [|apply confined_refl].
  eapply confined_trans; [apply confined_delete; exact Hp | apply confined_addDisk].
Qed.

(** X12.  The other entry points of the archive engine that write are
    confined to the server root too: [DecompressFileUnsafe] (whose archive
    may lie anywhere on the host) and [ExtractStreamUnsafe] of both variants,
    and [CompressFiles] of the second, keep the server's root, denylist,
    symlinks and limit, and create, change or remove no file outside the
    root, whatever the archive holds and however the call ends. *)
Theorem archive_engine_stays_in_the_root (decode : Z -> Z)
    (Identify : string -> string -> Error + (Format * string)) (ctx : Context)
    (dir file : string) (fs : Filesystem) :
  confined fs (state (SafePathVariant.DecompressFileUnsafe Identify ctx dir file fs)) /\
  confined fs (state (SafePathVariant.ExtractStreamUnsafe decode Identify ctx dir file fs)) /\
  confined fs (state (UfsVariant.ExtractStreamUnsafe decode Identify ctx dir file fs)) /\
  (forall (paths : list string) (now_rfc3339 : string) (a : ArchiveRun),
     confined fs (state (UfsVariant.CompressFiles dir paths now_rfc3339 a fs))).
Proof.
  split; [apply DecompressFileUnsafe_confined_v1|]. split; [|split].
  - unfold SafePathVariant.ExtractStreamUnsafe.
    destruct (Identify "archive.tar.gz" file) as [e|[format input]]; [apply confined_refl|].
    cbn [Format_ Reader_].
    destruct (Extractor format) as [ex|]; [|apply confined_refl].
    apply Extract_from_confined. apply extract_entry_unsafe_confined_v1.
  - unfold UfsVariant.ExtractStreamUnsafe.
    destruct (Identify "archive.tar.gz" file) as [e|[format input]]; [apply confined_refl|].
    apply extractStream_confined_v2.
  - intros paths now_rfc3339 a. unfold UfsVariant.CompressFiles.
    destruct (unixFS_OpenFile_confined (Join [dir; archive_name now_rfc3339]) fs) as [Hopen Hh].
    apply bind_confined; [exact Hopen|].
    intros h Hres. specialize (Hh h Hres).
    set (fs1 := state (unixFS_OpenFile (Join [dir; archive_name now_rfc3339]) fs)) in *.
    assert (Hh1 : within (root fs1) h = true).
    { destruct Hopen as [(Hr & _) _]. rewrite Hr. exact Hh. }
    unfold Archive_Stream.
    pose proof (File_Write_confined h 0 (produced a) fs1 Hh1) as Hw.
    destruct (failure a); [exact Hw|].
    destruct (negb (unixFS_CanFit (File_Write h 0 (produced a) fs1) (size (produced a)))).
    + eapply confined_trans; [exact Hw | apply unixFS_Remove_confined].
    + eapply confined_trans; [exact Hw|].
      apply bind_confined; [apply confined_addDisk|]. intros _ _.
      unfold File_Stat, os_Stat.
      destruct (files _ !! h); apply confined_refl.
Qed.

(** ** Container archives, entry by entry *)

(** X13. A container archive is extracted entry by entry and the context is
    honoured between entries: when the entries [before] have been extracted
    and the context is found cancelled in front of the next one, both
    variants of [extractStream] return the context's error, and the
    filesystem is the one the entries [before] left; the entry and those
    after it are not handled, and what was extracted stays. *)
Theorem cancellation_stops_at_the_next_entry (decode : Z -> Z) (ctx : Context)
    (opts : extractStreamOptions) (ex : string -> Archive)
    (before after : list ArchiveFile) (f : ArchiveFile) (fs : Filesystem) :
  Extractor (Format_ opts) = Some ex ->
  entries (ex (Reader_ opts)) = (before ++ f :: after)%list ->
  ctx (List.length before) = true ->
  (forall fs1,
     Extract_from ctx 0 before None (UfsVariant.extract_entry decode opts) fs = (fs1, inr tt) ->
     UfsVariant.extractStream decode ctx opts fs = (fs1, inl ContextCanceled)) /\
  (forall fs1,
     Extract_from ctx 0 before None (SafePathVariant.extract_entry opts) fs = (fs1, inr tt) ->
     SafePathVariant.extractStream ctx opts fs = (fs1, inl ContextCanceled)).
Proof.
  intros Hex Hentries Hctx. split; intros fs1 Hbefore.
  - unfold UfsVariant.extractStream, Extract. rewrite Hex, Hentries.
    rewrite (Extract_from_app _ _ _ _ _ _ _ _ Hbefore). cbn [Nat.add].
    apply Extract_from_cancelled. exact Hctx.
  - unfold SafePathVariant.extractStream, Extract. rewrite Hex, Hentries.
    rewrite (Extract_from_app _ _ _ _ _ _ _ _ Hbefore). cbn [Nat.add].
    apply Extract_from_cancelled. exact Hctx.
Qed.

Lemma cancellation_stops_at_the_next_entry_witness :
  UfsVariant.extractStream (fun _ => 0) cancelled_after_one
    {| Directory := "logs"; FileName := "a.zip";
       Format_ := zip_of [regular "a.log" "x"; regular "b.log" "yy"]; Reader_ := "" |}
    (server 0 0 ∅)
  = (server 0 1 {[ "/srv/logs/a.log" := {| data := "x"; mode := 420; mtime := 7 |} ]},
     inl ContextCanceled).
Proof.
  apply (proj1 (cancellation_stops_at_the_next_entry (fun _ => 0) cancelled_after_one
                  {| Directory := "logs"; FileName := "a.zip";
                     Format_ := zip_of [regular "a.log" "x"; regular "b.log" "yy"];
                     Reader_ := "" |}
                  (fun _ => {| entries := [regular "a.log" "x"; regular "b.log" "yy"];
                               broken := None |})
                  [regular "a.log" "x"] [] (regular "b.log" "yy") (server 0 0 ∅)
                  eq_refl eq_refl eq_refl)).
  vm_compute. reflexivity.
Defined.

Lemma Extract_from_never_cancelled (i j : nat) (es : list ArchiveFile)
    (broken_with : option Error) (handleFile : ArchiveFile -> M unit) (fs : Filesystem) :
  Extract_from never_cancelled i es broken_with handleFile fs
  = Extract_from never_cancelled j es broken_with handleFile fs.
Proof.
  revert i j fs. induction es as [|f es IH]; intros i j fs; [reflexivity|].
  cbn [Extract_from never_cancelled].
  destruct (handleFile f fs) as [fs' [e|[]]]; [reflexivity|]. apply IH.
Qed.

Lemma Extract_from_skips (handleFile : ArchiveFile -> M unit) (skip : Filesystem -> ArchiveFile -> bool)
    (broken_with : option Error) (fs0 : Filesystem) :
  (forall f fs, confined fs (state (handleFile f fs))) ->
  (forall f fs, skip fs f = true -> handleFile f fs = (fs, inr tt)) ->
  (forall f fs fs', same_view fs fs' -> skip fs' f = skip fs f) ->
  forall (es : list ArchiveFile) (fs : Filesystem),
    same_view fs0 fs ->
    Extract_from never_cancelled 0 es broken_with handleFile fs
    = Extract_from never_cancelled 0 (List.filter (fun f => negb (skip fs0 f)) es)
        broken_with handleFile fs.
Proof.
  intros Hconf Hskip Hview. induction es as [|f es IH]; intros fs Hfs; [reflexivity|].
  cbn [List.filter]. rewrite <- (Hview f fs0 fs Hfs).
  destruct (skip fs f) eqn:Hs; cbn [negb].
  - cbn [Extract_from never_cancelled]. rewrite (Hskip f fs Hs).
    rewrite (Extract_from_never_cancelled 1 0). apply IH. exact Hfs.
  - cbn [Extract_from never_cancelled].
    pose proof (Hconf f fs) as [Hv _]. unfold state in Hv.
    destruct (handleFile f fs) as [fs' [e|[]]]; [reflexivity|]. cbn [fst] in Hv.
    rewrite !(Extract_from_never_cancelled 1 0). apply IH.
    destruct Hfs as (a & b & c & d), Hv as (a' & b' & c' & d').
    repeat split; congruence.
Qed.

Lemma skipped_same_view (opts : extractStreamOptions) (f : ArchiveFile) (fs fs' : Filesystem) :
  same_view fs fs' -> skipped fs' opts f = skipped fs opts f.
Proof. intros (_ & Hd & _ & _). unfold skipped. rewrite Hd. reflexivity. Qed.

(** X14. Directories and denied files are passed over without a trace: with
    a context that is never cancelled, extracting an archive gives the
    result and the filesystem of extracting the archive without its
    directory entries and without the entries whose joined path the denylist
    matches, in both variants.  So an archive that holds nothing else, and
    does not break off, extracts with success and changes nothing. *)
Theorem skipped_entries_leave_no_trace (decode : Z -> Z) (opts : extractStreamOptions)
    (a : Archive) (fs : Filesystem) :
  Extract never_cancelled a (UfsVariant.extract_entry decode opts) fs
  = Extract never_cancelled (only (fun f => negb (skipped fs opts f)) a)
      (UfsVariant.extract_entry decode opts) fs /\
  Extract never_cancelled a (SafePathVariant.extract_entry opts) fs
  = Extract never_cancelled (only (fun f => negb (skipped fs opts f)) a)
      (SafePathVariant.extract_entry opts) fs /\
  (List.forallb (skipped fs opts) (entries a) = true -> broken a = None ->
   Extract never_cancelled a (UfsVariant.extract_entry decode opts) fs = (fs, inr tt) /\
   Extract never_cancelled a (SafePathVariant.extract_entry opts) fs = (fs, inr tt)).
Proof.
  assert (H2 : Extract never_cancelled a (UfsVariant.extract_entry decode opts) fs
               = Extract never_cancelled (only (fun f => negb (skipped fs opts f)) a)
                   (UfsVariant.extract_entry decode opts) fs).
  { unfold Extract, only. cbn [entries broken].
    apply (Extract_from_skips _ (fun fs f => skipped fs opts f)).
    - apply extract_entry_confined_v2.
    - intros f fs' Hs. unfold UfsVariant.extract_entry, IsIgnored. unfold skipped in Hs.
      destruct (IsDir f); [reflexivity|]. cbn [orb] in Hs. rewrite Hs. reflexivity.
    - intros f fs1 fs2. apply skipped_same_view.
    - apply same_view_refl. }
  assert (H1 : Extract never_cancelled a (SafePathVariant.extract_entry opts) fs
               = Extract never_cancelled (only (fun f => negb (skipped fs opts f)) a)
                   (SafePathVariant.extract_entry opts) fs).
  { unfold Extract, only. cbn [entries broken].
    apply (Extract_from_skips _ (fun fs f => skipped fs opts f)).
    - apply extract_entry_confined_v1.
    - intros f fs' Hs. unfold SafePathVariant.extract_entry, IsIgnored. unfold skipped in Hs.
      destruct (IsDir f); [reflexivity|]. cbn [orb] in Hs. rewrite Hs. reflexivity.
    - intros f fs1 fs2. apply skipped_same_view.
    - apply same_view_refl. }
  split; [exact H2|]. split; [exact H1|].
  intros Hall Hok. rewrite H1, H2. unfold Extract, only. cbn [entries broken].
  assert (Hnone : List.filter (fun f => negb (skipped fs opts f)) (entries a) = []).
  { clear H1 H2. induction (entries a) as [|f es IH]; [reflexivity|].
    cbn [List.forallb] in Hall. apply andb_true_iff in Hall as [Hf Hes].
    cbn [List.filter]. rewrite Hf. cbn [negb]. apply IH. exact Hes. }
  rewrite Hnone, Hok. split; reflexivity.
Qed.

Lemma skipped_entries_leave_no_trace_witness :
  Extract never_cancelled
    {| entries := [{| NameInArchive := "logs/"; IsDir := true; FileSize := 0; Mode := 493;
                      ModTime := 7; Open := inr "" |};
                   regular "secret.txt" "key"];
       broken := None |}
    (UfsVariant.extract_entry (fun _ => 0)
       {| Directory := "logs"; FileName := "a.zip"; Format_ := zip_of []; Reader_ := "" |})
    server_with_denylist
  = (server_with_denylist, inr tt).
Proof.
  apply (proj1 (proj2 (proj2 (skipped_entries_leave_no_trace (fun _ => 0)
                                {| Directory := "logs"; FileName := "a.zip";
                                   Format_ := zip_of []; Reader_ := "" |}
                                {| entries := [{| NameInArchive := "logs/"; IsDir := true;
                                                  FileSize := 0; Mode := 493; ModTime := 7;
                                                  Open := inr "" |};
                                               regular "secret.txt" "key"];
                                   broken := None |}
                                server_with_denylist)) eq_refl eq_refl)).
Defined.

(** ** The copy loop of the single-file branch *)












End Filesystem.
